(** * Superstore Sales dashboard: the two dashboard scripts, embedded

    [src/app.py] and [src/scripts/app.py] are two Streamlit scripts over a
    pandas table.  The embedding follows the scripts statement by statement:
    module [App] is [src/app.py], module [ScriptsApp] is
    [src/scripts/app.py]; the Python and pandas calls they make are in modules
    [Py] and [pd], each written after the documented behaviour of the call.
    Numbers are float64 values, text is a sequence of code points, what a
    widget returns is an argument. *)

From Stdlib Require Import ZArith NArith List String Ascii Bool Lia Floats.
From Stdlib Require Import Permutation Sorted.
Import ListNotations.

Local Open Scope Z_scope.
Local Open Scope list_scope.

(* ================================================================== *)
(** ** Python values *)

Module Py.

(** A Python [str] is a sequence of Unicode code points. *)
Definition codepoint := N.
Definition str := list codepoint.

(** An ASCII literal of the scripts, as a [str]. *)
Definition lit (s : string) : str :=
  List.map N_of_ascii (list_ascii_of_string s).

Fixpoint str_eqb (a b : str) : bool :=
  match a, b with
  | [], [] => true
  | x :: a', y :: b' => N.eqb x y && str_eqb a' b'
  | _, _ => false
  end.

(** [a < b] on strings: lexicographic on code points. *)
Fixpoint str_ltb (a b : str) : bool :=
  match a, b with
  | _, [] => false
  | [], _ :: _ => true
  | x :: a', y :: b' => (x <? y)%N || ((x =? y)%N && str_ltb a' b')
  end.

(** [x in xs] for a list of strings. *)
Definition str_in (x : str) (xs : list str) : bool := existsb (str_eqb x) xs.

(** [str.isspace] on one code point: the Unicode white space characters. *)
Definition is_space (c : codepoint) : bool :=
  ((9 <=? c) && (c <=? 13) || (28 <=? c) && (c <=? 32) || (c =? 133)
   || (c =? 160) || (c =? 5760) || (8192 <=? c) && (c <=? 8202)
   || (c =? 8232) || (c =? 8233) || (c =? 8239) || (c =? 8287)
   || (c =? 12288))%N.

Fixpoint lstrip (s : str) : str :=
  match s with
  | c :: s' => if is_space c then lstrip s' else s
  | [] => []
  end.

(** [s.strip()] *)
Definition strip (s : str) : str := rev (lstrip (rev (lstrip s))).

(** Truth value of a list: empty is false. *)
Definition truthy {A} (l : list A) : bool :=
  match l with [] => false | _ => true end.

(** *** Codecs

    [bytes] are a list of bytes.  ['latin-1'] maps every byte to the code
    point of the same number and cannot fail.  ['utf-8'] is the strict
    decoder: shortest form only, no surrogates, nothing above U+10FFFF;
    [None] stands for [UnicodeDecodeError]. *)
Definition bytes := list Byte.byte.

Definition latin1_decode (data : bytes) : str := List.map Byte.to_N data.

Definition is_continuation (b : N) : bool := ((128 <=? b) && (b <=? 191))%N.
Definition is_surrogate (c : codepoint) : bool :=
  ((55296 <=? c) && (c <=? 57343))%N.

Fixpoint utf8_decode_N (data : list N) : option str :=
  match data with
  | [] => Some []
  | b0 :: r0 =>
      if (b0 <? 128)%N then option_map (cons b0) (utf8_decode_N r0)
      else if ((194 <=? b0) && (b0 <=? 223))%N then
        match r0 with
        | b1 :: r1 =>
            if is_continuation b1
            then option_map (cons ((b0 - 192) * 64 + (b1 - 128))%N)
                            (utf8_decode_N r1)
            else None
        | _ => None
        end
      else if ((224 <=? b0) && (b0 <=? 239))%N then
        match r0 with
        | b1 :: b2 :: r2 =>
            let c := ((b0 - 224) * 4096 + (b1 - 128) * 64 + (b2 - 128))%N in
            if is_continuation b1 && is_continuation b2
               && (2048 <=? c)%N && negb (is_surrogate c)
            then option_map (cons c) (utf8_decode_N r2)
            else None
        | _ => None
        end
      else if ((240 <=? b0) && (b0 <=? 244))%N then
        match r0 with
        | b1 :: b2 :: b3 :: r3 =>
            let c := ((b0 - 240) * 262144 + (b1 - 128) * 4096
                      + (b2 - 128) * 64 + (b3 - 128))%N in
            if is_continuation b1 && is_continuation b2 && is_continuation b3
               && (65536 <=? c)%N && (c <=? 1114111)%N
            then option_map (cons c) (utf8_decode_N r3)
            else None
        | _ => None
        end
      else None
  end.

Definition utf8_decode (data : bytes) : option str :=
  utf8_decode_N (List.map Byte.to_N data).

(** [s.encode('utf-8')]: one to four bytes per code point; a surrogate (or a
    number that is no code point) raises [UnicodeEncodeError], here [None]. *)
Definition utf8_encode_char (c : codepoint) : option (list N) :=
  if (c <? 128)%N then Some [c]
  else if (c <? 2048)%N then Some [192 + c / 64; 128 + c mod 64]%N
  else if (c <? 65536)%N then
    if is_surrogate c then None
    else Some [224 + c / 4096; 128 + (c / 64) mod 64; 128 + c mod 64]%N
  else if (c <=? 1114111)%N then
    Some [240 + c / 262144; 128 + (c / 4096) mod 64;
          128 + (c / 64) mod 64; 128 + c mod 64]%N
  else None.

Fixpoint utf8_encode_N (s : str) : option (list N) :=
  match s with
  | [] => Some []
  | c :: s' =>
      match utf8_encode_char c, utf8_encode_N s' with
      | Some bs, Some rest => Some (bs ++ rest)
      | _, _ => None
      end
  end.

Definition byte_of_N (n : N) : Byte.byte :=
  match Byte.of_N n with Some b => b | None => Byte.x00 end.

Definition utf8_encode (s : str) : option bytes :=
  option_map (List.map byte_of_N) (utf8_encode_N s).

Inductive Encoding := utf_8 | latin_1.

(** [data.decode(encoding)] *)
Definition decode (encoding : Encoding) (data : bytes) : option str :=
  match encoding with
  | utf_8 => utf8_decode data
  | latin_1 => Some (latin1_decode data)
  end.

(** The exceptions the scripts can meet. *)
Inductive Exn :=
| UnicodeDecodeError
| UnicodeEncodeError
| KeyError (col : str)
| OtherError (msg : str).

Inductive result (A : Type) :=
| Ok (a : A)
| Raise (e : Exn).
Arguments Ok {A} a.
Arguments Raise {A} e.

Definition bind {A B} (m : result A) (k : A -> result B) : result B :=
  match m with Ok a => k a | Raise e => Raise e end.

(** [sorted(xs)] on strings: ascending, equal strings in the order they
    had. *)
Fixpoint insert_sorted (x : str) (l : list str) : list str :=
  match l with
  | [] => [x]
  | y :: l' => if str_ltb y x then y :: insert_sorted x l' else x :: l
  end.

Fixpoint sorted (l : list str) : list str :=
  match l with
  | [] => []
  | x :: l' => insert_sorted x (sorted l')
  end.

End Py.

Notation "x <- m ;; k" := (Py.bind m (fun x => k))
  (at level 61, m at next level, right associativity).

(* ================================================================== *)
(** ** pandas *)

Module pd.
Import Py.

(** A [Timestamp] is a count of nanoseconds since the epoch; a
    [datetime.date] is a count of days.  [None] in a date column is [NaT],
    [None] in a text column is the missing value [NaN]. *)
Definition Timestamp := Z.
Definition date := Z.
Definition ns_per_day : Z := 86400000000000.

(** [pd.to_datetime(d)] for a [datetime.date]: midnight of that day. *)
Definition to_datetime (d : date) : Timestamp := d * ns_per_day.

(** A row of the table as [read_csv] types it: dates still text.  The model
    covers the tables in which [read_csv] types Sales, Profit and Discount as
    float64 and leaves the two date columns as text, as it does for the
    Superstore file; a table in which one of these columns holds something
    else is not among the values of [RawRow], and nothing below speaks of what
    the scripts do with it. *)
Record RawRow := mkRawRow {
  raw_Order_Date : option str;
  raw_Ship_Date : option str;
  raw_Region : option str;
  raw_Category : option str;
  raw_Sub_Category : option str;
  raw_Product_Name : option str;
  raw_Sales : float;
  raw_Profit : float;
  raw_Discount : float;
  raw_other : list (str * str)
}.

(** A row of the table after [load_data]. *)
Record Row := mkRow {
  Order_Date : option Timestamp;
  Ship_Date : option Timestamp;
  Region : option str;
  Category : option str;
  Sub_Category : option str;
  Product_Name : option str;
  Sales : float;
  Profit : float;
  Discount : float;
  ProfitMargin : float;
  other : list (str * str)
}.

(** A table: its column labels, in order, and its rows, in order.  A field
    of a row whose label is not among [columns] is not part of the table. *)
Record Frame (R : Type) := mkFrame {
  columns : list str;
  rows : list R
}.
Arguments mkFrame {R} _ _.
Arguments columns {R} _.
Arguments rows {R} _.

Definition RawFrame := Frame RawRow.
Definition DataFrame := Frame Row.

(** [c in df.columns] *)
Definition has_column {R} (df : Frame R) (c : string) : bool :=
  str_in (lit c) (columns df).

(** [df[mask]] for a boolean mask computed row by row. *)
Definition select {R} (df : Frame R) (mask : R -> bool) : Frame R :=
  mkFrame (columns df) (List.filter mask (rows df)).

(** [series.isin(values)] on one cell; a missing cell is in no list of
    strings. *)
Definition isin (cell : option str) (values : list str) : bool :=
  match cell with
  | Some s => str_in s values
  | None => false
  end.

(** [series >= ts] and [series <= ts] on one cell; any comparison with [NaT]
    is false. *)
Definition ge_ts (cell : option Timestamp) (ts : Timestamp) : bool :=
  match cell with Some t => ts <=? t | None => false end.

Definition le_ts (cell : option Timestamp) (ts : Timestamp) : bool :=
  match cell with Some t => t <=? ts | None => false end.

(** [series.dropna().unique().tolist()]: the distinct present values, in
    order of first appearance. *)
Fixpoint unique (l : list str) : list str :=
  match l with
  | [] => []
  | x :: l' => x :: List.filter (fun y => negb (str_eqb x y)) (unique l')
  end.

Fixpoint dropna {A} (l : list (option A)) : list A :=
  match l with
  | [] => []
  | Some x :: l' => x :: dropna l'
  | None :: l' => dropna l'
  end.

(** [series.min()] and [series.max()] of a date column; [NaT] is skipped and
    the result is [NaT] when nothing is left. *)
Definition ts_min (l : list (option Timestamp)) : option Timestamp :=
  match dropna l with
  | [] => None
  | t :: ts => Some (fold_left Z.min ts t)
  end.

Definition ts_max (l : list (option Timestamp)) : option Timestamp :=
  match dropna l with
  | [] => None
  | t :: ts => Some (fold_left Z.max ts t)
  end.

(** [pd.date_range(start, periods=n, freq="D")]: [n] timestamps, the first
    one [start] itself, one day apart. *)
Definition date_range (start : Timestamp) (periods : nat) : list Timestamp :=
  List.map (fun i => start + Z.of_nat i * ns_per_day) (seq 0 periods).

(** *** What the scripts take from pandas and statsmodels as given

    The tokenizer and type inference of [read_csv] on decoded text, the
    date parser of [to_datetime] (a format guessed from the column, then
    applied to each value), the fitted Holt model's [forecast], the places
    numpy's default sort gives to values that are equal ([quicksort_moves],
    read by [rearrange] below), and the text pandas writes for a number and
    for a timestamp. *)
Class Library := {
  parse_table : str -> RawFrame + str;
  datetime_format : Type;
  guess_datetime_format : list (option str) -> datetime_format;
  strptime : datetime_format -> str -> option Timestamp;
  holt_forecast : list float -> nat -> list float;
  quicksort_moves : list float -> list nat;
  repr_float : float -> str;
  repr_timestamp : Timestamp -> str
}.

(** The tokenizer on decoded text; what it rejects is an error of its own,
    never a [UnicodeDecodeError]. *)
Definition parse_text `{Library} (text : str) : result RawFrame :=
  match parse_table text with
  | inl df => Ok df
  | inr msg => Raise (OtherError msg)
  end.

(** [pd.read_csv(path, encoding=...)] on the bytes of the file: a byte
    sequence the codec rejects raises [UnicodeDecodeError]. *)
Definition read_csv `{Library} (encoding : Encoding) (file : bytes)
  : result RawFrame :=
  match decode encoding file with
  | None => Raise UnicodeDecodeError
  | Some text => parse_text text
  end.

(** [pd.to_datetime(column, errors="coerce")] on one cell, the format of the
    column known: whatever does not parse becomes [NaT]. *)
Definition to_datetime_coerce `{Library} (fmt : datetime_format)
  (cell : option str) : option Timestamp :=
  match cell with
  | Some s => strptime fmt s
  | None => None
  end.

(** *** groupby(...).sum()

    One entry per distinct present key, keys ascending; a row whose key is
    missing belongs to no group.  The values of a group are added in row
    order as [group_sum] of pandas does it: each group keeps a running sum
    and a running compensation of the rounding error (Kahan's summation,
    float64), a [NaN] value is skipped, a compensation that comes out as
    [NaN] (an infinite value was added) is put back to 0, and the sum of a
    group of nothing but [NaN] values is 0. *)
Definition Series (K : Type) := list (K * float).

(** One value added to the pair (sum, compensation) of its group. *)
Definition kahan_add (acc : float * float) (val : float) : float * float :=
  if is_nan val then acc
  else
    let (sumx, compensation) := acc in
    let y := (val - compensation)%float in
    let t := (sumx + y)%float in
    let compensation := (t - sumx - y)%float in
    (t, if is_nan compensation then 0%float else compensation).

Section GroupBy.
Context {K : Type} (eqb ltb : K -> K -> bool).

Fixpoint group_add (k : K) (v : float) (acc : list (K * (float * float)))
  : list (K * (float * float)) :=
  match acc with
  | [] => [(k, kahan_add (0%float, 0%float) v)]
  | (k', s) :: rest =>
      if eqb k k' then (k', kahan_add s v) :: rest
      else if ltb k k' then (k, kahan_add (0%float, 0%float) v) :: acc
      else (k', s) :: group_add k v rest
  end.

Definition groupby_sum {R} (key : R -> option K) (val : R -> float)
  (l : list R) : Series K :=
  List.map (fun g => (fst g, fst (snd g)))
    (fold_left
       (fun acc r =>
          match key r with
          | Some k => group_add k (val r) acc
          | None => acc
          end)
       l []).
End GroupBy.

(** *** Series.sort_values(ascending=False), Series.nlargest(n)

    In decreasing order of value a [NaN] ranks after every number.
    [sort_desc] is the stable arrangement in that order (what
    [argsort(kind="mergesort")] gives): among equal values the earlier entry
    of the series comes first. *)
Definition ranks_before (a b : float) : bool := is_nan b || (b <=? a)%float.

(** A list rearranged by a list of positions: every element is put into the
    rearranged rest at the position given for it.  Whatever the positions
    are the result has the same elements, and every arrangement of the
    elements is the result for some positions. *)
Fixpoint rearrange {A} (moves : list nat) (l : list A) : list A :=
  match l, moves with
  | x :: l', i :: moves' =>
      let r := rearrange moves' l' in firstn i r ++ x :: skipn i r
  | _, _ => l
  end.

Section NLargest.
Context `{Library} {K : Type}.

Fixpoint insert_desc (x : K * float) (l : Series K) : Series K :=
  match l with
  | [] => [x]
  | y :: l' =>
      if ranks_before (snd x) (snd y) then x :: l else y :: insert_desc x l'
  end.

Fixpoint sort_desc (l : Series K) : Series K :=
  match l with
  | [] => []
  | x :: l' => insert_desc x (sort_desc l')
  end.

(** [series.sort_values(ascending=False)]: the numbers in decreasing order,
    then the [NaN] entries in the order they have in the series.  The
    numbers are sorted with numpy's default sort, which is not stable: the
    outcome is a decreasing arrangement, and which one among equal values is
    up to the library.  Here the library first moves the entries about as it
    likes, and the values are then put in order without any further change
    among equal values. *)
Definition sort_values (s : Series K) : Series K :=
  let present := List.filter (fun p => negb (is_nan (snd p))) s in
  sort_desc (rearrange (quicksort_moves (List.map snd present)) present)
  ++ List.filter (fun p => is_nan (snd p)) s.

(** [series.nlargest(n)] for [n > 0] and [keep="first"].  A series of no
    more than [n] entries is handed to [sort_values]; of a longer one the
    result is the first [n] entries of the stable decreasing arrangement, so
    among equal values the earlier entry of the series comes first and is
    the one kept. *)
Definition nlargest (n : nat) (s : Series K) : Series K :=
  if (List.length s <=? n)%nat then firstn n (sort_values s)
  else firstn n (sort_desc s).
End NLargest.

(** *** DataFrame.to_csv(index=False)

    The text of one cell: a string as it is, a number and a timestamp as
    pandas prints them, a missing value as the empty string. *)
Fixpoint assoc (c : str) (l : list (str * str)) : option str :=
  match l with
  | [] => None
  | (k, v) :: l' => if str_eqb c k then Some v else assoc c l'
  end.

Definition text_of_str (cell : option str) : str :=
  match cell with Some s => s | None => [] end.

Definition text_of_float `{Library} (x : float) : str :=
  if is_nan x then [] else repr_float x.

Definition text_of_timestamp `{Library} (cell : option Timestamp) : str :=
  match cell with Some t => repr_timestamp t | None => [] end.

Definition cell_text `{Library} (r : Row) (c : str) : str :=
  if str_eqb c (lit "Order Date") then text_of_timestamp (Order_Date r)
  else if str_eqb c (lit "Ship Date") then text_of_timestamp (Ship_Date r)
  else if str_eqb c (lit "Region") then text_of_str (Region r)
  else if str_eqb c (lit "Category") then text_of_str (Category r)
  else if str_eqb c (lit "Sub-Category") then text_of_str (Sub_Category r)
  else if str_eqb c (lit "Product Name") then text_of_str (Product_Name r)
  else if str_eqb c (lit "Sales") then text_of_float (Sales r)
  else if str_eqb c (lit "Profit") then text_of_float (Profit r)
  else if str_eqb c (lit "Discount") then text_of_float (Discount r)
  else if str_eqb c (lit "ProfitMargin") then text_of_float (ProfitMargin r)
  else text_of_str (assoc c (other r)).

(** The writer is Python's [csv.writer] with the comma as delimiter, the
    double quote as quote character, doubled inner quotes, [QUOTE_MINIMAL] and line terminator [\n].  A field
    is quoted when it holds the delimiter, the quote character or a
    character of the line terminator; [quote_cr] says whether a carriage
    return is quoted as well (Python 3.13 and later do, earlier ones do
    not).  A record of one empty field is written as two quotes. *)
Definition comma : codepoint := 44%N.
Definition dquote : codepoint := 34%N.
Definition newline : codepoint := 10%N.
Definition carriage_return : codepoint := 13%N.

Section Writer.
Variable quote_cr : bool.

Definition special (c : codepoint) : bool :=
  (c =? comma)%N || (c =? dquote)%N || (c =? newline)%N
  || (quote_cr && (c =? carriage_return)%N).

Fixpoint escape (field : str) : str :=
  match field with
  | [] => []
  | c :: f' => if (c =? dquote)%N then dquote :: dquote :: escape f'
               else c :: escape f'
  end.

Definition quoted (field : str) : str := dquote :: escape field ++ [dquote].

Definition write_field (field : str) : str :=
  if existsb special field then quoted field else field.

Fixpoint join_fields (fields : list str) : str :=
  match fields with
  | [] => []
  | [f] => write_field f
  | f :: fs => write_field f ++ comma :: join_fields fs
  end.

Definition writerow (fields : list str) : str :=
  match fields with
  | [ [] ] => [dquote; dquote; newline]
  | _ => join_fields fields ++ [newline]
  end.

Definition writerows (records : list (list str)) : str :=
  List.concat (List.map writerow records).

(** The header record, then one record per row. *)
Definition to_csv `{Library} (df : DataFrame) : str :=
  writerows
    (columns df
     :: List.map (fun r => List.map (cell_text r) (columns df)) (rows df)).
End Writer.

(** Modelled from the spec: the decoder of the export.  The repository has
    only the writing side; the spec speaks of "decoding the delimited-text
    output".  This is a reader for the dialect the writer uses: fields are
    separated by commas, a field may be enclosed in double quotes with
    inner quotes doubled, a record ends at a line feed outside quotes, an
    empty line is skipped, and the first record holds the column labels. *)
Inductive ReaderState :=
| StartRecord | StartField | InField | InQuoted | AfterQuote.

(** The states in which a field begins. *)
Definition at_start (st : ReaderState) : Prop :=
  st = StartRecord \/ st = StartField.

Definition end_record (field : str) (record : list str) : list str :=
  rev (rev field :: record).

Fixpoint reader (st : ReaderState) (field : str) (record : list str)
  (input : str) : list (list str) :=
  match input with
  | [] =>
      match st with
      | StartRecord => []
      | _ => [end_record field record]
      end
  | c :: rest =>
      match st with
      | StartRecord =>
          if (c =? newline)%N then reader StartRecord [] [] rest
          else if (c =? dquote)%N then reader InQuoted [] record rest
          else if (c =? comma)%N then reader StartField [] ([] :: record) rest
          else reader InField [c] record rest
      | StartField =>
          if (c =? newline)%N
          then end_record [] record :: reader StartRecord [] [] rest
          else if (c =? dquote)%N then reader InQuoted [] record rest
          else if (c =? comma)%N then reader StartField [] ([] :: record) rest
          else reader InField [c] record rest
      | InField =>
          if (c =? newline)%N
          then end_record field record :: reader StartRecord [] [] rest
          else if (c =? comma)%N
          then reader StartField [] (rev field :: record) rest
          else reader InField (c :: field) record rest
      | InQuoted =>
          if (c =? dquote)%N then reader AfterQuote field record rest
          else reader InQuoted (c :: field) record rest
      | AfterQuote =>
          if (c =? dquote)%N then reader InQuoted (c :: field) record rest
          else if (c =? newline)%N
          then end_record field record :: reader StartRecord [] [] rest
          else if (c =? comma)%N
          then reader StartField [] (rev field :: record) rest
          else reader InField (c :: field) record rest
      end
  end.

Record Table := mkTable {
  labels : list str;
  records : list (list str)
}.

Definition read_text (text : str) : option Table :=
  match reader StartRecord [] [] text with
  | [] => None
  | header :: body => Some (mkTable header body)
  end.

(** Decoding the exported bytes: UTF-8 first, then the reader. *)
Definition decode_csv (data : bytes) : option Table :=
  match utf8_decode data with
  | Some text => read_text text
  | None => None
  end.

(** [df[c]]: [KeyError] when the label is missing. *)
Definition getitem {R} (df : Frame R) (c : string) : result unit :=
  if has_column df c then Ok tt else Raise (KeyError (lit c)).

(** The key of a row under [groupby([a, b])]: missing when either part is;
    pairs compare part by part. *)
Definition key2 {R} (a b : R -> option str) (r : R) : option (str * str) :=
  match a r, b r with
  | Some x, Some y => Some (x, y)
  | _, _ => None
  end.

Definition pair_eqb (p q : str * str) : bool :=
  str_eqb (fst p) (fst q) && str_eqb (snd p) (snd q).

Definition pair_ltb (p q : str * str) : bool :=
  str_ltb (fst p) (fst q) || (str_eqb (fst p) (fst q) && str_ltb (snd p) (snd q)).

End pd.

(* ================================================================== *)
(** ** src/scripts/app.py *)

Module ScriptsApp.
Import Py pd.

Section Script.
Context `{Library}.

(** Lines 17-20: the file is read as UTF-8 and, on [UnicodeDecodeError],
    read again as Latin-1.  The first component lists the encodings tried,
    in order. *)
Definition read_file (file : bytes) : list Encoding * result RawFrame :=
  match read_csv utf_8 file with
  | Raise UnicodeDecodeError => ([utf_8; latin_1], read_csv latin_1 file)
  | r => ([utf_8], r)
  end.

(** Lines 25-30 on one row, [cols] the stripped labels. *)
Definition load_row (cols : list str) (fmt_order fmt_ship : datetime_format)
  (r : RawRow) : Row :=
  {| Order_Date :=
       if str_in (lit "Order Date") cols
       then to_datetime_coerce fmt_order (raw_Order_Date r) else None;
     Ship_Date :=
       if str_in (lit "Ship Date") cols
       then to_datetime_coerce fmt_ship (raw_Ship_Date r) else None;
     Region := raw_Region r;
     Category := raw_Category r;
     Sub_Category := raw_Sub_Category r;
     Product_Name := raw_Product_Name r;
     Sales := raw_Sales r;
     Profit := raw_Profit r;
     Discount := raw_Discount r;
     ProfitMargin :=
       if str_in (lit "Profit") cols && str_in (lit "Sales") cols
       then (raw_Profit r / raw_Sales r)%float else nan;
     other := raw_other r |}.

(** The labels after line 30: [ProfitMargin] is appended when it is
    computed and not there yet. *)
Definition loaded_columns (cols : list str) : list str :=
  if str_in (lit "Profit") cols && str_in (lit "Sales") cols
     && negb (str_in (lit "ProfitMargin") cols)
  then cols ++ [lit "ProfitMargin"] else cols.

(** Lines 16-32. *)
Definition load_data (file : bytes) : result DataFrame :=
  df <- snd (read_file file);;
  let cols := List.map strip (columns df) in
  let fmt_order := guess_datetime_format (List.map raw_Order_Date (rows df)) in
  let fmt_ship := guess_datetime_format (List.map raw_Ship_Date (rows df)) in
  Ok (mkFrame (loaded_columns cols)
        (List.map (load_row cols fmt_order fmt_ship) (rows df))).

End Script.

(** The options offered by the three multiselect widgets (lines 41-43). *)
Definition regions (df : DataFrame) : list str :=
  if has_column df "Region" then unique (dropna (map Region (rows df))) else [].
Definition categories (df : DataFrame) : list str :=
  if has_column df "Category" then unique (dropna (map Category (rows df))) else [].
Definition sub_categories (df : DataFrame) : list str :=
  if has_column df "Sub-Category"
  then unique (dropna (map Sub_Category (rows df))) else [].

(** What the sidebar hands to the script: the three selections and the value
    of the date input, a tuple of zero to two dates (one while the user is
    half way through picking a range). *)
Record Sidebar := mkSidebar {
  selected_region : list str;
  selected_category : list str;
  selected_sub_category : list str;
  date_range : list date
}.

(** A multiselect returns some of its options. *)
Definition from_options (selected options : list str) : Prop :=
  forall s, In s selected -> In s options.

Definition sidebar_of (df : DataFrame) (sb : Sidebar) : Prop :=
  from_options (selected_region sb) (regions df) /\
  from_options (selected_category sb) (categories df) /\
  from_options (selected_sub_category sb) (sub_categories df).

(** Lines 49-51: the value of the date input before the user touches it,
    the dates of the smallest and largest order date. *)
Definition default_date_range (df : DataFrame) : list date :=
  match ts_min (map Order_Date (rows df)), ts_max (map Order_Date (rows df)) with
  | Some min_date, Some max_date => [min_date / ns_per_day; max_date / ns_per_day]
  | _, _ => []
  end.

(** Lines 58-63: the three categorical filters. *)
Definition filter_categories (df : DataFrame) (sb : Sidebar) : DataFrame :=
  let filtered_df := df in
  let filtered_df :=
    if has_column filtered_df "Region" && truthy (selected_region sb)
    then select filtered_df (fun r => isin (Region r) (selected_region sb))
    else filtered_df in
  let filtered_df :=
    if has_column filtered_df "Category" && truthy (selected_category sb)
    then select filtered_df (fun r => isin (Category r) (selected_category sb))
    else filtered_df in
  let filtered_df :=
    if has_column filtered_df "Sub-Category" && truthy (selected_sub_category sb)
    then select filtered_df
           (fun r => isin (Sub_Category r) (selected_sub_category sb))
    else filtered_df in
  filtered_df.

(** Lines 65-70: the date filter. *)
Definition filter_dates (filtered_df : DataFrame) (sb : Sidebar) : DataFrame :=
  if has_column filtered_df "Order Date"
     && (List.length (date_range sb) =? 2)%nat
  then
    match date_range sb with
    | [start_date; end_date] =>
        select filtered_df
          (fun r => ge_ts (Order_Date r) (to_datetime start_date)
                    && le_ts (Order_Date r) (to_datetime end_date))
    | _ => filtered_df
    end
  else filtered_df.

(** Lines 56-70. *)
Definition filtered_df (df : DataFrame) (sb : Sidebar) : DataFrame :=
  filter_dates (filter_categories df sb) sb.

(** Lines 108-109: the bars of the Top Products panel, [None] when the panel
    is skipped. *)
Definition top10 `{Library} (filtered_df : DataFrame) : option (Series str) :=
  if has_column filtered_df "Product Name" && has_column filtered_df "Sales"
  then Some (firstn 8
               (sort_values
                  (groupby_sum str_eqb str_ltb Product_Name Sales
                     (rows filtered_df))))
  else None.

(** Lines 136-137: the bars of the Top 10 chart; [Ok None] when the chart is
    skipped, [KeyError] when the view has product names and no sales. *)
Definition top_products `{Library} (filtered_df : DataFrame)
  : result (option (Series str)) :=
  if has_column filtered_df "Product Name" then
    _ <- getitem filtered_df "Sales";;
    Ok (Some (nlargest 10
                (groupby_sum str_eqb str_ltb Product_Name Sales
                   (rows filtered_df))))
  else Ok None.

(** Line 158. *)
Definition csv `{Library} (quote_cr : bool) (filtered_df : DataFrame)
  : result bytes :=
  match utf8_encode (to_csv quote_cr filtered_df) with
  | Some data => Ok data
  | None => Raise UnicodeEncodeError
  end.

(** Lines 45-51: the sidebar before the user touches it, every option
    selected and the date input at its default. *)
Definition default_sidebar (df : DataFrame) : Sidebar :=
  mkSidebar (regions df) (categories df) (sub_categories df)
    (default_date_range df).

(** Lines 122-123: the series of the Sales Over Time chart; [Ok None] when
    the chart is skipped. *)
Definition trend (filtered_df : DataFrame) : result (option (Series Timestamp)) :=
  if has_column filtered_df "Order Date" then
    _ <- getitem filtered_df "Sales";;
    Ok (Some (groupby_sum Z.eqb Z.ltb Order_Date Sales (rows filtered_df)))
  else Ok None.

(** Lines 129-130: the bars of the Sales by Region chart. *)
Definition region_sales (filtered_df : DataFrame) : result (option (Series str)) :=
  if has_column filtered_df "Region" then
    _ <- getitem filtered_df "Sales";;
    Ok (Some (groupby_sum str_eqb str_ltb Region Sales (rows filtered_df)))
  else Ok None.

(** Lines 144-145: the tiles of the profit treemap. *)
Definition cat_profit (filtered_df : DataFrame)
  : result (option (Series (str * str))) :=
  if has_column filtered_df "Category" && has_column filtered_df "Sub-Category"
  then
    _ <- getitem filtered_df "Profit";;
    Ok (Some (groupby_sum pair_eqb pair_ltb (key2 Category Sub_Category) Profit
                (rows filtered_df)))
  else Ok None.

End ScriptsApp.

(* ================================================================== *)
(** ** src/app.py *)

Module App.
Import Py pd.

(** [df[c]] raises [KeyError] when the label is missing. *)
Definition require_column {R} (df : Frame R) (c : string) : result unit :=
  if has_column df c then Ok tt else Raise (KeyError (lit c)).

Section Script.
Context `{Library}.

(** Line 19: the file is read as Latin-1. *)
Definition read_file (file : bytes) : list Encoding * result RawFrame :=
  ([latin_1], read_csv latin_1 file).

(** Lines 21-23 on one row. *)
Definition load_row (fmt_order fmt_ship : datetime_format) (r : RawRow) : Row :=
  {| Order_Date := to_datetime_coerce fmt_order (raw_Order_Date r);
     Ship_Date := to_datetime_coerce fmt_ship (raw_Ship_Date r);
     Region := raw_Region r;
     Category := raw_Category r;
     Sub_Category := raw_Sub_Category r;
     Product_Name := raw_Product_Name r;
     Sales := raw_Sales r;
     Profit := raw_Profit r;
     Discount := raw_Discount r;
     ProfitMargin := (raw_Profit r / raw_Sales r)%float;
     other := raw_other r |}.

Definition loaded_columns (cols : list str) : list str :=
  if str_in (lit "ProfitMargin") cols then cols else cols ++ [lit "ProfitMargin"].

(** Lines 18-24. *)
Definition load_data (file : bytes) : result DataFrame :=
  df <- snd (read_file file);;
  let df := mkFrame (List.map strip (columns df)) (rows df) in
  _ <- require_column df "Order Date";;
  _ <- require_column df "Ship Date";;
  _ <- require_column df "Profit";;
  _ <- require_column df "Sales";;
  let fmt_order := guess_datetime_format (List.map raw_Order_Date (rows df)) in
  let fmt_ship := guess_datetime_format (List.map raw_Ship_Date (rows df)) in
  Ok (mkFrame (loaded_columns (columns df))
        (List.map (load_row fmt_order fmt_ship) (rows df))).

End Script.

(** Line 38. *)
Definition filtered_df (df : DataFrame) (region category : list str)
  : result DataFrame :=
  _ <- require_column df "Region";;
  _ <- require_column df "Category";;
  Ok (select df (fun r => isin (Region r) region && isin (Category r) category)).

(** Line 67. *)
Definition top10 `{Library} (filtered_df : DataFrame) : result (Series str) :=
  _ <- require_column filtered_df "Product Name";;
  _ <- require_column filtered_df "Sales";;
  Ok (nlargest 10
        (groupby_sum str_eqb str_ltb Product_Name Sales (rows filtered_df))).

(** Lines 82-94.  What the forecast section does, in order: the model is
    fitted and the chart drawn, or the notice is shown. *)
Inductive Event :=
| fit (endog : list float)
| plotly_chart (actual : Series Timestamp)
    (forecast_dates : list Timestamp) (forecast : list float)
| info (msg : string).

(** Line 82. *)
Definition sales_ts (filtered_df : DataFrame) : Series Timestamp :=
  groupby_sum Z.eqb Z.ltb Order_Date Sales (rows filtered_df).

(** Line 87; [sales_ts] is not empty where this is evaluated. *)
Definition forecast_dates (sales_ts : Series Timestamp) : list Timestamp :=
  match ts_max (List.map (fun p => Some (fst p)) sales_ts) with
  | Some last => pd.date_range last 30
  | None => []
  end.

Definition forecast_section `{Library} (filtered_df : DataFrame)
  : result (list Event) :=
  _ <- require_column filtered_df "Order Date";;
  _ <- require_column filtered_df "Sales";;
  let sales_ts := sales_ts filtered_df in
  if (20 <? List.length sales_ts)%nat then
    let endog := List.map snd sales_ts in
    let forecast := holt_forecast endog 30 in
    Ok [fit endog; plotly_chart sales_ts (forecast_dates sales_ts) forecast]
  else Ok [info "Not enough data for forecast."].

(** The points of the forecast trace: the dates paired with the values. *)
Definition forecast_points (e : Event) : list (Timestamp * float) :=
  match e with
  | plotly_chart _ dates values => combine dates values
  | _ => []
  end.

(** Line 101. *)
Definition csv `{Library} (quote_cr : bool) (filtered_df : DataFrame)
  : result bytes :=
  match utf8_encode (to_csv quote_cr filtered_df) with
  | Some data => Ok data
  | None => Raise UnicodeEncodeError
  end.

(** Lines 32-33: the options of the two multiselect widgets. *)
Definition regions (df : DataFrame) : result (list str) :=
  _ <- require_column df "Region";;
  Ok (sorted (unique (dropna (List.map Region (rows df))))).

Definition categories (df : DataFrame) : result (list str) :=
  _ <- require_column df "Category";;
  Ok (sorted (unique (dropna (List.map Category (rows df))))).

(** Line 63: the bars of the Sales by Region chart. *)
Definition region_df (filtered_df : DataFrame) : result (Series str) :=
  _ <- require_column filtered_df "Region";;
  _ <- require_column filtered_df "Sales";;
  Ok (groupby_sum str_eqb str_ltb Region Sales (rows filtered_df)).

End App.

(* ================================================================== *)
(** ** The properties, in the words of the specification *)

Module Spec.
Import Py pd.

(** The cell holds a value and the value is in the inclusion list. *)
Definition member (cell : option str) (values : list str) : Prop :=
  exists s, cell = Some s /\ In s values.

(** The cell holds a date and the date lies in [[start_date, end_date]],
    both ends included. *)
Definition within (cell : option Timestamp) (start_date end_date : date) : Prop :=
  exists t, cell = Some t /\ to_datetime start_date <= t <= to_datetime end_date.

(** One row against one constraint of the FilterSpec of
    [src/scripts/app.py]; a constraint that is not active holds. *)
Definition keeps_region (df : DataFrame) (sb : ScriptsApp.Sidebar) (r : Row) : bool :=
  if has_column df "Region" && truthy (ScriptsApp.selected_region sb)
  then isin (Region r) (ScriptsApp.selected_region sb) else true.

Definition keeps_category (df : DataFrame) (sb : ScriptsApp.Sidebar) (r : Row) : bool :=
  if has_column df "Category" && truthy (ScriptsApp.selected_category sb)
  then isin (Category r) (ScriptsApp.selected_category sb) else true.

Definition keeps_sub_category (df : DataFrame) (sb : ScriptsApp.Sidebar) (r : Row)
  : bool :=
  if has_column df "Sub-Category" && truthy (ScriptsApp.selected_sub_category sb)
  then isin (Sub_Category r) (ScriptsApp.selected_sub_category sb) else true.

Definition keeps_date (df : DataFrame) (sb : ScriptsApp.Sidebar) (r : Row) : bool :=
  if has_column df "Order Date"
  then match ScriptsApp.date_range sb with
       | [start_date; end_date] =>
           ge_ts (Order_Date r) (to_datetime start_date)
           && le_ts (Order_Date r) (to_datetime end_date)
       | _ => true
       end
  else true.

(** One row against the whole FilterSpec: every constraint has to hold. *)
Definition keeps (df : DataFrame) (sb : ScriptsApp.Sidebar) (r : Row) : bool :=
  keeps_region df sb r && keeps_category df sb r
  && keeps_sub_category df sb r && keeps_date df sb r.

(** C2 as it is stated, read on [src/app.py]: an empty list of regions
    leaves every row in that passes the category list. *)
Definition empty_region_list_is_no_constraint (df : DataFrame)
  (category : list str) : Prop :=
  forall fv, App.filtered_df df [] category = Ok fv ->
  forall r, In r (rows df) -> member (Category r) category -> In r (rows fv).

(** The distinct order dates of a view. *)
Definition distinct_dates (df : DataFrame) : list Timestamp :=
  nodup Z.eq_dec (dropna (List.map Order_Date (rows df))).

(** C3 as it is stated, on the dates of a forecast: they begin on the day
    after the last observed date. *)
Definition begins_the_day_after (last : Timestamp) (forecast_dates : list Timestamp)
  : Prop :=
  hd_error forecast_dates = Some (last + ns_per_day).

(** The rows of one key, and the float64 sum of their values as pandas
    accumulates the sum of a group: in row order, [NaN] skipped, the
    rounding error of every addition carried into the next one. *)
Definition has_key {K R} (eqb : K -> K -> bool) (key : R -> option K) (k : K)
  (r : R) : bool :=
  match key r with
  | Some k' => eqb k k'
  | None => false
  end.

Fixpoint compensated (sumx c : float) (l : list float) : float :=
  match l with
  | [] => sumx
  | v :: l' =>
      if is_nan v then compensated sumx c l'
      else
        let y := (v - c)%float in
        let t := (sumx + y)%float in
        let c' := (t - sumx - y)%float in
        compensated t (if is_nan c' then 0%float else c') l'
  end.

Definition summed {K R} (eqb : K -> K -> bool) (key : R -> option K)
  (val : R -> float) (k : K) (l : list R) : float :=
  compensated 0 0 (List.map val (filter (has_key eqb key k) l)).

(** A text Python can encode as UTF-8: every code point a Unicode scalar
    value, as the codecs of the Loader deliver them. *)
Definition scalar (c : codepoint) : bool :=
  (c <=? 1114111)%N && negb (is_surrogate c).

Definition encodable (text : str) : Prop := forallb scalar text = true.

(** The cells of a view as the export writes them. *)
Definition cells `{Library} (df : DataFrame) : list (list str) :=
  List.map (fun r => List.map (cell_text r) (columns df)) (rows df).

(** One entry of a series comes no later than another in decreasing order
    of value, a [NaN] after every number; two entries tie when each comes no
    later than the other. *)
Definition before {K} (a b : K * float) : Prop :=
  is_nan (snd b) = true \/ (snd b <=? snd a)%float = true.

Definition tie {K} (a b : K * float) : Prop := before a b /\ before b a.

(** The products of a view, each once, and its product groups: a product of
    the view with the sum of the sales of its rows. *)
Definition products (df : DataFrame) : list str :=
  nodup (list_eq_dec N.eq_dec) (dropna (List.map Product_Name (rows df))).

Definition product_group (df : DataFrame) (g : str * float) : Prop :=
  In (fst g) (products df)
  /\ snd g = summed str_eqb Product_Name Sales (fst g) (rows df).

(** The grouped series the Top-N selection receives: the product groups in
    ascending order of product name. *)
Definition product_groups (df : DataFrame) : Series str :=
  groupby_sum str_eqb str_ltb Product_Name Sales (rows df).

(** Of two entries that tie, the first has the smaller product name. *)
Definition tie_by_name (a b : str * float) : Prop :=
  tie a b -> str_ltb (fst a) (fst b) = true.

(** What a Top-N selection has to return: product groups of the view, no
    product twice, [n] of them or all there are, in decreasing order of
    summed sales, no group left out with a larger sum than a group returned,
    and every group when the view has no more than [n] products. *)
Definition top_n (df : DataFrame) (n : nat) (top : Series str) : Prop :=
  (forall g, In g top -> product_group df g)
  /\ NoDup (List.map fst top)
  /\ List.length top = Nat.min n (List.length (products df))
  /\ StronglySorted before top
  /\ (forall g, product_group df g -> ~ In g top ->
        forall a, In a top -> before a g)
  /\ ((List.length (products df) <= n)%nat ->
      forall g, product_group df g -> In g top).

(** Groups that tie stand in ascending order of product name, and of such
    groups the ones with the smaller names are the ones returned. *)
Definition ties_by_name (df : DataFrame) (top : Series str) : Prop :=
  StronglySorted tie_by_name top
  /\ (forall g, product_group df g -> ~ In g top ->
        forall a, In a top -> tie_by_name a g).

(** C7 as it is stated: of two entries that tie, the first is the product
    the view meets first.  [first_row] is the position of the first row of a
    product in the view. *)
Fixpoint first_row (name : str) (l : list Row) : nat :=
  match l with
  | [] => 0
  | r :: l' => if isin (Product_Name r) [name] then 0 else S (first_row name l')
  end.

Definition tie_by_view (df : DataFrame) (a b : str * float) : Prop :=
  tie a b -> (first_row (fst a) (rows df) < first_row (fst b) (rows df))%nat.

Definition ties_in_view_order (df : DataFrame) (top : Series str) : Prop :=
  StronglySorted (tie_by_view df) top.

(** C6 as it is stated, on one loaded row: no sales, so the margin is the
    missing value. *)
Definition margin_missing_without_sales (r : Row) : Prop :=
  is_zero (Sales r) = true -> is_nan (ProfitMargin r) = true.

(** C8 as it is stated, on one run of a loader: UTF-8 is what is tried
    first. *)
Definition utf8_tried_first (tried : list Encoding) : Prop :=
  hd_error tried = Some utf_8.

(** C10 as it is stated: with the column there, no row without an order date
    is in the view. *)
Definition undated_rows_excluded (df : DataFrame) (sb : ScriptsApp.Sidebar)
  : Prop :=
  has_column df "Order Date" = true ->
  forall r, Order_Date r = None -> ~ In r (rows (ScriptsApp.filtered_df df sb)).

(** A label without white space at either end. *)
Definition trimmed (s : str) : Prop := lstrip s = s /\ lstrip (rev s) = rev s.

(** The labels [src/app.py] looks up while loading. *)
Definition required : list string :=
  ["Order Date"; "Ship Date"; "Profit"; "Sales"]%string.

(** A file of ASCII bytes only. *)
Definition ascii_only (file : bytes) : Prop :=
  forallb (fun b => (Byte.to_N b <? 128)%N) file = true.

(** The line feeds of a text. *)
Definition line_feeds (text : str) : nat := count_occ N.eq_dec text newline.

(** The line feeds inside the labels and the cells of a view. *)
Definition embedded_line_feeds `{Library} (df : DataFrame) : nat :=
  list_sum (List.map line_feeds (List.concat (columns df :: cells df))).

End Spec.

(* ================================================================== *)
(** ** Sample data *)

Module Sample.
Import Py pd.

Definition day (d : Z) : option Timestamp := Some (to_datetime d).

Definition row (order_date : option Timestamp) (region category product : string)
  (sales profit : float) : Row :=
  {| Order_Date := order_date; Ship_Date := order_date;
     Region := Some (lit region); Category := Some (lit category);
     Sub_Category := Some (lit "Chairs"); Product_Name := Some (lit product);
     Sales := sales; Profit := profit; Discount := 0%float;
     ProfitMargin := (profit / sales)%float; other := [] |}.

Definition labels : list str :=
  List.map lit ["Order Date"; "Ship Date"; "Region"; "Category"; "Sub-Category";
                "Product Name"; "Sales"; "Profit"; "Discount"; "ProfitMargin"]%string.

Definition west := row (day 10) "West" "Furniture" "Desk" 100%float 20%float.
Definition east := row (day 20) "East" "Technology" "Phone" 50%float 5%float.
Definition undated := row None "West" "Furniture" "Lamp" 30%float 3%float.

Definition df : DataFrame := mkFrame labels [west; east; undated].

(** Everything selected, the date input at a complete range. *)
Definition sidebar : ScriptsApp.Sidebar :=
  ScriptsApp.mkSidebar [lit "West"] [lit "Furniture"] [] [5; 15].

(** The date input while only the first date of a new range is picked. *)
Definition sidebar_half_range : ScriptsApp.Sidebar :=
  ScriptsApp.mkSidebar [lit "West"; lit "East"]
    [lit "Furniture"; lit "Technology"] [lit "Chairs"] [5].

(** A small stand-in for the library: the tokenizer reads the labels off
    the first line and returns two fixed rows, a date is a day number in
    decimal digits, the forecast repeats the last value, the sort moves
    nothing before it orders the values. *)
Definition raw (order_date : string) (sales profit : float) : RawRow :=
  {| raw_Order_Date := Some (lit order_date); raw_Ship_Date := Some (lit order_date);
     raw_Region := Some (lit "West"); raw_Category := Some (lit "Furniture");
     raw_Sub_Category := Some (lit "Chairs"); raw_Product_Name := Some (lit "Desk");
     raw_Sales := sales; raw_Profit := profit; raw_Discount := 0%float;
     raw_other := [] |}.

Definition digit (c : codepoint) : option Z :=
  if ((48 <=? c) && (c <=? 57))%N then Some (Z.of_N c - 48) else None.

Fixpoint day_number (acc : Z) (s : str) : option Z :=
  match s with
  | [] => Some acc
  | c :: s' =>
      match digit c with
      | Some d => day_number (10 * acc + d) s'
      | None => None
      end
  end.

#[local] Instance library : Library := {|
  parse_table text :=
    match reader StartRecord [] [] text with
    | header :: _ =>
        inl (mkFrame header [raw "10" 100%float 20%float; raw "n/a" 0%float 5%float])
    | [] => inr (lit "No columns to parse from file")
    end;
  datetime_format := unit;
  guess_datetime_format _ := tt;
  strptime _ s :=
    match s with
    | [] => None
    | _ => option_map to_datetime (day_number 0 s)
    end;
  holt_forecast y n := repeat (last y 0%float) n;
  quicksort_moves _ := [];
  repr_float _ := lit "1.5";
  repr_timestamp _ := lit "2020-01-01"
|}.

Definition ascii_bytes (s : string) : bytes :=
  List.map byte_of_ascii (list_ascii_of_string s).

(** A file with the labels the scripts need, and the two bytes of a UTF-8
    e-acute on their own. *)
Definition file : bytes :=
  ascii_bytes "Order Date, Ship Date,Region,Category,Product Name,Sales,Profit".

Definition e_acute : bytes := [Byte.xc3; Byte.xa9].

(** A view with one sale on each of the days [0 .. n-1]. *)
Definition daily (n : nat) : DataFrame :=
  mkFrame labels
    (List.map (fun i => row (day (Z.of_nat i)) "West" "Furniture" "Desk"
                            1%float 0%float)
       (seq 0 n)).

(** A view in which two products tie: the row of [B] comes before the row
    of [A]. *)
Definition tie : DataFrame :=
  mkFrame labels
    [row (day 1) "West" "Furniture" "B" 5%float 0%float;
     row (day 2) "West" "Furniture" "A" 5%float 0%float;
     row (day 3) "West" "Furniture" "C" 7%float 0%float;
     row (day 4) "West" "Furniture" "A" 0%float 0%float].

(** A view of eleven products with equal sales, the rows in descending
    order of product name: [K] first, [A] last. *)
Definition reversed : DataFrame :=
  mkFrame labels
    (List.map (fun p => row (day 1) "West" "Furniture" p 5%float 0%float)
       ["K"; "J"; "I"; "H"; "G"; "F"; "E"; "D"; "C"; "B"; "A"]%string).

Definition reversed_top : Series str :=
  List.map (fun p => (lit p, 5%float))
    ["A"; "B"; "C"; "D"; "E"; "F"; "G"; "H"; "I"; "J"]%string.

(** A library whose sort exchanges the first two entries before it orders
    the values. *)
Definition exchanging (lib : Library) : Library :=
  {| parse_table := @parse_table lib;
     datetime_format := @datetime_format lib;
     guess_datetime_format := @guess_datetime_format lib;
     strptime := @strptime lib;
     holt_forecast := @holt_forecast lib;
     quicksort_moves _ := [1%nat];
     repr_float := @repr_float lib;
     repr_timestamp := @repr_timestamp lib |}.

(** A view whose product name holds a comma, a double quote, a carriage
    return and a line feed, and whose region is missing. *)
Definition awkward : DataFrame :=
  mkFrame labels
    [{| Order_Date := day 1; Ship_Date := None;
        Region := None; Category := Some (lit "Furniture");
        Sub_Category := Some [];
        Product_Name := Some [97; 44; 34; 13; 10; 98]%N;
        Sales := 1%float; Profit := nan; Discount := 0%float;
        ProfitMargin := nan; other := [] |};
     west].

(** The two scripts over the stand-in library. *)
Definition scripts_csv := @ScriptsApp.csv library.
Definition cells := @Spec.cells library.
Definition app_forecast_section := @App.forecast_section library.

Definition scripts_load_data := @ScriptsApp.load_data library.
Definition app_load_data := @App.load_data library.
Definition app_read_file := @App.read_file library.
Definition parse := @parse_text library.

(** The file as [src/scripts/app.py] and as [src/app.py] load it. *)
Definition loaded : DataFrame :=
  match ScriptsApp.load_data file with
  | Ok df => df
  | Raise _ => mkFrame [] []
  end.

Definition app_loaded : DataFrame :=
  match App.load_data file with
  | Ok df => df
  | Raise _ => mkFrame [] []
  end.

Definition no_sales : Row :=
  {| Order_Date := None; Ship_Date := None;
     Region := Some (lit "West"); Category := Some (lit "Furniture");
     Sub_Category := Some (lit "Chairs"); Product_Name := Some (lit "Desk");
     Sales := 0%float; Profit := 5%float; Discount := 0%float;
     ProfitMargin := infinity; other := [] |}.

End Sample.

(* ================================================================== *)
(** ** Strings and cells *)

Import Py pd.

Lemma str_eqb_eq (a b : str) : str_eqb a b = true <-> a = b.
Proof.
  revert b; induction a as [|x a IH]; intros [|y b]; simpl;
    try (split; [discriminate | congruence]); try tauto.
  rewrite andb_true_iff, N.eqb_eq, IH. split.
  - intros [-> ->]; reflexivity.
  - intros E; injection E; auto.
Qed.

Lemma str_in_In (x : str) (xs : list str) : str_in x xs = true <-> In x xs.
Proof.
  unfold str_in. rewrite existsb_exists. split.
  - intros [y [Hy E]]. apply str_eqb_eq in E. subst; assumption.
  - intros Hx. exists x. split; [assumption | apply str_eqb_eq; reflexivity].
Qed.

Lemma isin_member (cell : option str) (values : list str) :
  isin cell values = true <-> Spec.member cell values.
Proof.
  unfold isin, Spec.member. destruct cell as [s|].
  - rewrite str_in_In. split.
    + intros Hs. exists s. auto.
    + intros [s' [E Hs]]. injection E as ->. assumption.
  - split; [discriminate | intros [s [E _]]; discriminate].
Qed.

Lemma between_within (cell : option Timestamp) (start_date end_date : date) :
  ge_ts cell (to_datetime start_date) && le_ts cell (to_datetime end_date) = true
  <-> Spec.within cell start_date end_date.
Proof.
  unfold ge_ts, le_ts, Spec.within. destruct cell as [t|].
  - rewrite andb_true_iff, !Z.leb_le. split.
    + intros Ht. exists t. auto.
    + intros [t' [E Ht]]. injection E as ->. assumption.
  - split; [discriminate | intros [t [E _]]; discriminate].
Qed.

Lemma truthy_nonempty {A} (l : list A) : truthy l = true <-> l <> [].
Proof. destruct l; simpl; split; congruence. Qed.

Lemma filter_filter {A} (f g : A -> bool) (l : list A) :
  filter g (filter f l) = filter (fun x => f x && g x) l.
Proof.
  induction l as [|x l IH]; simpl; [reflexivity|].
  destruct (f x); simpl; [destruct (g x)|]; rewrite IH; reflexivity.
Qed.

Lemma filter_all {A} (l : list A) : filter (fun _ => true) l = l.
Proof. induction l as [|x l IH]; simpl; congruence. Qed.

Lemma filter_incl {A} (f : A -> bool) (l : list A) : incl (filter f l) l.
Proof. intros x Hx. apply filter_In in Hx. tauto. Qed.

(* ================================================================== *)
(** ** The Filter Engine *)

Ltac mask_cases :=
  repeat match goal with
         | |- context [isin ?c ?v] => destruct (isin c v)
         | |- context [ge_ts ?c ?t] => destruct (ge_ts c t)
         | |- context [le_ts ?c ?t] => destruct (le_ts c t)
         | |- context [if ?b then _ else _] => destruct b
         end;
  reflexivity.

Lemma filter_categories_columns df sb :
  columns (ScriptsApp.filter_categories df sb) = columns df.
Proof.
  unfold ScriptsApp.filter_categories.
  repeat match goal with
         | |- context [if ?b then _ else _] => destruct b
         end; reflexivity.
Qed.

Lemma has_column_columns {R} (a b : Frame R) c :
  columns a = columns b -> has_column a c = has_column b c.
Proof. unfold has_column. intros ->. reflexivity. Qed.

(** The script's chain of selections keeps exactly the rows that pass every
    active constraint. *)
Lemma filtered_df_rows df sb :
  rows (ScriptsApp.filtered_df df sb) = filter (Spec.keeps df sb) (rows df).
Proof.
  unfold ScriptsApp.filtered_df, ScriptsApp.filter_dates.
  rewrite (has_column_columns _ df _ (filter_categories_columns df sb)).
  assert (Hcat : rows (ScriptsApp.filter_categories df sb)
                 = filter (fun r =>
                     (if has_column df "Region" && truthy (ScriptsApp.selected_region sb)
                      then isin (Region r) (ScriptsApp.selected_region sb) else true)
                     && (if has_column df "Category"
                            && truthy (ScriptsApp.selected_category sb)
                         then isin (Category r) (ScriptsApp.selected_category sb)
                         else true)
                     && (if has_column df "Sub-Category"
                            && truthy (ScriptsApp.selected_sub_category sb)
                         then isin (Sub_Category r)
                                (ScriptsApp.selected_sub_category sb)
                         else true)) (rows df)).
  { unfold ScriptsApp.filter_categories, has_column, select; simpl.
    destruct (str_in (lit "Region") (columns df)
              && truthy (ScriptsApp.selected_region sb)); simpl;
    destruct (str_in (lit "Category") (columns df)
              && truthy (ScriptsApp.selected_category sb)); simpl;
    destruct (str_in (lit "Sub-Category") (columns df)
              && truthy (ScriptsApp.selected_sub_category sb)); simpl;
    rewrite ?filter_filter; try reflexivity;
    try (symmetry; apply filter_all);
    apply filter_ext; intros r; mask_cases. }
  unfold Spec.keeps, Spec.keeps_region, Spec.keeps_category,
    Spec.keeps_sub_category, Spec.keeps_date.
  destruct (has_column df "Order Date"); simpl.
  - destruct (ScriptsApp.date_range sb) as [|s [|e [|x l]]]; simpl;
      rewrite Hcat; try rewrite filter_filter;
      apply filter_ext; intros r; mask_cases.
  - rewrite Hcat. apply filter_ext; intros r; mask_cases.
Qed.

Lemma filtered_df_columns df sb :
  columns (ScriptsApp.filtered_df df sb) = columns df.
Proof.
  unfold ScriptsApp.filtered_df, ScriptsApp.filter_dates.
  destruct (_ && _); [destruct (ScriptsApp.date_range sb) as [|s [|e [|x l]]]|];
    simpl; apply filter_categories_columns.
Qed.

(** A selection made in a multiselect whose column is missing is empty. *)
Lemma from_options_column (selected : list str) (present : bool) (options : list str) :
  ScriptsApp.from_options selected (if present then options else []) ->
  selected <> [] -> present = true.
Proof.
  intros Hsel Hne. destruct present; [reflexivity|].
  destruct selected as [|s l]; [congruence|].
  destruct (Hsel s (or_introl eq_refl)).
Qed.

Lemma in_filtered_df df sb r :
  In r (rows (ScriptsApp.filtered_df df sb))
  <-> In r (rows df) /\ Spec.keeps df sb r = true.
Proof. rewrite filtered_df_rows. apply filter_In. Qed.

Lemma keeps_split df sb r :
  Spec.keeps df sb r = true
  <-> Spec.keeps_region df sb r = true /\ Spec.keeps_category df sb r = true
      /\ Spec.keeps_sub_category df sb r = true /\ Spec.keeps_date df sb r = true.
Proof. unfold Spec.keeps. rewrite !andb_true_iff. tauto. Qed.

Lemma app_filtered_df_rows df region category fv :
  App.filtered_df df region category = Ok fv ->
  rows fv = filter (fun r => isin (Region r) region && isin (Category r) category)
              (rows df).
Proof.
  unfold App.filtered_df, App.require_column, bind.
  destruct (has_column df "Region"); [|discriminate].
  destruct (has_column df "Category"); [|discriminate].
  intros E. injection E as <-. reflexivity.
Qed.

(** C1. For every Dataset and every FilterSpec the FilteredView is a subset
    of the Dataset's rows (the rows that pass, in their order), and every
    retained row satisfies all the active constraints at once: it is a member
    of each non-empty inclusion list and, when the date interval is active,
    its order date lies in the interval.  First the four filters of
    [src/scripts/app.py], then the two of [src/app.py]. *)
Theorem filtered_view_satisfies_every_constraint
  (df : DataFrame) (sb : ScriptsApp.Sidebar) (region category : list str) :
  ScriptsApp.sidebar_of df sb ->
  (rows (ScriptsApp.filtered_df df sb) = filter (Spec.keeps df sb) (rows df) /\
   incl (rows (ScriptsApp.filtered_df df sb)) (rows df) /\
   forall r, In r (rows (ScriptsApp.filtered_df df sb)) ->
     (ScriptsApp.selected_region sb <> [] ->
      Spec.member (Region r) (ScriptsApp.selected_region sb)) /\
     (ScriptsApp.selected_category sb <> [] ->
      Spec.member (Category r) (ScriptsApp.selected_category sb)) /\
     (ScriptsApp.selected_sub_category sb <> [] ->
      Spec.member (Sub_Category r) (ScriptsApp.selected_sub_category sb)) /\
     (forall start_date end_date,
        has_column df "Order Date" = true ->
        ScriptsApp.date_range sb = [start_date; end_date] ->
        Spec.within (Order_Date r) start_date end_date))
  /\
  (forall fv, App.filtered_df df region category = Ok fv ->
     incl (rows fv) (rows df) /\
     forall r, In r (rows fv) ->
       Spec.member (Region r) region /\ Spec.member (Category r) category).
Proof.
  intros (Hreg & Hcat & Hsub). split; [split; [|split]|].
  - apply filtered_df_rows.
  - rewrite filtered_df_rows. apply filter_incl.
  - intros r Hr. apply in_filtered_df in Hr. destruct Hr as [_ Hk].
    apply keeps_split in Hk. destruct Hk as (Kr & Kc & Ks & Kd).
    repeat split.
    + intros Hne. apply isin_member.
      unfold Spec.keeps_region in Kr.
      rewrite (from_options_column _ _ _ Hreg Hne) in Kr.
      apply truthy_nonempty in Hne. rewrite Hne in Kr. exact Kr.
    + intros Hne. apply isin_member.
      unfold Spec.keeps_category in Kc.
      rewrite (from_options_column _ _ _ Hcat Hne) in Kc.
      apply truthy_nonempty in Hne. rewrite Hne in Kc. exact Kc.
    + intros Hne. apply isin_member.
      unfold Spec.keeps_sub_category in Ks.
      rewrite (from_options_column _ _ _ Hsub Hne) in Ks.
      apply truthy_nonempty in Hne. rewrite Hne in Ks. exact Ks.
    + intros s e Hcol Hrange. apply between_within.
      unfold Spec.keeps_date in Kd. rewrite Hcol, Hrange in Kd. exact Kd.
  - intros fv Hfv. rewrite (app_filtered_df_rows _ _ _ _ Hfv). split.
    + apply filter_incl.
    + intros r Hr. apply filter_In in Hr. destruct Hr as [_ Hm].
      apply andb_true_iff in Hm. rewrite <- !isin_member. exact Hm.
Qed.

Lemma sample_sidebar_of : ScriptsApp.sidebar_of Sample.df Sample.sidebar.
Proof.
  repeat split; intros s Hs; vm_compute in Hs |- *;
    repeat (destruct Hs as [Hs|Hs]; [subst; auto|]); contradiction.
Qed.

Lemma filtered_view_satisfies_every_constraint_witness :
  ScriptsApp.sidebar_of Sample.df Sample.sidebar
  /\ incl (rows (ScriptsApp.filtered_df Sample.df Sample.sidebar)) (rows Sample.df)
  /\ rows (ScriptsApp.filtered_df Sample.df Sample.sidebar) = [Sample.west].
Proof.
  split; [exact sample_sidebar_of | split].
  - exact (proj1 (proj2 (proj1 (filtered_view_satisfies_every_constraint
             Sample.df Sample.sidebar [lit "West"] [lit "Furniture"]
             sample_sidebar_of)))).
  - reflexivity.
Defined.

(** In [src/app.py] an empty list selects nothing. *)
Lemma isin_nil (cell : option str) : isin cell [] = false.
Proof. destruct cell; reflexivity. Qed.

Lemma filter_none {A} (f : A -> bool) (l : list A) :
  (forall x, f x = false) -> filter f l = [].
Proof.
  intros Hf. induction l as [|x l IH]; simpl; [reflexivity|].
  rewrite Hf. exact IH.
Qed.

(** C2, as stated, fails on [src/app.py]: with no region selected the sample
    row [west] passes the category list and the view is empty. *)
Lemma empty_region_list_counterexample :
  App.filtered_df Sample.df [] [lit "Furniture"; lit "Technology"]
  = Ok (mkFrame Sample.labels [])
  /\ In Sample.west (rows Sample.df)
  /\ Spec.member (Category Sample.west) [lit "Furniture"; lit "Technology"]
  /\ ~ Spec.empty_region_list_is_no_constraint Sample.df
         [lit "Furniture"; lit "Technology"].
Proof.
  assert (Hin : In Sample.west (rows Sample.df)) by (left; reflexivity).
  assert (Hm : Spec.member (Category Sample.west)
                 [lit "Furniture"; lit "Technology"]).
  { exists (lit "Furniture"). split; [reflexivity | left; reflexivity]. }
  repeat split; try assumption.
  intros Hclaim.
  exact (Hclaim (mkFrame Sample.labels []) eq_refl Sample.west Hin Hm).
Qed.

(** C2, amended.  In [src/scripts/app.py] a categorical dimension whose
    inclusion list is empty, or whose column is absent, imposes no constraint:
    a row of the Dataset is retained exactly when it passes the other three
    filters, whatever its value in that dimension.  In [src/app.py] an empty
    list of regions or of categories retains no row at all. *)
Theorem empty_inclusion_list
  (df : DataFrame) (sb : ScriptsApp.Sidebar) (region category : list str) :
  (forall r, In r (rows df) ->
     (ScriptsApp.selected_region sb = [] \/ has_column df "Region" = false ->
      (In r (rows (ScriptsApp.filtered_df df sb))
       <-> Spec.keeps_category df sb r = true
           /\ Spec.keeps_sub_category df sb r = true
           /\ Spec.keeps_date df sb r = true)) /\
     (ScriptsApp.selected_category sb = [] \/ has_column df "Category" = false ->
      (In r (rows (ScriptsApp.filtered_df df sb))
       <-> Spec.keeps_region df sb r = true
           /\ Spec.keeps_sub_category df sb r = true
           /\ Spec.keeps_date df sb r = true)) /\
     (ScriptsApp.selected_sub_category sb = []
      \/ has_column df "Sub-Category" = false ->
      (In r (rows (ScriptsApp.filtered_df df sb))
       <-> Spec.keeps_region df sb r = true
           /\ Spec.keeps_category df sb r = true
           /\ Spec.keeps_date df sb r = true)))
  /\
  (forall fv, App.filtered_df df region category = Ok fv ->
     region = [] \/ category = [] -> rows fv = []).
Proof.
  split.
  - intros r Hr. split; [|split]; intros Hoff;
      rewrite in_filtered_df, keeps_split.
    + assert (Spec.keeps_region df sb r = true) as ->; [|tauto].
      unfold Spec.keeps_region. destruct Hoff as [-> | ->];
        rewrite ?andb_false_r; reflexivity.
    + assert (Spec.keeps_category df sb r = true) as ->; [|tauto].
      unfold Spec.keeps_category. destruct Hoff as [-> | ->];
        rewrite ?andb_false_r; reflexivity.
    + assert (Spec.keeps_sub_category df sb r = true) as ->; [|tauto].
      unfold Spec.keeps_sub_category. destruct Hoff as [-> | ->];
        rewrite ?andb_false_r; reflexivity.
  - intros fv Hfv Hempty. rewrite (app_filtered_df_rows _ _ _ _ Hfv).
    apply filter_none. intros r.
    destruct Hempty as [-> | ->]; rewrite isin_nil, ?andb_false_r; reflexivity.
Qed.

Lemma empty_inclusion_list_witness :
  In Sample.east (rows Sample.df) /\
  (In Sample.east
     (rows (ScriptsApp.filtered_df Sample.df
              (ScriptsApp.mkSidebar [] [lit "Technology"] [] [])))
   <-> Spec.keeps_category Sample.df
         (ScriptsApp.mkSidebar [] [lit "Technology"] [] []) Sample.east = true
       /\ Spec.keeps_sub_category Sample.df
            (ScriptsApp.mkSidebar [] [lit "Technology"] [] []) Sample.east = true
       /\ Spec.keeps_date Sample.df
            (ScriptsApp.mkSidebar [] [lit "Technology"] [] []) Sample.east = true).
Proof.
  assert (Hin : In Sample.east (rows Sample.df)) by (right; left; reflexivity).
  split; [exact Hin|].
  exact (proj1 (proj1 (empty_inclusion_list Sample.df
                         (ScriptsApp.mkSidebar [] [lit "Technology"] [] [])
                         [] []) Sample.east Hin)
           (or_introl eq_refl)).
Defined.

Lemma in_date_filtered df sb start_date end_date :
  has_column df "Order Date" = true ->
  ScriptsApp.date_range sb = [start_date; end_date] ->
  forall r, In r (rows (ScriptsApp.filtered_df df sb))
            <-> In r (rows (ScriptsApp.filter_categories df sb))
                /\ Spec.within (Order_Date r) start_date end_date.
Proof.
  intros Hcol Hrange r. unfold ScriptsApp.filtered_df, ScriptsApp.filter_dates.
  rewrite (has_column_columns _ df _ (filter_categories_columns df sb)).
  rewrite Hcol, Hrange. simpl. rewrite filter_In, between_within. tauto.
Qed.

Lemma undated_not_filtered df sb start_date end_date :
  has_column df "Order Date" = true ->
  ScriptsApp.date_range sb = [start_date; end_date] ->
  forall r, Order_Date r = None -> ~ In r (rows (ScriptsApp.filtered_df df sb)).
Proof.
  intros Hcol Hrange r Hnat Hr.
  apply (in_date_filtered _ _ _ _ Hcol Hrange) in Hr.
  destruct Hr as [_ [t [E _]]]. congruence.
Qed.

(** C5. Whenever the date interval [[start_date, end_date]] is active, the
    view is the rows left by the categorical filters whose order date lies in
    the interval, both ends included; a row whose order date is [NaT] is never
    in it.  The comparison is the script's: the order date against midnight of
    [start_date] and midnight of [end_date]. *)
Theorem date_interval_inclusive
  (df : DataFrame) (sb : ScriptsApp.Sidebar) (start_date end_date : date) :
  has_column df "Order Date" = true ->
  ScriptsApp.date_range sb = [start_date; end_date] ->
  (forall r, In r (rows (ScriptsApp.filtered_df df sb))
             <-> In r (rows (ScriptsApp.filter_categories df sb))
                 /\ Spec.within (Order_Date r) start_date end_date) /\
  (forall r d, In r (rows (ScriptsApp.filter_categories df sb)) ->
               Order_Date r = Some (to_datetime d) ->
               (In r (rows (ScriptsApp.filtered_df df sb))
                <-> start_date <= d <= end_date)) /\
  (forall r, Order_Date r = None ->
             ~ In r (rows (ScriptsApp.filtered_df df sb))).
Proof.
  intros Hcol Hrange.
  pose proof (in_date_filtered df sb start_date end_date Hcol Hrange) as Hiff.
  split; [exact Hiff | split].
  - intros r d Hr Hd. rewrite Hiff. unfold Spec.within. rewrite Hd. split.
    + intros [_ [t [E Ht]]]. injection E as <-.
      unfold to_datetime, ns_per_day in Ht. lia.
    + intros Hd'. split; [exact Hr|]. exists (to_datetime d).
      split; [reflexivity|]. unfold to_datetime, ns_per_day. lia.
  - exact (undated_not_filtered df sb start_date end_date Hcol Hrange).
Qed.

Lemma date_interval_inclusive_witness :
  has_column Sample.df "Order Date" = true /\
  ScriptsApp.date_range (ScriptsApp.mkSidebar [] [] [] [10; 20]) = [10; 20] /\
  rows (ScriptsApp.filtered_df Sample.df (ScriptsApp.mkSidebar [] [] [] [10; 20]))
  = [Sample.west; Sample.east] /\
  ~ In Sample.undated
      (rows (ScriptsApp.filtered_df Sample.df
               (ScriptsApp.mkSidebar [] [] [] [10; 20]))).
Proof.
  split; [reflexivity | split; [reflexivity | split; [reflexivity|]]].
  exact (proj2 (proj2 (date_interval_inclusive Sample.df
                         (ScriptsApp.mkSidebar [] [] [] [10; 20]) 10 20
                         eq_refl eq_refl))
           Sample.undated eq_refl).
Defined.

(* ================================================================== *)
(** ** The Loader *)

Lemma scripts_load_data_rows `{Library} file df :
  ScriptsApp.load_data file = Ok df ->
  exists raw cols fo fs,
    snd (ScriptsApp.read_file file) = Ok raw
    /\ cols = List.map strip (columns raw)
    /\ columns df = ScriptsApp.loaded_columns cols
    /\ rows df = List.map (ScriptsApp.load_row cols fo fs) (rows raw).
Proof.
  unfold ScriptsApp.load_data, bind.
  destruct (snd (ScriptsApp.read_file file)) as [raw|e]; [|discriminate].
  intros E. injection E as <-. simpl. eauto 10.
Qed.

Lemma app_load_data_rows `{Library} file df :
  App.load_data file = Ok df ->
  exists raw fo fs,
    snd (App.read_file file) = Ok raw
    /\ rows df = List.map (App.load_row fo fs) (rows raw).
Proof.
  unfold App.load_data, App.require_column, bind.
  destruct (snd (App.read_file file)) as [raw|e]; [|discriminate].
  repeat match goal with
         | |- context [if ?b then _ else _] => destruct b; [|discriminate]
         end.
  intros E. injection E as <-. simpl. eauto 10.
Qed.

(** C10, as stated, fails: while the date input holds a single date the date
    filter is off, and the sample row without an order date is in the view. *)
Lemma undated_rows_counterexample :
  ScriptsApp.sidebar_of Sample.df Sample.sidebar_half_range
  /\ has_column Sample.df "Order Date" = true
  /\ Order_Date Sample.undated = None
  /\ In Sample.undated
       (rows (ScriptsApp.filtered_df Sample.df Sample.sidebar_half_range))
  /\ ~ Spec.undated_rows_excluded Sample.df Sample.sidebar_half_range.
Proof.
  assert (Hin : In Sample.undated
       (rows (ScriptsApp.filtered_df Sample.df Sample.sidebar_half_range))).
  { right; right; left; reflexivity. }
  split; [|split; [reflexivity | split; [reflexivity | split; [exact Hin|]]]].
  - repeat split; intros s Hs; vm_compute in Hs |- *;
      repeat (destruct Hs as [Hs|Hs]; [subst; auto|]); contradiction.
  - intros Hclaim. exact (Hclaim eq_refl Sample.undated eq_refl Hin).
Qed.

(** C10, amended.  In [src/scripts/app.py], whenever the Order Date column is
    present and the date input holds two dates, no row whose order date is
    [NaT] is in the view, although the Loader kept every row of the file, those
    whose date did not parse included.  The date input holds two dates before
    the user touches it, when the Dataset has some order date at all. *)
Theorem undated_rows_excluded_by_complete_range `{Library}
  (file : bytes) (df : DataFrame) (sb : ScriptsApp.Sidebar) :
  ScriptsApp.load_data file = Ok df ->
  has_column df "Order Date" = true ->
  List.length (ScriptsApp.date_range sb) = 2%nat ->
  (exists raw, snd (ScriptsApp.read_file file) = Ok raw
               /\ List.length (rows df) = List.length (rows raw))
  /\ (forall r, Order_Date r = None ->
                ~ In r (rows (ScriptsApp.filtered_df df sb)))
  /\ ((exists r t, In r (rows df) /\ Order_Date r = Some t) ->
      List.length (ScriptsApp.default_date_range df) = 2%nat).
Proof.
  intros Hload Hcol Hlen. split; [|split].
  - destruct (scripts_load_data_rows _ _ Hload)
      as (raw & cols & fo & fs & Hraw & _ & _ & Hrows).
    exists raw. split; [exact Hraw|]. rewrite Hrows. apply length_map.
  - destruct (ScriptsApp.date_range sb) as [|s [|e [|x l]]] eqn:Hrange;
      try discriminate.
    exact (undated_not_filtered df sb s e Hcol Hrange).
  - intros (r & t & Hr & Ht). unfold ScriptsApp.default_date_range, ts_min, ts_max.
    assert (Hne : dropna (List.map Order_Date (rows df)) <> []).
    { clear - Hr Ht. induction (rows df) as [|x l IH]; [destruct Hr|].
      simpl. destruct Hr as [-> | Hr].
      - rewrite Ht. discriminate.
      - destruct (Order_Date x); [discriminate | auto]. }
    destruct (dropna (List.map Order_Date (rows df))); [congruence | reflexivity].
Qed.

Lemma undated_rows_excluded_by_complete_range_witness :
  Sample.scripts_load_data Sample.file = Ok Sample.loaded
  /\ has_column Sample.loaded "Order Date" = true
  /\ List.length (rows Sample.loaded) = 2%nat
  /\ ~ In Sample.no_sales
         (rows (ScriptsApp.filtered_df Sample.loaded
                  (ScriptsApp.mkSidebar [] [] [] [5; 15]))).
Proof.
  split; [reflexivity | split; [reflexivity | split; [reflexivity|]]].
  exact (proj1 (proj2 (undated_rows_excluded_by_complete_range
                         (H := Sample.library) Sample.file Sample.loaded
                         (ScriptsApp.mkSidebar [] [] [] [5; 15])
                         eq_refl eq_refl eq_refl))
           Sample.no_sales eq_refl).
Defined.

(** C8, as stated, fails on [src/app.py]: the only encoding tried is
    Latin-1, and the two bytes of a UTF-8 e-acute reach the tokenizer as two
    characters. *)
Lemma latin1_only_counterexample :
  utf8_decode Sample.e_acute = Some [233%N]
  /\ Sample.app_read_file Sample.e_acute
     = ([latin_1], Sample.parse [195%N; 169%N])
  /\ ~ Spec.utf8_tried_first (fst (Sample.app_read_file Sample.e_acute)).
Proof.
  split; [reflexivity | split; [reflexivity|]].
  unfold Spec.utf8_tried_first. simpl. discriminate.
Qed.

Lemma scripts_read_file_utf8 `{Library} file text :
  utf8_decode file = Some text ->
  ScriptsApp.read_file file = ([utf_8], parse_text text).
Proof.
  intros E. unfold ScriptsApp.read_file, read_csv, decode. rewrite E.
  unfold parse_text. destruct (parse_table text); reflexivity.
Qed.

Lemma scripts_read_file_latin1 `{Library} file :
  utf8_decode file = None ->
  ScriptsApp.read_file file = ([utf_8; latin_1], parse_text (latin1_decode file)).
Proof.
  intros E. unfold ScriptsApp.read_file, read_csv, decode. rewrite E. reflexivity.
Qed.

(** C8, amended.  [src/scripts/app.py] tries UTF-8 first and tries Latin-1
    exactly when the bytes are not UTF-8; a file that decodes as UTF-8 is
    read from its UTF-8 text and nothing else is tried.  [src/app.py] reads
    every file as Latin-1 and tries nothing else. *)
Theorem utf8_first_then_latin1 `{Library} (file : bytes) :
  Spec.utf8_tried_first (fst (ScriptsApp.read_file file))
  /\ (In latin_1 (fst (ScriptsApp.read_file file)) <-> utf8_decode file = None)
  /\ (forall text, utf8_decode file = Some text ->
        ScriptsApp.read_file file = ([utf_8], parse_text text))
  /\ (utf8_decode file = None ->
        ScriptsApp.read_file file
        = ([utf_8; latin_1], parse_text (latin1_decode file)))
  /\ App.read_file file = ([latin_1], parse_text (latin1_decode file)).
Proof.
  split; [|split; [|split; [|split]]].
  - destruct (utf8_decode file) as [text|] eqn:E.
    + rewrite (scripts_read_file_utf8 _ _ E). reflexivity.
    + rewrite (scripts_read_file_latin1 _ E). reflexivity.
  - destruct (utf8_decode file) as [text|] eqn:E.
    + rewrite (scripts_read_file_utf8 _ _ E). simpl. intuition discriminate.
    + rewrite (scripts_read_file_latin1 _ E). simpl. intuition.
  - apply scripts_read_file_utf8.
  - apply scripts_read_file_latin1.
  - reflexivity.
Qed.

(* ================================================================== *)
(** ** Division by zero in the profit margin *)

Lemma Prim2SF_zero : Prim2SF zero = S754_zero false.
Proof. reflexivity. Qed.

Lemma Prim2SF_infinity : Prim2SF infinity = S754_infinity false.
Proof. reflexivity. Qed.

Lemma SFeqb_refl_finite s m e : SFeqb (S754_finite s m e) (S754_finite s m e) = true.
Proof.
  unfold SFeqb, SFcompare. rewrite Z.compare_refl.
  change (Pos.compare_cont Eq m m) with (Pos.compare m m).
  rewrite Pos.compare_refl. destruct s; reflexivity.
Qed.

Lemma is_nan_spec (x : float) : is_nan x = true <-> Prim2SF x = S754_nan.
Proof.
  unfold is_nan. rewrite eqb_spec.
  destruct (Prim2SF x) as [s|s| |s m e].
  - split; discriminate.
  - destruct s; split; discriminate.
  - split; reflexivity.
  - rewrite SFeqb_refl_finite. split; discriminate.
Qed.

Lemma is_zero_spec (x : float) :
  is_zero x = true <-> exists s, Prim2SF x = S754_zero s.
Proof.
  unfold is_zero. rewrite eqb_spec, Prim2SF_zero.
  destruct (Prim2SF x) as [s|s| |s m e]; unfold SFeqb, SFcompare.
  - split; eauto.
  - destruct s; split; try discriminate; intros [s' E]; discriminate.
  - split; try discriminate; intros [s' E]; discriminate.
  - destruct s; split; try discriminate; intros [s' E]; discriminate.
Qed.

Lemma is_infinity_spec (x : float) :
  is_infinity x = true <-> exists s, Prim2SF x = S754_infinity s.
Proof.
  unfold is_infinity. rewrite eqb_spec, abs_spec, Prim2SF_infinity.
  destruct (Prim2SF x) as [s|s| |s m e]; unfold SFeqb, SFcompare, SFabs.
  - split; try discriminate; intros [s' E]; discriminate.
  - split; eauto.
  - split; try discriminate; intros [s' E]; discriminate.
  - split; try discriminate; intros [s' E]; discriminate.
Qed.

(** Dividing by zero: [NaN] from a zero or [NaN] numerator, an infinity from
    anything else. *)
Lemma div_by_zero (x y : float) :
  is_zero y = true ->
  (is_zero x || is_nan x = true -> is_nan (x / y) = true)
  /\ (is_zero x || is_nan x = false -> is_infinity (x / y) = true).
Proof.
  intros Hy. apply is_zero_spec in Hy. destruct Hy as [sy Hy].
  pose proof (div_spec x y) as Hdiv. rewrite Hy in Hdiv.
  split.
  - intros Hx. apply is_nan_spec. rewrite Hdiv.
    apply orb_true_iff in Hx. destruct Hx as [Hx | Hx].
    + apply is_zero_spec in Hx. destruct Hx as [sx ->]. reflexivity.
    + apply is_nan_spec in Hx. rewrite Hx. reflexivity.
  - intros Hx. apply orb_false_iff in Hx. destruct Hx as [Hz Hn].
    apply is_infinity_spec. rewrite Hdiv.
    destruct (Prim2SF x) as [sx|sx| |sx mx ex] eqn:Ex.
    + assert (is_zero x = true) by (apply is_zero_spec; eauto). congruence.
    + eexists; reflexivity.
    + assert (is_nan x = true) by (apply is_nan_spec; assumption). congruence.
    + eexists; reflexivity.
Qed.

Lemma str_in_app_last c cols x :
  str_in c (cols ++ [x]) = str_in c cols || str_eqb c x.
Proof.
  unfold str_in. rewrite existsb_app. simpl. rewrite orb_false_r. reflexivity.
Qed.

Lemma loaded_columns_has cols (c : string) :
  str_eqb (lit c) (lit "ProfitMargin") = false ->
  str_in (lit c) (ScriptsApp.loaded_columns cols) = str_in (lit c) cols.
Proof.
  intros Hc. unfold ScriptsApp.loaded_columns.
  destruct (_ && _); [|reflexivity].
  rewrite str_in_app_last, Hc. apply orb_false_r.
Qed.

(** C6, as stated, fails: the second row of the sample file has sales 0 and
    profit 5, and its margin is infinity, which is no missing value. *)
Lemma margin_without_sales_counterexample :
  Sample.app_load_data Sample.file = Ok Sample.app_loaded
  /\ Sample.scripts_load_data Sample.file = Ok Sample.loaded
  /\ In Sample.no_sales (rows Sample.app_loaded)
  /\ In Sample.no_sales (rows Sample.loaded)
  /\ is_zero (Sales Sample.no_sales) = true
  /\ ProfitMargin Sample.no_sales = infinity
  /\ is_nan (ProfitMargin Sample.no_sales) = false
  /\ ~ Spec.margin_missing_without_sales Sample.no_sales.
Proof.
  repeat split; try reflexivity.
  - right; left; reflexivity.
  - right; left; reflexivity.
  - intros Hclaim. specialize (Hclaim eq_refl). discriminate.
Qed.

(** C6, amended.  For every loaded row the margin is profit divided by sales
    (in [src/scripts/app.py] when the file has both columns), and no division
    raises an error: where sales is 0 the margin is [NaN] when profit is 0 or
    missing, and an infinity when profit is any other number. *)
Theorem profit_margin_is_profit_over_sales `{Library}
  (file : bytes) (df : DataFrame) (r : Row) :
  App.load_data file = Ok df
  \/ (ScriptsApp.load_data file = Ok df
      /\ has_column df "Profit" = true /\ has_column df "Sales" = true) ->
  In r (rows df) ->
  ProfitMargin r = (Profit r / Sales r)%float
  /\ (is_zero (Sales r) = true ->
      (is_zero (Profit r) || is_nan (Profit r) = true ->
       is_nan (ProfitMargin r) = true)
      /\ (is_zero (Profit r) || is_nan (Profit r) = false ->
          is_infinity (ProfitMargin r) = true)).
Proof.
  intros Hload Hr.
  assert (Hdiv : ProfitMargin r = (Profit r / Sales r)%float).
  { destruct Hload as [Hload | (Hload & Hp & Hs)].
    - destruct (app_load_data_rows _ _ Hload) as (raw & fo & fs & _ & Hrows).
      rewrite Hrows in Hr. apply in_map_iff in Hr.
      destruct Hr as (x & <- & _). reflexivity.
    - destruct (scripts_load_data_rows _ _ Hload)
        as (raw & cols & fo & fs & _ & _ & Hcols & Hrows).
      unfold has_column in Hp, Hs. rewrite Hcols in Hp, Hs.
      rewrite loaded_columns_has in Hp by reflexivity.
      rewrite loaded_columns_has in Hs by reflexivity.
      rewrite Hrows in Hr. apply in_map_iff in Hr.
      destruct Hr as (x & <- & _). simpl. rewrite Hp, Hs. reflexivity. }
  split; [exact Hdiv|]. rewrite Hdiv. apply div_by_zero.
Qed.

Lemma profit_margin_is_profit_over_sales_witness :
  Sample.app_load_data Sample.file = Ok Sample.app_loaded
  /\ In Sample.no_sales (rows Sample.app_loaded)
  /\ ProfitMargin Sample.no_sales
     = (Profit Sample.no_sales / Sales Sample.no_sales)%float.
Proof.
  assert (Hin : In Sample.no_sales (rows Sample.app_loaded))
    by (right; left; reflexivity).
  split; [reflexivity | split; [exact Hin|]].
  exact (proj1 (profit_margin_is_profit_over_sales (H := Sample.library)
                  Sample.file Sample.app_loaded Sample.no_sales
                  (or_introl eq_refl) Hin)).
Defined.

(* ================================================================== *)
(** ** Grouping *)

Section GroupByFacts.
Context {K : Type} (eqb ltb : K -> K -> bool).
Hypothesis eqb_eq : forall a b, eqb a b = true <-> a = b.
Hypothesis ltb_trans :
  forall a b c, ltb a b = true -> ltb b c = true -> ltb a c = true.
Hypothesis ltb_irrefl : forall a, ltb a a = false.
Hypothesis ltb_total :
  forall a b, eqb a b = false -> ltb a b = false -> ltb b a = true.

Let lt (a b : K) : Prop := ltb a b = true.

(** The sum and compensation a grouping holds for a key, both 0 when the key
    is not there. *)
Let state_of (k : K) (acc : list (K * (float * float))) : float * float :=
  match find (fun p => eqb k (fst p)) acc with
  | Some p => snd p
  | None => (0%float, 0%float)
  end.

Lemma group_add_keys k v (acc : list (K * (float * float))) k' :
  In k' (List.map fst (group_add eqb ltb k v acc))
  <-> k' = k \/ In k' (List.map fst acc).
Proof.
  induction acc as [|[k0 s0] acc IH]; simpl.
  - intuition.
  - destruct (eqb k k0) eqn:E; [|destruct (ltb k k0)]; simpl.
    + apply eqb_eq in E. subst. intuition.
    + intuition.
    + rewrite IH. intuition.
Qed.

Lemma group_add_sorted k v (acc : list (K * (float * float))) :
  StronglySorted lt (List.map fst acc) ->
  StronglySorted lt (List.map fst (group_add eqb ltb k v acc)).
Proof.
  induction acc as [|[k0 s0] acc IH]; simpl; intros Hs.
  - repeat constructor.
  - inversion Hs as [|? ? Hs' Hall]; subst.
    destruct (eqb k k0) eqn:E; [|destruct (ltb k k0) eqn:L]; simpl.
    + constructor; assumption.
    + constructor; [exact Hs|]. constructor; [exact L|].
      eapply Forall_impl; [|exact Hall]. intros a Ha. exact (ltb_trans _ _ _ L Ha).
    + constructor; [apply IH; exact Hs'|].
      apply Forall_forall. intros a Ha. apply group_add_keys in Ha.
      destruct Ha as [-> | Ha].
      * exact (ltb_total _ _ E L).
      * rewrite Forall_forall in Hall. exact (Hall a Ha).
Qed.

Lemma sorted_NoDup (l : list K) : StronglySorted lt l -> NoDup l.
Proof.
  induction 1 as [|a l Hs IH Hall]; constructor; [|exact IH].
  intros Ha. rewrite Forall_forall in Hall. specialize (Hall a Ha).
  unfold lt in Hall. rewrite ltb_irrefl in Hall. discriminate.
Qed.

Lemma state_of_absent k (acc : list (K * (float * float))) :
  ~ In k (List.map fst acc) -> state_of k acc = (0%float, 0%float).
Proof.
  unfold state_of. induction acc as [|[k0 s0] acc IH]; simpl; [reflexivity|].
  intros Hk. destruct (eqb k k0) eqn:E.
  - apply eqb_eq in E. subst. tauto.
  - apply IH. tauto.
Qed.

Lemma state_of_present k v (acc : list (K * (float * float))) :
  NoDup (List.map fst acc) -> In (k, v) acc -> state_of k acc = v.
Proof.
  unfold state_of. induction acc as [|[k0 s0] acc IH]; simpl; [tauto|].
  intros Hnd [E | Hin]; inversion Hnd as [|? ? Hk0 Hnd']; subst.
  - injection E as -> ->.
    rewrite (proj2 (eqb_eq k k) eq_refl). reflexivity.
  - destruct (eqb k k0) eqn:E; [|apply IH; assumption].
    apply eqb_eq in E. subst. exfalso. apply Hk0.
    apply (in_map fst) in Hin. exact Hin.
Qed.

Lemma eqb_sym a b : eqb a b = eqb b a.
Proof.
  destruct (eqb a b) eqn:E, (eqb b a) eqn:E'; try reflexivity.
  - apply eqb_eq in E. subst. rewrite (proj2 (eqb_eq b b) eq_refl) in E'.
    discriminate.
  - apply eqb_eq in E'. subst. rewrite (proj2 (eqb_eq a a) eq_refl) in E.
    discriminate.
Qed.

(** Adding a value to a group changes the sum of that group only. *)
Lemma state_of_group_add k k' v (acc : list (K * (float * float))) :
  StronglySorted lt (List.map fst acc) ->
  state_of k (group_add eqb ltb k' v acc)
  = if eqb k k' then kahan_add (state_of k acc) v else state_of k acc.
Proof.
  induction acc as [|[k0 s0] acc IH]; intros Hs.
  - unfold state_of. simpl. destruct (eqb k k'); reflexivity.
  - inversion Hs as [|? ? Hs' Hall]; subst. simpl group_add.
    destruct (eqb k' k0) eqn:E0; [|destruct (ltb k' k0) eqn:L].
    + apply eqb_eq in E0. subst k0. unfold state_of. simpl.
      destruct (eqb k k'); reflexivity.
    + destruct (eqb k k') eqn:E.
      * apply eqb_eq in E. subst k'.
        rewrite (state_of_absent k ((k0, s0) :: acc)).
        -- unfold state_of. simpl.
           rewrite (proj2 (eqb_eq k k) eq_refl). reflexivity.
        -- simpl. intros [-> | Hin].
           ++ unfold lt in *. rewrite ltb_irrefl in L. discriminate.
           ++ rewrite Forall_forall in Hall. specialize (Hall k Hin).
              pose proof (ltb_trans _ _ _ L Hall) as Hkk.
              rewrite ltb_irrefl in Hkk. discriminate.
      * unfold state_of. simpl. rewrite E. reflexivity.
    + unfold state_of in *. simpl. destruct (eqb k k0) eqn:Ek.
      * apply eqb_eq in Ek. subst k0. rewrite eqb_sym, E0. reflexivity.
      * apply IH. exact Hs'.
Qed.

Section Rows.
Context {R : Type} (key : R -> option K) (val : R -> float).

Let step (acc : list (K * (float * float))) (r : R) : list (K * (float * float)) :=
  match key r with
  | Some k => group_add eqb ltb k (val r) acc
  | None => acc
  end.

Lemma fold_group_sorted (l : list R) : forall acc,
  StronglySorted lt (List.map fst acc) ->
  StronglySorted lt (List.map fst (fold_left step l acc)).
Proof.
  induction l as [|r l IH]; intros acc Hs; simpl; [exact Hs|].
  apply IH. unfold step. destruct (key r); [apply group_add_sorted|]; exact Hs.
Qed.

Lemma fold_group_keys (l : list R) : forall acc k,
  In k (List.map fst (fold_left step l acc))
  <-> In k (List.map fst acc) \/ In (Some k) (List.map key l).
Proof.
  induction l as [|r l IH]; intros acc k; simpl; [intuition|].
  rewrite IH. unfold step. destruct (key r) as [k0|].
  - rewrite group_add_keys. split.
    + intros [[-> | Hk] | Hk]; auto.
    + intros [Hk | [E | Hk]]; auto. injection E as ->. auto.
  - split; [intuition | intros [Hk | [E | Hk]]; auto; discriminate].
Qed.

Lemma groupby_sum_fst (l : list R) :
  List.map fst (groupby_sum eqb ltb key val l)
  = List.map fst (fold_left step l []).
Proof. unfold groupby_sum. rewrite map_map. reflexivity. Qed.

(** The keys of the grouped series are ascending and without repeats, and
    they are the keys present in the rows. *)
Lemma groupby_sum_sorted (l : list R) :
  StronglySorted lt (List.map fst (groupby_sum eqb ltb key val l)).
Proof. rewrite groupby_sum_fst. apply fold_group_sorted. constructor. Qed.

Lemma groupby_sum_NoDup (l : list R) :
  NoDup (List.map fst (groupby_sum eqb ltb key val l)).
Proof. apply sorted_NoDup, groupby_sum_sorted. Qed.

Lemma groupby_sum_keys (l : list R) (k : K) :
  In k (List.map fst (groupby_sum eqb ltb key val l))
  <-> In (Some k) (List.map key l).
Proof.
  rewrite groupby_sum_fst, fold_group_keys. simpl. intuition.
Qed.

Lemma fold_group_state (l : list R) k : forall acc,
  StronglySorted lt (List.map fst acc) ->
  state_of k (fold_left step l acc)
  = fold_left kahan_add (List.map val (filter (Spec.has_key eqb key k) l))
      (state_of k acc).
Proof.
  induction l as [|r l IH]; intros acc Hs; simpl; [reflexivity|].
  rewrite IH.
  - unfold step, Spec.has_key. destruct (key r) as [k'|]; [|reflexivity].
    rewrite (state_of_group_add _ _ _ _ Hs).
    destruct (eqb k k'); reflexivity.
  - unfold step. destruct (key r); [apply group_add_sorted|]; exact Hs.
Qed.

Lemma compensated_fold (l : list float) : forall sumx c,
  fst (fold_left kahan_add l (sumx, c)) = Spec.compensated sumx c l.
Proof.
  induction l as [|v l IH]; intros sumx c; simpl; [reflexivity|].
  unfold kahan_add at 2. destruct (is_nan v); apply IH.
Qed.

(** The value of every group is the sum of the values of its rows, and
    every key present in the rows has its group. *)
Lemma groupby_sum_total (l : list R) k v :
  In (k, v) (groupby_sum eqb ltb key val l) -> v = Spec.summed eqb key val k l.
Proof.
  unfold groupby_sum. fold step. intros Hin. apply in_map_iff in Hin.
  destruct Hin as ([k0 [sumx c]] & E & Hin). simpl in E. injection E as -> ->.
  assert (Hnd : NoDup (List.map fst (fold_left step l [])))
    by (apply sorted_NoDup, fold_group_sorted; constructor).
  pose proof (state_of_present _ _ _ Hnd Hin) as Hst.
  rewrite fold_group_state in Hst by constructor.
  unfold Spec.summed. rewrite <- compensated_fold.
  change (state_of k []) with (0%float, 0%float) in Hst. rewrite Hst. reflexivity.
Qed.

Lemma groupby_sum_group (l : list R) k :
  In (Some k) (List.map key l) ->
  In (k, Spec.summed eqb key val k l) (groupby_sum eqb ltb key val l).
Proof.
  intros Hk. apply groupby_sum_keys, in_map_iff in Hk.
  destruct Hk as ([k0 v] & E & Hin). simpl in E. subst k0.
  rewrite <- (groupby_sum_total _ _ _ Hin). exact Hin.
Qed.
End Rows.
End GroupByFacts.

Lemma In_dropna {A} (l : list (option A)) (x : A) : In x (dropna l) <-> In (Some x) l.
Proof.
  induction l as [|[y|] l IH]; simpl; [tauto| |].
  - rewrite IH. split; intros [E | Hx]; auto; left; congruence.
  - rewrite IH. split; [auto | intros [E | Hx]; [discriminate | exact Hx]].
Qed.

Lemma Zltb_total a b : Z.eqb a b = false -> Z.ltb a b = false -> Z.ltb b a = true.
Proof. rewrite Z.eqb_neq, Z.ltb_ge, Z.ltb_lt. lia. Qed.

Lemma Zltb_trans a b c : Z.ltb a b = true -> Z.ltb b c = true -> Z.ltb a c = true.
Proof. rewrite !Z.ltb_lt. lia. Qed.

(** [sales_ts] has one entry per distinct order date of the view. *)
Lemma sales_ts_NoDup df : NoDup (List.map fst (App.sales_ts df)).
Proof.
  apply (groupby_sum_NoDup Z.eqb Z.ltb Z.eqb_eq Zltb_trans Z.ltb_irrefl Zltb_total).
Qed.

Lemma sales_ts_dates df t :
  In t (List.map fst (App.sales_ts df)) <-> In t (Spec.distinct_dates df).
Proof.
  unfold App.sales_ts, Spec.distinct_dates.
  rewrite (groupby_sum_keys Z.eqb Z.ltb Z.eqb_eq), nodup_In, In_dropna. tauto.
Qed.

Lemma sales_ts_length df :
  List.length (App.sales_ts df) = List.length (Spec.distinct_dates df).
Proof.
  rewrite <- (length_map fst). apply Permutation_length, NoDup_Permutation.
  - apply sales_ts_NoDup.
  - apply NoDup_nodup.
  - intros t. apply sales_ts_dates.
Qed.

(* ================================================================== *)
(** ** The Forecaster *)

Lemma dropna_map_Some {A} (l : list A) : dropna (List.map Some l) = l.
Proof. induction l as [|x l IH]; simpl; congruence. Qed.

Lemma fold_max_spec (l : list Z) : forall a,
  (fold_left Z.max l a = a \/ In (fold_left Z.max l a) l)
  /\ a <= fold_left Z.max l a
  /\ (forall x, In x l -> x <= fold_left Z.max l a).
Proof.
  induction l as [|y l IH]; intros a; simpl.
  - repeat split; [auto | lia | intros x []].
  - destruct (IH (Z.max a y)) as (Hin & Hge & Hall). repeat split.
    + destruct Hin as [E | Hin]; [|auto].
      rewrite E. destruct (Z.max_spec a y) as [[_ ->] | [_ ->]]; auto.
    + lia.
    + intros x [<- | Hx]; [lia | auto].
Qed.

(** The largest date of a series that is not empty: one of its dates, and no
    date of the series is later. *)
Lemma ts_max_last (l : list Timestamp) :
  l <> [] ->
  exists last, ts_max (List.map Some l) = Some last
               /\ In last l /\ forall t, In t l -> t <= last.
Proof.
  intros Hne. unfold ts_max. rewrite dropna_map_Some.
  destruct l as [|a l]; [congruence|].
  destruct (fold_max_spec l a) as (Hin & Hge & Hall).
  exists (fold_left Z.max l a). repeat split.
  - destruct Hin as [-> | Hin]; [left; reflexivity | right; exact Hin].
  - intros t [<- | Ht]; auto.
Qed.

Lemma forecast_dates_last (s : Series Timestamp) :
  s <> [] ->
  exists last, App.forecast_dates s = pd.date_range last 30
               /\ In last (List.map fst s)
               /\ forall t, In t (List.map fst s) -> t <= last.
Proof.
  intros Hne. unfold App.forecast_dates.
  destruct (ts_max_last (List.map fst s)) as (last & Hmax & Hin & Hall).
  - destruct s; [congruence | discriminate].
  - rewrite map_map in Hmax. rewrite Hmax. exists last. auto.
Qed.

Lemma date_range_length start n : List.length (pd.date_range start n) = n.
Proof. unfold pd.date_range. rewrite length_map. apply length_seq. Qed.

Lemma date_range_nth start n i :
  (i < n)%nat ->
  nth i (pd.date_range start n) 0 = start + Z.of_nat i * ns_per_day.
Proof.
  intros Hi. unfold pd.date_range.
  set (f := fun j => start + Z.of_nat j * ns_per_day).
  rewrite (nth_indep _ 0 (f 0%nat))
    by (rewrite length_map, length_seq; exact Hi).
  rewrite map_nth, seq_nth by exact Hi. reflexivity.
Qed.

Lemma forecast_section_eq `{Library} (filtered_df : DataFrame) :
  has_column filtered_df "Order Date" = true ->
  has_column filtered_df "Sales" = true ->
  App.forecast_section filtered_df
  = if (20 <? List.length (Spec.distinct_dates filtered_df))%nat
    then Ok [App.fit (List.map snd (App.sales_ts filtered_df));
             App.plotly_chart (App.sales_ts filtered_df)
               (App.forecast_dates (App.sales_ts filtered_df))
               (holt_forecast (List.map snd (App.sales_ts filtered_df)) 30)]
    else Ok [App.info "Not enough data for forecast."].
Proof.
  intros Hd Hs. unfold App.forecast_section, App.require_column, bind.
  rewrite Hd, Hs, sales_ts_length. reflexivity.
Qed.

(** C4. A series with 20 or fewer distinct dates gets the notice and no model
    is fitted; with 21 or more the model is fitted and the chart drawn.  The
    length of [sales_ts] is the number of distinct order dates of the view. *)
Theorem forecast_requires_21_dates `{Library} (filtered_df : DataFrame) :
  has_column filtered_df "Order Date" = true ->
  has_column filtered_df "Sales" = true ->
  List.length (App.sales_ts filtered_df)
  = List.length (Spec.distinct_dates filtered_df)
  /\ ((List.length (Spec.distinct_dates filtered_df) <= 20)%nat ->
      App.forecast_section filtered_df
      = Ok [App.info "Not enough data for forecast."])
  /\ ((21 <= List.length (Spec.distinct_dates filtered_df))%nat ->
      App.forecast_section filtered_df
      = Ok [App.fit (List.map snd (App.sales_ts filtered_df));
            App.plotly_chart (App.sales_ts filtered_df)
              (App.forecast_dates (App.sales_ts filtered_df))
              (holt_forecast (List.map snd (App.sales_ts filtered_df)) 30)]).
Proof.
  intros Hd Hs. split; [apply sales_ts_length|].
  rewrite (forecast_section_eq _ Hd Hs). split; intros Hn.
  - apply Nat.ltb_ge in Hn. rewrite Hn. reflexivity.
  - apply Nat.ltb_lt in Hn. rewrite Hn. reflexivity.
Qed.

Lemma forecast_requires_21_dates_witness :
  List.length (Spec.distinct_dates (Sample.daily 20)) = 20%nat
  /\ Sample.app_forecast_section (Sample.daily 20)
     = Ok [App.info "Not enough data for forecast."]
  /\ List.length (Spec.distinct_dates (Sample.daily 21)) = 21%nat
  /\ Sample.app_forecast_section (Sample.daily 21)
     = Ok [App.fit (List.map snd (App.sales_ts (Sample.daily 21)));
           App.plotly_chart (App.sales_ts (Sample.daily 21))
             (App.forecast_dates (App.sales_ts (Sample.daily 21)))
             (repeat 1%float 30)].
Proof.
  assert (H20 : List.length (Spec.distinct_dates (Sample.daily 20)) = 20%nat)
    by (vm_compute; reflexivity).
  assert (H21 : List.length (Spec.distinct_dates (Sample.daily 21)) = 21%nat)
    by (vm_compute; reflexivity).
  split; [exact H20 | split; [|split; [exact H21|]]].
  - apply (forecast_requires_21_dates (H := Sample.library) (Sample.daily 20)
             eq_refl eq_refl).
    rewrite H20. apply le_n.
  - unfold Sample.app_forecast_section.
    rewrite (proj2 (proj2 (forecast_requires_21_dates (H := Sample.library)
                             (Sample.daily 21) eq_refl eq_refl)))
      by (rewrite H21; apply le_n).
    vm_compute. reflexivity.
Defined.

(** C3, on the code.  For every accepted series the forecast is 30 points one
    day apart, and the first of them is dated on the last observed date
    itself, not on the day after it. *)
Theorem forecast_dates_begin_on_last_date `{Library} (filtered_df : DataFrame) :
  has_column filtered_df "Order Date" = true ->
  has_column filtered_df "Sales" = true ->
  (21 <= List.length (Spec.distinct_dates filtered_df))%nat ->
  (forall endog, List.length (holt_forecast endog 30) = 30%nat) ->
  exists last actual dates values,
    App.forecast_section filtered_df
    = Ok [App.fit (List.map snd actual); App.plotly_chart actual dates values]
    /\ In last (Spec.distinct_dates filtered_df)
    /\ (forall t, In t (Spec.distinct_dates filtered_df) -> t <= last)
    /\ List.length (App.forecast_points (App.plotly_chart actual dates values))
       = 30%nat
    /\ (forall i, (i < 30)%nat -> nth i dates 0 = last + Z.of_nat i * ns_per_day)
    /\ hd_error dates = Some last
    /\ ~ Spec.begins_the_day_after last dates.
Proof.
  intros Hd Hs Hn Hlen.
  destruct (forecast_dates_last (App.sales_ts filtered_df))
    as (last & Hdates & Hin & Hall).
  { intros E. rewrite <- sales_ts_length, E in Hn. simpl in Hn. lia. }
  exists last, (App.sales_ts filtered_df),
    (App.forecast_dates (App.sales_ts filtered_df)),
    (holt_forecast (List.map snd (App.sales_ts filtered_df)) 30).
  split; [|split; [|split; [|split; [|split; [|split]]]]].
  - rewrite (forecast_section_eq _ Hd Hs).
    apply Nat.ltb_lt in Hn. rewrite Hn. reflexivity.
  - apply sales_ts_dates. exact Hin.
  - intros t Ht. apply Hall, sales_ts_dates. exact Ht.
  - simpl. rewrite length_combine, Hdates, date_range_length, Hlen. reflexivity.
  - intros i Hi. rewrite Hdates. apply date_range_nth. exact Hi.
  - rewrite Hdates. simpl. f_equal. lia.
  - rewrite Hdates. unfold Spec.begins_the_day_after. simpl.
    intros E. injection E as E. unfold ns_per_day in E. lia.
Qed.

Lemma forecast_dates_begin_on_last_date_witness :
  (21 <= List.length (Spec.distinct_dates (Sample.daily 21)))%nat
  /\ exists last actual dates values,
       Sample.app_forecast_section (Sample.daily 21)
       = Ok [App.fit (List.map snd actual); App.plotly_chart actual dates values]
       /\ In last (Spec.distinct_dates (Sample.daily 21))
       /\ (forall t, In t (Spec.distinct_dates (Sample.daily 21)) -> t <= last)
       /\ List.length (App.forecast_points (App.plotly_chart actual dates values))
          = 30%nat
       /\ (forall i, (i < 30)%nat ->
                     nth i dates 0 = last + Z.of_nat i * ns_per_day)
       /\ hd_error dates = Some last
       /\ ~ Spec.begins_the_day_after last dates.
Proof.
  assert (H21 : (21 <= List.length (Spec.distinct_dates (Sample.daily 21)))%nat)
    by (vm_compute; apply le_n).
  split; [exact H21|].
  apply (forecast_dates_begin_on_last_date (H := Sample.library)
           (Sample.daily 21) eq_refl eq_refl H21).
  intros endog. apply repeat_length.
Defined.

(** The sample of 21 daily sales: the last observed date is day 20, and the
    first forecast point is dated day 20, the last one day 49. *)
Lemma forecast_dates_sample :
  App.forecast_dates (App.sales_ts (Sample.daily 21))
  = List.map (fun d => to_datetime (Z.of_nat d)) (seq 20 30).
Proof. vm_compute. reflexivity. Qed.

(* ================================================================== *)
(** ** The order of float64 values *)

Lemma SFleb_trans (x y z : spec_float) :
  SFleb x y = true -> SFleb y z = true -> SFleb x z = true.
Proof.
  unfold SFleb, SFcompare.
  destruct x as [sx|sx| |sx mx ex], y as [sy|sy| |sy my ey],
           z as [sz|sz| |sz mz ez];
    try discriminate; try reflexivity;
    repeat match goal with s : bool |- _ => destruct s end;
    try discriminate; try reflexivity;
    change (Pos.compare_cont Eq mx my) with (Pos.compare mx my);
    change (Pos.compare_cont Eq my mz) with (Pos.compare my mz);
    change (Pos.compare_cont Eq mx mz) with (Pos.compare mx mz);
    destruct (Z.compare_spec ex ey), (Z.compare_spec ey ez),
             (Z.compare_spec ex ez);
    try lia; try discriminate; try reflexivity;
    destruct (Pos.compare_spec mx my), (Pos.compare_spec my mz),
             (Pos.compare_spec mx mz);
    simpl; try lia; try discriminate; try reflexivity.
Qed.

Lemma SFleb_total (x y : spec_float) :
  x <> S754_nan -> y <> S754_nan -> SFleb x y = true \/ SFleb y x = true.
Proof.
  unfold SFleb, SFcompare. intros Hx Hy.
  destruct x as [sx|sx| |sx mx ex], y as [sy|sy| |sy my ey];
    try congruence;
    repeat match goal with s : bool |- _ => destruct s end; auto;
    change (Pos.compare_cont Eq mx my) with (Pos.compare mx my);
    change (Pos.compare_cont Eq my mx) with (Pos.compare my mx);
    destruct (Z.compare_spec ex ey), (Z.compare_spec ey ex); try lia; auto;
    destruct (Pos.compare_spec mx my), (Pos.compare_spec my mx);
    simpl; try lia; auto.
Qed.

Lemma SFleb_nan_l (x : spec_float) : SFleb S754_nan x = false.
Proof. destruct x; reflexivity. Qed.

Lemma SFleb_nan_r (x : spec_float) : SFleb x S754_nan = false.
Proof. destruct x as [s|s| |s m e]; reflexivity. Qed.

Lemma is_nan_false (x : float) : is_nan x = false <-> Prim2SF x <> S754_nan.
Proof.
  rewrite <- is_nan_spec. destruct (is_nan x); split; congruence.
Qed.

(** [ranks_before] is a total preorder: descending, [NaN] last. *)
Lemma ranks_before_total (a b : float) :
  ranks_before a b = true \/ ranks_before b a = true.
Proof.
  unfold ranks_before. rewrite !leb_spec.
  destruct (is_nan b) eqn:Hb; [left; reflexivity|].
  destruct (is_nan a) eqn:Ha; [right; reflexivity|].
  apply is_nan_false in Ha, Hb. simpl.
  destruct (SFleb_total _ _ Ha Hb); auto.
Qed.

Lemma ranks_before_trans (a b c : float) :
  ranks_before a b = true -> ranks_before b c = true -> ranks_before a c = true.
Proof.
  unfold ranks_before. rewrite !leb_spec.
  destruct (is_nan c) eqn:Hc; [reflexivity|]. simpl.
  destruct (is_nan b) eqn:Hb; simpl.
  - apply is_nan_spec in Hb. rewrite Hb, SFleb_nan_r. discriminate.
  - intros Hba Hcb. exact (SFleb_trans _ _ _ Hcb Hba).
Qed.

(* ================================================================== *)
(** ** Top-N *)

Lemma StronglySorted_impl {A} (P Q : A -> A -> Prop) (l : list A) :
  (forall a b, P a b -> Q a b) -> StronglySorted P l -> StronglySorted Q l.
Proof.
  intros HPQ. induction 1 as [|a l Hs IH Hall]; constructor; [exact IH|].
  eapply Forall_impl; [|exact Hall]. intros b. apply HPQ.
Qed.

Lemma StronglySorted_app {A} (R : A -> A -> Prop) (l1 l2 : list A) :
  StronglySorted R (l1 ++ l2) ->
  StronglySorted R l1 /\ StronglySorted R l2
  /\ forall a b, In a l1 -> In b l2 -> R a b.
Proof.
  induction l1 as [|x l1 IH]; simpl; intros Hs.
  - split; [constructor | split; [exact Hs | intros a b []]].
  - inversion Hs as [|? ? Hs' Hall]; subst.
    destruct (IH Hs') as (Hs1 & Hs2 & Hcross). rewrite Forall_forall in Hall.
    split; [|split; [exact Hs2|]].
    + constructor; [exact Hs1|]. apply Forall_forall.
      intros a Ha. apply Hall, in_or_app. left. exact Ha.
    + intros a b [<- | Ha] Hb; [|exact (Hcross a b Ha Hb)].
      apply Hall, in_or_app. right. exact Hb.
Qed.

Lemma StronglySorted_app_intro {A} (R : A -> A -> Prop) (l1 l2 : list A) :
  StronglySorted R l1 -> StronglySorted R l2 ->
  (forall a b, In a l1 -> In b l2 -> R a b) ->
  StronglySorted R (l1 ++ l2).
Proof.
  intros Hs1 Hs2. induction Hs1 as [|x l1 Hs1 IH Hall]; intros Hcross; simpl.
  - exact Hs2.
  - constructor.
    + apply IH. intros a b Ha Hb. apply Hcross; [right; exact Ha | exact Hb].
    + apply Forall_app. split; [exact Hall|].
      apply Forall_forall. intros b Hb. apply Hcross; [left; reflexivity | exact Hb].
Qed.

Lemma before_ranks {K} (a b : K * float) :
  Spec.before a b <-> ranks_before (snd a) (snd b) = true.
Proof. unfold Spec.before, ranks_before. rewrite orb_true_iff. tauto. Qed.

(** [rearrange] gives an arrangement of the same elements, and gives every
    one of them. *)
Lemma rearrange_perm {A} (l : list A) : forall moves,
  Permutation (rearrange moves l) l.
Proof.
  induction l as [|x l IH]; intros [|i moves]; simpl; try reflexivity.
  symmetry. apply Permutation_cons_app. rewrite firstn_skipn.
  symmetry. apply IH.
Qed.

Lemma rearrange_reaches {A} (l : list A) : forall l',
  Permutation l l' -> exists moves, rearrange moves l = l'.
Proof.
  induction l as [|x l IH]; intros l' Hp.
  - apply Permutation_nil in Hp. subst. exists []. reflexivity.
  - assert (Hx : In x l') by (apply (Permutation_in _ Hp); left; reflexivity).
    apply in_split in Hx. destruct Hx as (a & b & ->).
    apply Permutation_cons_app_inv in Hp.
    destruct (IH _ Hp) as [moves Hm]. exists (List.length a :: moves).
    simpl. rewrite Hm, firstn_app, skipn_app, Nat.sub_diag, firstn_all, skipn_all.
    simpl. rewrite app_nil_r. reflexivity.
Qed.

Section NLargestFacts.
Context `{Library} {K : Type}.
Implicit Types (x y : K * float) (l s : Series K).

Let rb x y : Prop := ranks_before (snd x) (snd y) = true.

Lemma insert_desc_perm x l : Permutation (insert_desc x l) (x :: l).
Proof.
  induction l as [|y l IH]; simpl; [reflexivity|].
  destruct (ranks_before (snd x) (snd y)); [reflexivity|].
  rewrite IH. apply perm_swap.
Qed.

Lemma sort_desc_perm s : Permutation (sort_desc s) s.
Proof.
  induction s as [|x s IH]; simpl; [reflexivity|].
  rewrite insert_desc_perm. apply perm_skip, IH.
Qed.

Lemma insert_desc_sorted x l :
  StronglySorted rb l -> StronglySorted rb (insert_desc x l).
Proof.
  induction l as [|y l IH]; simpl; intros Hs.
  - repeat constructor.
  - inversion Hs as [|? ? Hs' Hall]; subst.
    destruct (ranks_before (snd x) (snd y)) eqn:E.
    + constructor; [exact Hs|]. constructor; [exact E|].
      eapply Forall_impl; [|exact Hall].
      intros z Hz. exact (ranks_before_trans _ _ _ E Hz).
    + constructor; [apply IH; exact Hs'|].
      apply Forall_forall. intros z Hz.
      apply (Permutation_in _ (insert_desc_perm x l)) in Hz.
      destruct Hz as [<- | Hz].
      * destruct (ranks_before_total (snd x) (snd y)); [congruence | assumption].
      * rewrite Forall_forall in Hall. exact (Hall z Hz).
Qed.

Lemma sort_desc_sorted s : StronglySorted rb (sort_desc s).
Proof.
  induction s as [|x s IH]; simpl; [constructor | apply insert_desc_sorted, IH].
Qed.

(** What is in decreasing order already is left as it is. *)
Lemma sort_desc_fixed l : StronglySorted rb l -> sort_desc l = l.
Proof.
  induction 1 as [|x l Hs IH Hall]; simpl; [reflexivity|].
  rewrite IH. destruct l as [|y l]; [reflexivity|].
  simpl. apply Forall_inv in Hall. unfold rb in Hall. rewrite Hall. reflexivity.
Qed.

(** Every decreasing arrangement of a series is what the library's sort can
    make of it. *)
Lemma sorted_arrangement_reached s l :
  Permutation s l -> StronglySorted rb l ->
  exists moves, sort_desc (rearrange moves s) = l.
Proof.
  intros Hp Hs. destruct (rearrange_reaches _ _ Hp) as [moves Hm].
  exists moves. rewrite Hm. apply sort_desc_fixed, Hs.
Qed.

(** The sort is stable: where the series is in ascending order of its keys,
    entries that tie come out in ascending order of their keys. *)
Section Ties.
Variable ltK : K -> K -> Prop.

Let by_key x y : Prop := Spec.tie x y -> ltK (fst x) (fst y).

Lemma insert_desc_ties x l :
  Forall (fun y => ltK (fst x) (fst y)) l ->
  StronglySorted by_key l -> StronglySorted by_key (insert_desc x l).
Proof.
  induction l as [|y l IH]; simpl; intros Hx Hs.
  - repeat constructor.
  - inversion Hs as [|? ? Hs' Hall]; subst.
    inversion Hx as [|? ? Hxy Hxl]; subst.
    destruct (ranks_before (snd x) (snd y)) eqn:E.
    + constructor; [exact Hs|].
      eapply Forall_impl; [|exact Hx]. intros z Hz _. exact Hz.
    + constructor; [apply IH; assumption|].
      apply Forall_forall. intros z Hz.
      apply (Permutation_in _ (insert_desc_perm x l)) in Hz.
      destruct Hz as [<- | Hz].
      * intros [_ Hxy']. apply before_ranks in Hxy'. congruence.
      * rewrite Forall_forall in Hall. exact (Hall z Hz).
Qed.

Lemma sort_desc_ties s :
  StronglySorted ltK (List.map fst s) -> StronglySorted by_key (sort_desc s).
Proof.
  induction s as [|x s IH]; simpl; intros Hs; [constructor|].
  inversion Hs as [|? ? Hs' Hall]; subst.
  apply insert_desc_ties; [|apply IH; exact Hs'].
  apply Forall_forall. intros y Hy.
  apply (Permutation_in _ (sort_desc_perm s)) in Hy.
  rewrite Forall_forall in Hall. apply Hall, in_map. exact Hy.
Qed.
End Ties.

Lemma partition_perm (f : K * float -> bool) l :
  Permutation (filter (fun p => negb (f p)) l ++ filter f l) l.
Proof.
  induction l as [|x l IH]; simpl; [reflexivity|].
  destruct (f x); simpl.
  - symmetry. apply Permutation_cons_app. symmetry. exact IH.
  - apply perm_skip, IH.
Qed.

(** [sort_values]: the same entries, in decreasing order, [NaN] last. *)
Lemma sort_values_perm s : Permutation (sort_values s) s.
Proof.
  unfold sort_values. rewrite sort_desc_perm, rearrange_perm.
  apply (partition_perm (fun p => is_nan (snd p))).
Qed.

Lemma sort_values_sorted s : StronglySorted rb (sort_values s).
Proof.
  assert (Hnan : forall x y, is_nan (snd y) = true -> rb x y).
  { intros x y Hy. unfold rb, ranks_before. rewrite Hy. reflexivity. }
  unfold sort_values. apply StronglySorted_app_intro.
  - apply sort_desc_sorted.
  - induction s as [|x s IH]; simpl; [constructor|].
    destruct (is_nan (snd x)); [|exact IH].
    constructor; [exact IH|]. apply Forall_forall.
    intros y Hy. apply filter_In in Hy. apply Hnan, Hy.
  - intros x y _ Hy. apply filter_In in Hy. apply Hnan, Hy.
Qed.

(** What [sort_values(ascending=False).head(n)] and [nlargest(n)] return:
    the head of a decreasing arrangement of the series, which for [nlargest]
    on a series of more than [n] entries is the stable one. *)
Lemma head_spec n s :
  exists rest,
    Permutation (firstn n (sort_values s) ++ rest) s
    /\ StronglySorted rb (firstn n (sort_values s) ++ rest)
    /\ List.length (firstn n (sort_values s)) = Nat.min n (List.length s).
Proof.
  exists (skipn n (sort_values s)). rewrite firstn_skipn.
  split; [apply sort_values_perm | split; [apply sort_values_sorted|]].
  rewrite length_firstn, (Permutation_length (sort_values_perm s)). reflexivity.
Qed.

Lemma nlargest_spec n s :
  exists rest,
    Permutation (nlargest n s ++ rest) s
    /\ StronglySorted rb (nlargest n s ++ rest)
    /\ List.length (nlargest n s) = Nat.min n (List.length s)
    /\ ((n < List.length s)%nat -> nlargest n s ++ rest = sort_desc s).
Proof.
  unfold nlargest. destruct (Nat.leb_spec (List.length s) n) as [Hle | Hlt].
  - destruct (head_spec n s) as (rest & Hp & Hs & Hl).
    exists rest. repeat split; try assumption. lia.
  - exists (skipn n (sort_desc s)). rewrite firstn_skipn.
    split; [apply sort_desc_perm | split; [apply sort_desc_sorted|]].
    split; [|reflexivity].
    rewrite length_firstn, (Permutation_length (sort_desc_perm s)). reflexivity.
Qed.
End NLargestFacts.

(** The order of product names. *)
Lemma str_ltb_irrefl (a : str) : str_ltb a a = false.
Proof.
  induction a as [|x a IH]; simpl; [reflexivity|].
  rewrite N.ltb_irrefl, N.eqb_refl, IH. reflexivity.
Qed.

Lemma str_ltb_trans (a b c : str) :
  str_ltb a b = true -> str_ltb b c = true -> str_ltb a c = true.
Proof.
  revert b c. induction a as [|x a IH]; intros [|y b] [|z c]; simpl;
    try discriminate; try reflexivity.
  rewrite !orb_true_iff, !andb_true_iff, !N.ltb_lt, !N.eqb_eq.
  intros [Hxy | [-> Hab]] [Hyz | [-> Hbc]].
  - left. lia.
  - left. exact Hxy.
  - left. exact Hyz.
  - right. split; [reflexivity | exact (IH _ _ Hab Hbc)].
Qed.

Lemma str_ltb_total (a b : str) :
  str_eqb a b = false -> str_ltb a b = false -> str_ltb b a = true.
Proof.
  revert b. induction a as [|x a IH]; intros [|y b]; simpl;
    try discriminate; try reflexivity.
  destruct (N.ltb_spec x y) as [Hlt | Hge]; [discriminate|].
  destruct (N.eqb_spec x y) as [-> | Hne]; simpl.
  - rewrite N.ltb_irrefl, N.eqb_refl. simpl. apply IH.
  - intros _ _. apply orb_true_iff. left. apply N.ltb_lt. lia.
Qed.

(** The grouped series has the product groups of the view, each once, in
    ascending order of product name. *)
Lemma product_groups_sorted df :
  StronglySorted (fun a b => str_ltb a b = true)
    (List.map fst (Spec.product_groups df)).
Proof.
  apply (groupby_sum_sorted str_eqb str_ltb str_eqb_eq str_ltb_trans
           str_ltb_total).
Qed.

Lemma product_groups_NoDup df : NoDup (List.map fst (Spec.product_groups df)).
Proof.
  apply (groupby_sum_NoDup str_eqb str_ltb str_eqb_eq str_ltb_trans
           str_ltb_irrefl str_ltb_total).
Qed.

Lemma product_groups_names df name :
  In name (List.map fst (Spec.product_groups df))
  <-> In (Some name) (List.map Product_Name (rows df)).
Proof. apply (groupby_sum_keys str_eqb str_ltb str_eqb_eq). Qed.

Lemma products_names df name :
  In name (Spec.products df)
  <-> In (Some name) (List.map Product_Name (rows df)).
Proof. unfold Spec.products. rewrite nodup_In. apply In_dropna. Qed.

Lemma product_groups_length df :
  List.length (Spec.product_groups df) = List.length (Spec.products df).
Proof.
  rewrite <- (length_map fst). apply Permutation_length, NoDup_Permutation.
  - apply product_groups_NoDup.
  - apply NoDup_nodup.
  - intros name. rewrite product_groups_names, products_names. tauto.
Qed.

Lemma product_group_iff df g :
  In g (Spec.product_groups df) <-> Spec.product_group df g.
Proof.
  destruct g as [name total]. unfold Spec.product_group. simpl.
  rewrite products_names. split.
  - intros Hin. split.
    + apply product_groups_names. apply (in_map fst) in Hin. exact Hin.
    + revert Hin.
      apply (groupby_sum_total str_eqb str_ltb str_eqb_eq str_ltb_trans
               str_ltb_irrefl str_ltb_total).
  - intros [Hname ->].
    apply (groupby_sum_group str_eqb str_ltb str_eqb_eq str_ltb_trans
             str_ltb_irrefl str_ltb_total). exact Hname.
Qed.

(** The three Top-N selections of the scripts: [top] is the head of a
    decreasing arrangement of the grouped series, the stable one where
    [nlargest] gets more than 10 groups. *)
Lemma top_selection `{Library} (filtered_df : DataFrame) (n : nat)
  (top : Series str) :
  (n = 10%nat
   /\ (ScriptsApp.top_products filtered_df = Ok (Some top)
       \/ App.top10 filtered_df = Ok top))
  \/ (n = 8%nat /\ ScriptsApp.top10 filtered_df = Some top) ->
  exists rest,
    Permutation (top ++ rest) (Spec.product_groups filtered_df)
    /\ StronglySorted (fun a b => ranks_before (snd a) (snd b) = true)
         (top ++ rest)
    /\ List.length top
       = Nat.min n (List.length (Spec.product_groups filtered_df))
    /\ (n = 10%nat ->
        (10 < List.length (Spec.product_groups filtered_df))%nat ->
        top ++ rest = sort_desc (Spec.product_groups filtered_df)).
Proof.
  intros [(-> & Htop) | (-> & Htop)].
  - assert (E : top = nlargest 10 (Spec.product_groups filtered_df)).
    { destruct Htop as [Htop | Htop].
      - unfold ScriptsApp.top_products, getitem, bind in Htop.
        destruct (has_column filtered_df "Product Name"); [|discriminate].
        destruct (has_column filtered_df "Sales"); [|discriminate].
        injection Htop as <-. reflexivity.
      - unfold App.top10, App.require_column, bind in Htop.
        destruct (has_column filtered_df "Product Name"); [|discriminate].
        destruct (has_column filtered_df "Sales"); [|discriminate].
        injection Htop as <-. reflexivity. }
    subst top.
    destruct (nlargest_spec 10 (Spec.product_groups filtered_df))
      as (rest & Hp & Hs & Hl & Hstable).
    exists rest. repeat split; try assumption. intros _. exact Hstable.
  - unfold ScriptsApp.top10 in Htop.
    destruct (has_column filtered_df "Product Name" && has_column filtered_df "Sales");
      [|discriminate].
    injection Htop as <-.
    destruct (head_spec 8 (Spec.product_groups filtered_df))
      as (rest & Hp & Hs & Hl).
    exists rest. repeat split; try assumption. discriminate.
Qed.

(** C7, as stated, fails.  The view has eleven products with equal sales,
    its rows in descending order of product name.  The Top 10 of both
    scripts lists the products in ascending order of name: [A], of the last
    row of the view, stands first, and [K], of its first row, is the one
    left out. *)
Lemma top_n_view_order_counterexample :
  App.top10 (H := Sample.library) Sample.reversed = Ok Sample.reversed_top
  /\ ScriptsApp.top_products (H := Sample.library) Sample.reversed
     = Ok (Some Sample.reversed_top)
  /\ List.map Product_Name (firstn 1 (rows Sample.reversed)) = [Some (lit "K")]
  /\ Spec.product_group Sample.reversed (lit "K", 5%float)
  /\ ~ In (lit "K") (List.map fst Sample.reversed_top)
  /\ Spec.tie (lit "A", 5%float) (lit "B", 5%float)
  /\ Spec.first_row (lit "A") (rows Sample.reversed) = 10%nat
  /\ Spec.first_row (lit "B") (rows Sample.reversed) = 9%nat
  /\ ~ Spec.ties_in_view_order Sample.reversed Sample.reversed_top.
Proof.
  assert (Htie : Spec.tie (lit "A", 5%float) (lit "B", 5%float))
    by (split; right; reflexivity).
  split; [vm_compute; reflexivity|].
  split; [vm_compute; reflexivity|].
  split; [reflexivity|].
  split; [split; [vm_compute; tauto | vm_compute; reflexivity]|].
  split.
  { simpl. intros Hin.
    repeat (destruct Hin as [Hin | Hin]; [discriminate|]). exact Hin. }
  split; [exact Htie|].
  split; [reflexivity | split; [reflexivity|]].
  intros Hclaim. unfold Sample.reversed_top in Hclaim. simpl in Hclaim.
  inversion Hclaim as [|? ? _ Hall]; subst.
  apply Forall_inv in Hall. specialize (Hall Htie).
  vm_compute in Hall. lia.
Qed.

(** With no more than 10 products the order of products with equal sales is
    the library's: the same view under two libraries. *)
Lemma few_products_tie_order_is_open :
  ScriptsApp.top_products (H := Sample.library) Sample.tie
  = Ok (Some [(lit "C", 7%float); (lit "A", 5%float); (lit "B", 5%float)])
  /\ ScriptsApp.top_products (H := Sample.exchanging Sample.library) Sample.tie
     = Ok (Some [(lit "C", 7%float); (lit "B", 5%float); (lit "A", 5%float)]).
Proof. split; vm_compute; reflexivity. Qed.

(** From the head of a decreasing arrangement of the grouped series to the
    words of the specification. *)
Lemma top_n_of_selection (df : DataFrame) (n : nat) (top rest : Series str) :
  Permutation (top ++ rest) (Spec.product_groups df) ->
  StronglySorted (fun a b => ranks_before (snd a) (snd b) = true) (top ++ rest) ->
  List.length top = Nat.min n (List.length (Spec.product_groups df)) ->
  Spec.top_n df n top.
Proof.
  intros Hperm Hsorted Hlen. rewrite product_groups_length in Hlen.
  destruct (StronglySorted_app _ _ _ Hsorted) as (Hs1 & _ & Hcross).
  split; [|split; [|split; [|split; [|split]]]].
  - intros g Hg. apply product_group_iff, (Permutation_in _ Hperm), in_or_app.
    left. exact Hg.
  - apply (NoDup_app_remove_r _ (List.map fst rest)). rewrite <- map_app.
    apply (Permutation_NoDup (Permutation_sym (Permutation_map fst Hperm))).
    apply product_groups_NoDup.
  - exact Hlen.
  - revert Hs1. apply StronglySorted_impl. intros a b. apply before_ranks.
  - intros g Hg Hn a Ha. apply before_ranks, Hcross; [exact Ha|].
    apply product_group_iff in Hg.
    apply (Permutation_in _ (Permutation_sym Hperm)), in_app_or in Hg. tauto.
  - intros Hfew g Hg. apply product_group_iff in Hg.
    apply (Permutation_in _ (Permutation_sym Hperm)) in Hg.
    pose proof (Permutation_length Hperm) as Hl.
    rewrite length_app, Hlen, product_groups_length in Hl.
    destruct rest; [rewrite app_nil_r in Hg; exact Hg|].
    cbn [List.length] in Hl. lia.
Qed.

Lemma ties_of_selection (df : DataFrame) (top rest : Series str) :
  top ++ rest = sort_desc (Spec.product_groups df) ->
  Spec.ties_by_name df top.
Proof.
  intros Hstable.
  pose proof (sort_desc_ties (fun a b => str_ltb a b = true) _
                (product_groups_sorted df)) as Hties.
  rewrite <- Hstable in Hties.
  destruct (StronglySorted_app _ _ _ Hties) as (Ht1 & _ & Htcross).
  split; [exact Ht1|].
  intros g Hg Hnot a Ha Htie. apply Htcross; [exact Ha | | exact Htie].
  apply product_group_iff in Hg.
  apply (Permutation_in _ (Permutation_sym (sort_desc_perm _))) in Hg.
  rewrite <- Hstable in Hg. apply in_app_or in Hg. tauto.
Qed.

(** C7, amended.  On a view that has product names and sales the three
    Top-N selections of the scripts return: the Top 10 of [src/app.py] and
    of [src/scripts/app.py], which are the same, and the Top Products panel
    of [src/scripts/app.py], where [N] is 8.  What they return are product
    groups of the view (a product with the float64 sum of the sales of its
    rows), no product twice, [N] of them or all of them when the view has no
    more than [N] products, in decreasing order of summed sales, no group
    left out having a larger sum than a group returned.  Groups with equal
    sums are not in the order of the view: where the Top 10 is taken of more
    than 10 products they stand in ascending order of product name, and of
    such groups the ones with the smaller names are returned; in the other
    cases their order is left to the library's sort. *)
Theorem top_n_products `{Library} (filtered_df : DataFrame) :
  has_column filtered_df "Product Name" = true ->
  has_column filtered_df "Sales" = true ->
  exists top top8,
    App.top10 filtered_df = Ok top
    /\ ScriptsApp.top_products filtered_df = Ok (Some top)
    /\ ScriptsApp.top10 filtered_df = Some top8
    /\ Spec.top_n filtered_df 10 top
    /\ Spec.top_n filtered_df 8 top8
    /\ ((10 < List.length (Spec.products filtered_df))%nat ->
        Spec.ties_by_name filtered_df top).
Proof.
  intros Hname Hsales.
  assert (E10 : App.top10 filtered_df
                = Ok (nlargest 10 (Spec.product_groups filtered_df))).
  { unfold App.top10, App.require_column, bind. rewrite Hname, Hsales.
    reflexivity. }
  assert (E10' : ScriptsApp.top_products filtered_df
                 = Ok (Some (nlargest 10 (Spec.product_groups filtered_df)))).
  { unfold ScriptsApp.top_products, getitem, bind. rewrite Hname, Hsales.
    reflexivity. }
  assert (E8 : ScriptsApp.top10 filtered_df
               = Some (firstn 8 (sort_values (Spec.product_groups filtered_df)))).
  { unfold ScriptsApp.top10. rewrite Hname, Hsales. reflexivity. }
  destruct (top_selection filtered_df 10 _ (or_introl (conj eq_refl (or_intror E10))))
    as (rest & Hperm & Hsorted & Hlen & Hstable).
  destruct (top_selection filtered_df 8 _ (or_intror (conj eq_refl E8)))
    as (rest8 & Hperm8 & Hsorted8 & Hlen8 & _).
  exists (nlargest 10 (Spec.product_groups filtered_df)),
         (firstn 8 (sort_values (Spec.product_groups filtered_df))).
  split; [exact E10 | split; [exact E10' | split; [exact E8|]]].
  split; [exact (top_n_of_selection _ _ _ _ Hperm Hsorted Hlen)|].
  split; [exact (top_n_of_selection _ _ _ _ Hperm8 Hsorted8 Hlen8)|].
  intros Hmany. rewrite <- product_groups_length in Hmany.
  exact (ties_of_selection _ _ _ (Hstable eq_refl Hmany)).
Qed.

Lemma top_n_products_witness :
  has_column Sample.tie "Product Name" = true
  /\ has_column Sample.tie "Sales" = true
  /\ exists top top8,
    App.top10 (H := Sample.library) Sample.tie = Ok top
    /\ ScriptsApp.top_products (H := Sample.library) Sample.tie = Ok (Some top)
    /\ ScriptsApp.top10 (H := Sample.library) Sample.tie = Some top8
    /\ Spec.top_n Sample.tie 10 top
    /\ Spec.top_n Sample.tie 8 top8
    /\ ((10 < List.length (Spec.products Sample.tie))%nat ->
        Spec.ties_by_name Sample.tie top).
Proof.
  split; [reflexivity | split; [reflexivity|]].
  exact (top_n_products (H := Sample.library) Sample.tie eq_refl eq_refl).
Defined.

(** The sample view of three products: [C] with sales 7, then [A] and [B],
    which tie at 5; the view of eleven tied products with its Top 10. *)
Lemma top_n_sample :
  App.top10 (H := Sample.library) Sample.tie
  = Ok [(lit "C", 7%float); (lit "A", 5%float); (lit "B", 5%float)]
  /\ ScriptsApp.top10 (H := Sample.library) Sample.tie
     = Some [(lit "C", 7%float); (lit "A", 5%float); (lit "B", 5%float)]
  /\ App.top10 (H := Sample.library) Sample.reversed = Ok Sample.reversed_top.
Proof. repeat split; vm_compute; reflexivity. Qed.

(* ================================================================== *)
(** ** UTF-8 *)

Ltac lia_div := zify; Z.to_euclidean_division_equations; lia.

Ltac decide_tests :=
  repeat match goal with
         | |- context [(?a <? ?b)%N] =>
             first [ replace (a <? b)%N with true
                       by (symmetry; apply N.ltb_lt; lia_div)
                   | replace (a <? b)%N with false
                       by (symmetry; apply N.ltb_ge; lia_div) ]
         | |- context [(?a <=? ?b)%N] =>
             first [ replace (a <=? b)%N with true
                       by (symmetry; apply N.leb_le; lia_div)
                   | replace (a <=? b)%N with false
                       by (symmetry; apply N.leb_gt; lia_div) ]
         end.

Lemma Some_inj {A} (a b : A) : Some a = Some b -> a = b.
Proof. congruence. Qed.

(** Decoding the bytes of one encoded code point gives the code point back. *)
Lemma utf8_decode_encode_char (c : codepoint) (bs rest : list N) :
  utf8_encode_char c = Some bs ->
  utf8_decode_N (bs ++ rest) = option_map (cons c) (utf8_decode_N rest).
Proof.
  unfold utf8_encode_char.
  destruct (N.ltb_spec c 128) as [H1 | H1].
  { intros E. apply Some_inj in E. subst bs. simpl.
    decide_tests. reflexivity. }
  destruct (N.ltb_spec c 2048) as [H2 | H2].
  { intros E. apply Some_inj in E. subst bs.
    remember (192 + c / 64)%N as b0 eqn:E0.
    remember (128 + c mod 64)%N as b1 eqn:E1.
    simpl. unfold is_continuation. decide_tests. simpl.
    replace ((b0 - 192) * 64 + (b1 - 128))%N with c by lia_div.
    reflexivity. }
  destruct (N.ltb_spec c 65536) as [H3 | H3].
  { unfold is_surrogate at 1.
    destruct (N.leb_spec 55296 c) as [S1 | S1];
      [destruct (N.leb_spec c 57343) as [S2 | S2]|]; cbn [andb];
      try discriminate;
      intros E; apply Some_inj in E; subst bs;
      remember (224 + c / 4096)%N as b0 eqn:E0;
      remember (128 + (c / 64) mod 64)%N as b1 eqn:E1;
      remember (128 + c mod 64)%N as b2 eqn:E2;
      simpl; unfold is_continuation, is_surrogate;
      replace ((b0 - 224) * 4096 + (b1 - 128) * 64 + (b2 - 128))%N with c
        by lia_div;
      decide_tests; reflexivity. }
  destruct (N.leb_spec c 1114111) as [H4 | H4]; [|discriminate].
  intros E. apply Some_inj in E. subst bs.
  remember (240 + c / 262144)%N as b0 eqn:E0.
  remember (128 + (c / 4096) mod 64)%N as b1 eqn:E1.
  remember (128 + (c / 64) mod 64)%N as b2 eqn:E2.
  remember (128 + c mod 64)%N as b3 eqn:E3.
  simpl. unfold is_continuation.
  replace ((b0 - 240) * 262144 + (b1 - 128) * 4096 + (b2 - 128) * 64
           + (b3 - 128))%N with c by lia_div.
  decide_tests. reflexivity.
Qed.

Lemma utf8_decode_encode_N (s : str) (bs : list N) :
  utf8_encode_N s = Some bs -> utf8_decode_N bs = Some s.
Proof.
  revert bs. induction s as [|c s IH]; simpl; intros bs E.
  - injection E as <-. reflexivity.
  - destruct (utf8_encode_char c) as [b|] eqn:Ec; [|discriminate].
    destruct (utf8_encode_N s) as [r|]; [|discriminate].
    injection E as <-.
    rewrite (utf8_decode_encode_char _ _ _ Ec), (IH r eq_refl). reflexivity.
Qed.

Lemma utf8_encode_char_bytes (c : codepoint) (bs : list N) :
  utf8_encode_char c = Some bs -> Forall (fun b => (b <= 255)%N) bs.
Proof.
  unfold utf8_encode_char.
  destruct (N.ltb_spec c 128) as [H1 | H1].
  { intros E. apply Some_inj in E. subst bs. repeat constructor. lia. }
  destruct (N.ltb_spec c 2048) as [H2 | H2].
  { intros E. apply Some_inj in E. subst bs. repeat constructor; lia_div. }
  destruct (N.ltb_spec c 65536) as [H3 | H3].
  { destruct (is_surrogate c); [discriminate|].
    intros E. apply Some_inj in E. subst bs. repeat constructor; lia_div. }
  destruct (N.leb_spec c 1114111) as [H4 | H4]; [|discriminate].
  intros E. apply Some_inj in E. subst bs. repeat constructor; lia_div.
Qed.

Lemma utf8_encode_N_bytes (s : str) (bs : list N) :
  utf8_encode_N s = Some bs -> Forall (fun b => (b <= 255)%N) bs.
Proof.
  revert bs. induction s as [|c s IH]; simpl; intros bs E.
  - injection E as <-. constructor.
  - destruct (utf8_encode_char c) as [b|] eqn:Ec; [|discriminate].
    destruct (utf8_encode_N s) as [r|]; [|discriminate].
    injection E as <-. apply Forall_app. split.
    + exact (utf8_encode_char_bytes _ _ Ec).
    + exact (IH r eq_refl).
Qed.

Lemma to_N_byte_of_N (n : N) : (n <= 255)%N -> Byte.to_N (byte_of_N n) = n.
Proof.
  intros Hn. unfold byte_of_N. destruct (Byte.of_N n) as [b|] eqn:E.
  - apply Byte.to_of_N. exact E.
  - apply Byte.of_N_None_iff in E. lia.
Qed.

(** Decoding what [encode] wrote gives the text back. *)
Lemma utf8_decode_encode (s : str) (data : bytes) :
  utf8_encode s = Some data -> utf8_decode data = Some s.
Proof.
  unfold utf8_encode, utf8_decode.
  destruct (utf8_encode_N s) as [bs|] eqn:E; [|discriminate].
  intros D. injection D as <-.
  rewrite map_map, <- (utf8_decode_encode_N _ _ E). f_equal.
  pose proof (utf8_encode_N_bytes _ _ E) as Hb.
  clear E. induction Hb as [|b bs Hb _ IH]; simpl; [reflexivity|].
  rewrite to_N_byte_of_N by exact Hb. rewrite IH. reflexivity.
Qed.

(** Every text of scalar values can be encoded. *)
Lemma utf8_encode_total (s : str) :
  Spec.encodable s -> exists data, utf8_encode s = Some data.
Proof.
  unfold Spec.encodable, utf8_encode. intros Hs.
  assert (Hn : exists bs, utf8_encode_N s = Some bs).
  { induction s as [|c s IH]; simpl; [eauto|].
    simpl in Hs. apply andb_true_iff in Hs. destruct Hs as [Hc Hs].
    destruct (IH Hs) as [r ->].
    unfold Spec.scalar in Hc. apply andb_true_iff in Hc. destruct Hc as [Hmax Hsur].
    unfold utf8_encode_char. rewrite Hmax.
    destruct (is_surrogate c); [discriminate|].
    destruct (c <? 128)%N; [eauto|].
    destruct (c <? 2048)%N; [eauto|].
    destruct (c <? 65536)%N; eauto. }
  destruct Hn as [bs ->]. simpl. eauto.
Qed.

(* ================================================================== *)
(** ** The Exporter: writing and reading back *)

Section RoundTrip.
Variable quote_cr : bool.

Lemma not_special (c : codepoint) :
  special quote_cr c = false ->
  (c =? comma)%N = false /\ (c =? dquote)%N = false /\ (c =? newline)%N = false.
Proof.
  unfold special. rewrite !orb_false_iff. tauto.
Qed.

(** Inside quotes: the escaped text, then the closing quote. *)
Lemma reader_quoted (f : str) : forall field record tail,
  reader InQuoted field record (escape f ++ dquote :: tail)
  = reader AfterQuote (rev f ++ field) record tail.
Proof.
  induction f as [|c f IH]; intros field record tail.
  - reflexivity.
  - simpl escape. destruct (c =? dquote)%N eqn:E.
    + apply N.eqb_eq in E. subst c. simpl. rewrite IH.
      rewrite <- app_assoc. reflexivity.
    + simpl. rewrite E, IH. rewrite <- app_assoc. reflexivity.
Qed.

(** Outside quotes: text without a comma or a line feed. *)
Lemma reader_unquoted (f : str) : forall field record tail,
  existsb (special quote_cr) f = false ->
  reader InField field record (f ++ tail)
  = reader InField (rev f ++ field) record tail.
Proof.
  induction f as [|c f IH]; intros field record tail Hf.
  - reflexivity.
  - simpl in Hf. apply orb_false_iff in Hf. destruct Hf as [Hc Hf].
    destruct (not_special _ Hc) as (Hcomma & _ & Hnl).
    simpl. rewrite Hnl, Hcomma, (IH _ _ _ Hf), <- app_assoc. reflexivity.
Qed.

Lemma quoted_app (f tail : str) :
  quoted f ++ tail = dquote :: escape f ++ dquote :: tail.
Proof. unfold quoted. simpl. rewrite <- app_assoc. reflexivity. Qed.

Lemma reader_open_quote (st : ReaderState) record text :
  at_start st ->
  reader st [] record (dquote :: text) = reader InQuoted [] record text.
Proof. intros [-> | ->]; reflexivity. Qed.

(** A written field followed by a comma. *)
Lemma reader_field_comma (st : ReaderState) (f : str) record tail :
  at_start st ->
  reader st [] record (write_field quote_cr f ++ comma :: tail)
  = reader StartField [] (f :: record) tail.
Proof.
  intros Hst. unfold write_field.
  destruct (existsb (special quote_cr) f) eqn:Hf.
  - rewrite quoted_app, (reader_open_quote _ _ _ Hst), reader_quoted. simpl.
    rewrite app_nil_r, rev_involutive. reflexivity.
  - destruct f as [|c f].
    + destruct Hst as [-> | ->]; reflexivity.
    + simpl in Hf. apply orb_false_iff in Hf. destruct Hf as [Hc Hf].
      destruct (not_special _ Hc) as (Hcomma & Hq & Hnl).
      assert (E : reader st [] record ((c :: f) ++ comma :: tail)
                  = reader InField [c] record (f ++ comma :: tail))
        by (destruct Hst as [-> | ->]; simpl; rewrite Hnl, Hq, Hcomma;
            reflexivity).
      rewrite E, (reader_unquoted _ _ _ _ Hf). simpl.
      rewrite rev_app_distr, rev_involutive. reflexivity.
Qed.

(** A written field followed by the line feed that ends the record; a
    record that is one empty field is not written this way. *)
Lemma reader_field_newline (st : ReaderState) (f : str) record tail :
  st = StartField \/ (st = StartRecord /\ f <> []) ->
  reader st [] record (write_field quote_cr f ++ newline :: tail)
  = rev (f :: record) :: reader StartRecord [] [] tail.
Proof.
  intros Hst. unfold write_field.
  destruct (existsb (special quote_cr) f) eqn:Hf.
  - rewrite quoted_app, reader_open_quote, reader_quoted
      by (destruct Hst as [-> | [-> _]]; [right | left]; reflexivity).
    simpl. unfold end_record. rewrite app_nil_r, rev_involutive. reflexivity.
  - destruct f as [|c f].
    + destruct Hst as [-> | [_ Hne]]; [reflexivity | congruence].
    + simpl in Hf. apply orb_false_iff in Hf. destruct Hf as [Hc Hf].
      destruct (not_special _ Hc) as (Hcomma & Hq & Hnl).
      assert (E : reader st [] record ((c :: f) ++ newline :: tail)
                  = reader InField [c] record (f ++ newline :: tail))
        by (destruct Hst as [-> | [-> _]]; simpl; rewrite Hnl, Hq, Hcomma;
            reflexivity).
      rewrite E, (reader_unquoted _ _ _ _ Hf). simpl.
      unfold end_record. rewrite rev_app_distr, rev_involutive. reflexivity.
Qed.

(** The fields of one record, joined, then the line feed. *)
Lemma reader_fields (fields : list str) : forall st record tail,
  fields <> [] ->
  st = StartField \/ (st = StartRecord /\ fields <> [ [] ]) ->
  reader st [] record (join_fields quote_cr fields ++ newline :: tail)
  = (rev record ++ fields) :: reader StartRecord [] [] tail.
Proof.
  induction fields as [|f fields IH]; intros st record tail Hne Hst;
    [congruence|].
  destruct fields as [|f2 fields].
  - simpl join_fields. rewrite reader_field_newline.
    + reflexivity.
    + destruct Hst as [-> | [-> Hf]]; [left; reflexivity|].
      right. split; [reflexivity | intros ->; apply Hf; reflexivity].
  - change (join_fields quote_cr (f :: f2 :: fields))
      with (write_field quote_cr f ++ comma :: join_fields quote_cr (f2 :: fields)).
    rewrite <- app_assoc. simpl app at 2.
    rewrite reader_field_comma
      by (destruct Hst as [-> | [-> _]]; [right | left]; reflexivity).
    rewrite IH by (try discriminate; left; reflexivity).
    simpl. rewrite <- app_assoc. reflexivity.
Qed.

Lemma reader_writerow (fields : list str) (tail : str) :
  fields <> [] ->
  reader StartRecord [] [] (writerow quote_cr fields ++ tail)
  = fields :: reader StartRecord [] [] tail.
Proof.
  intros Hne. unfold writerow.
  destruct fields as [|f fields]; [congruence|].
  destruct f as [|c f]; [destruct fields as [|f2 fields]|].
  - reflexivity.
  - rewrite <- app_assoc. simpl app at 2.
    rewrite reader_fields
      by first [discriminate | right; split; [reflexivity | discriminate]].
    reflexivity.
  - rewrite <- app_assoc. simpl app at 2.
    rewrite reader_fields
      by first [discriminate | right; split; [reflexivity | discriminate]].
    reflexivity.
Qed.

(** Reading what the writer wrote gives the records back. *)
Lemma reader_writerows (records : list (list str)) :
  Forall (fun fields => fields <> []) records ->
  reader StartRecord [] [] (writerows quote_cr records) = records.
Proof.
  unfold writerows. induction 1 as [|fields records Hne _ IH]; simpl.
  - reflexivity.
  - rewrite (reader_writerow _ _ Hne), IH. reflexivity.
Qed.

Lemma read_to_csv `{Library} (df : DataFrame) :
  columns df <> [] ->
  read_text (to_csv quote_cr df) = Some (mkTable (columns df) (Spec.cells df)).
Proof.
  intros Hne. unfold read_text, to_csv. rewrite reader_writerows; [reflexivity|].
  constructor; [exact Hne|].
  apply Forall_forall. intros fields Hf. apply in_map_iff in Hf.
  destruct Hf as (r & <- & _). destruct (columns df); [congruence | discriminate].
Qed.
End RoundTrip.

(** C9. Decoding the bytes of the export (as UTF-8, then with a reader for
    the writer's dialect) gives a table with the labels of the view and one
    record per row of the view, each record the cells of its row; this holds
    whichever way the writer treats a carriage return.  The export exists
    whenever its text is made of Unicode scalar values.  A view has at least
    one column, as every table the Loader reads has. *)
Theorem export_round_trip `{Library} (quote_cr : bool) (filtered_df : DataFrame) :
  columns filtered_df <> [] ->
  (forall data,
     ScriptsApp.csv quote_cr filtered_df = Ok data
     \/ App.csv quote_cr filtered_df = Ok data ->
     exists table,
       decode_csv data = Some table
       /\ labels table = columns filtered_df
       /\ records table = Spec.cells filtered_df
       /\ List.length (records table) = List.length (rows filtered_df))
  /\ (Spec.encodable (to_csv quote_cr filtered_df) ->
      exists data, ScriptsApp.csv quote_cr filtered_df = Ok data
                   /\ App.csv quote_cr filtered_df = Ok data).
Proof.
  intros Hne. split.
  - intros data Hdata.
    assert (E : utf8_encode (to_csv quote_cr filtered_df) = Some data).
    { unfold ScriptsApp.csv, App.csv in Hdata.
      destruct (utf8_encode (to_csv quote_cr filtered_df));
        destruct Hdata as [D | D]; congruence. }
    exists (mkTable (columns filtered_df) (Spec.cells filtered_df)).
    unfold decode_csv. rewrite (utf8_decode_encode _ _ E).
    rewrite (read_to_csv quote_cr _ Hne). simpl.
    repeat split. unfold Spec.cells. apply length_map.
  - intros Henc. destruct (utf8_encode_total _ Henc) as [data E].
    exists data. unfold ScriptsApp.csv, App.csv. rewrite E. auto.
Qed.

Lemma export_round_trip_witness :
  columns Sample.awkward <> []
  /\ exists data table,
       Sample.scripts_csv false Sample.awkward = Ok data
       /\ decode_csv data = Some table
       /\ labels table = columns Sample.awkward
       /\ records table = Sample.cells Sample.awkward
       /\ List.length (records table) = 2%nat.
Proof.
  assert (Hne : columns Sample.awkward <> []) by discriminate.
  split; [exact Hne|].
  destruct (proj2 (export_round_trip (H := Sample.library) false
                     Sample.awkward Hne) eq_refl)
    as (data & Hdata & _).
  destruct (proj1 (export_round_trip (H := Sample.library) false
                     Sample.awkward Hne) data (or_introl Hdata))
    as (table & Hdec & Hlab & Hrec & Hlen).
  exists data, table. repeat split; assumption.
Defined.

(** What the sample export looks like with the older writer: the carriage
    return sits inside the quotes of its field, the missing region and the
    missing profit are empty fields. *)
Lemma export_sample_text :
  to_csv (H := Sample.library) false
    (mkFrame [lit "Region"; lit "Product Name"; lit "Profit"]
       (rows Sample.awkward))
  = lit "Region,Product Name,Profit" ++ [10%N]
    ++ [44; 34; 97; 44; 34; 34; 13; 10; 98; 34; 44; 10]%N
    ++ lit "West,Desk,1.5" ++ [10%N].
Proof. vm_compute. reflexivity. Qed.

(* ================================================================== *)
(** ** More of the Loader *)

Lemma parse_text_no_decode_error `{Library} (text : str) :
  parse_text text <> Raise UnicodeDecodeError.
Proof. unfold parse_text. destruct (parse_table text); discriminate. Qed.

(** Neither script ever fails with a decode error: Latin-1 accepts every
    byte, and [src/scripts/app.py] falls back to it. *)
Theorem loaders_never_raise_decode_error `{Library} (file : bytes) :
  snd (ScriptsApp.read_file file) <> Raise UnicodeDecodeError
  /\ ScriptsApp.load_data file <> Raise UnicodeDecodeError
  /\ snd (App.read_file file) <> Raise UnicodeDecodeError
  /\ App.load_data file <> Raise UnicodeDecodeError.
Proof.
  assert (Hs : snd (ScriptsApp.read_file file) <> Raise UnicodeDecodeError).
  { destruct (utf8_decode file) as [text|] eqn:E.
    - rewrite (scripts_read_file_utf8 _ _ E). apply parse_text_no_decode_error.
    - rewrite (scripts_read_file_latin1 _ E). apply parse_text_no_decode_error. }
  assert (Ha : snd (App.read_file file) <> Raise UnicodeDecodeError)
    by apply parse_text_no_decode_error.
  repeat split; try assumption.
  - unfold ScriptsApp.load_data, bind.
    destruct (snd (ScriptsApp.read_file file)) as [raw|e]; [discriminate|].
    congruence.
  - unfold App.load_data, App.require_column, bind.
    destruct (snd (App.read_file file)) as [raw|e]; [|congruence].
    repeat match goal with
           | |- context [if ?b then _ else _] => destruct b
           end; discriminate.
Qed.

Lemma utf8_decode_N_ascii (l : list N) :
  forallb (fun b => (b <? 128)%N) l = true -> utf8_decode_N l = Some l.
Proof.
  induction l as [|b l IH]; simpl; [reflexivity|].
  intros Hl. apply andb_true_iff in Hl. destruct Hl as [Hb Hl].
  rewrite Hb, (IH Hl). reflexivity.
Qed.

Lemma utf8_decode_ascii (file : bytes) :
  Spec.ascii_only file -> utf8_decode file = Some (latin1_decode file).
Proof.
  unfold Spec.ascii_only, utf8_decode, latin1_decode. intros Hf.
  apply utf8_decode_N_ascii.
  induction file as [|b file IH]; simpl in *; [reflexivity|].
  apply andb_true_iff in Hf. destruct Hf as [Hb Hf].
  rewrite Hb, (IH Hf). reflexivity.
Qed.

Lemma app_load_data_ok `{Library} file df :
  App.load_data file = Ok df ->
  exists raw,
    snd (App.read_file file) = Ok raw
    /\ (forall c, In c Spec.required ->
                  str_in (lit c) (List.map strip (columns raw)) = true)
    /\ df = mkFrame (App.loaded_columns (List.map strip (columns raw)))
              (List.map
                 (App.load_row
                    (guess_datetime_format (List.map raw_Order_Date (rows raw)))
                    (guess_datetime_format (List.map raw_Ship_Date (rows raw))))
                 (rows raw)).
Proof.
  unfold App.load_data, App.require_column, has_column, bind.
  destruct (snd (App.read_file file)) as [raw|e]; [|discriminate].
  cbn [columns rows].
  destruct (str_in (lit "Order Date") _) eqn:E1; [|discriminate].
  destruct (str_in (lit "Ship Date") _) eqn:E2; [|discriminate].
  destruct (str_in (lit "Profit") _) eqn:E3; [|discriminate].
  destruct (str_in (lit "Sales") _) eqn:E4; [|discriminate].
  intros E. injection E as <-. exists raw. repeat split.
  intros c [<- | [<- | [<- | [<- | []]]]]; assumption.
Qed.

(** On an ASCII file both scripts hand the same text to the tokenizer, and a
    file that [src/app.py] loads is loaded by [src/scripts/app.py] as the same
    table. *)
Theorem loaders_agree_on_ascii `{Library} (file : bytes) :
  Spec.ascii_only file ->
  snd (ScriptsApp.read_file file) = snd (App.read_file file)
  /\ forall df, App.load_data file = Ok df -> ScriptsApp.load_data file = Ok df.
Proof.
  intros Hascii. pose proof (utf8_decode_ascii _ Hascii) as Hdec.
  assert (Hread : snd (ScriptsApp.read_file file) = snd (App.read_file file)).
  { rewrite (scripts_read_file_utf8 _ _ Hdec). reflexivity. }
  split; [exact Hread|].
  intros df Hload. destruct (app_load_data_ok _ _ Hload) as (raw & Hraw & Hreq & ->).
  unfold ScriptsApp.load_data, bind. rewrite Hread, Hraw.
  pose proof (Hreq "Order Date"%string (or_introl eq_refl)) as H1.
  pose proof (Hreq "Ship Date"%string (or_intror (or_introl eq_refl))) as H2.
  pose proof (Hreq "Profit"%string
                (or_intror (or_intror (or_introl eq_refl)))) as H3.
  pose proof (Hreq "Sales"%string
                (or_intror (or_intror (or_intror (or_introl eq_refl))))) as H4.
  f_equal. f_equal.
  - unfold ScriptsApp.loaded_columns, App.loaded_columns. rewrite H3, H4. simpl.
    destruct (str_in (lit "ProfitMargin") _); reflexivity.
  - apply map_ext. intros r. unfold ScriptsApp.load_row, App.load_row.
    rewrite H1, H2, H3, H4. reflexivity.
Qed.

Lemma loaders_agree_on_ascii_witness :
  Spec.ascii_only Sample.file
  /\ Sample.app_load_data Sample.file = Ok Sample.app_loaded
  /\ Sample.scripts_load_data Sample.file = Ok Sample.app_loaded.
Proof.
  split; [reflexivity | split; [reflexivity|]].
  exact (proj2 (loaders_agree_on_ascii (H := Sample.library) Sample.file eq_refl)
           Sample.app_loaded eq_refl).
Defined.




(** White space at the ends of a label. *)
Lemma lstrip_suffix (s : str) :
  exists p, s = p ++ lstrip s /\ forallb is_space p = true.
Proof.
  induction s as [|c s (p & Hp & Hsp)]; simpl.
  - exists []. split; reflexivity.
  - destruct (is_space c) eqn:E.
    + exists (c :: p). simpl. rewrite E, Hsp. split; [congruence | reflexivity].
    + exists []. split; reflexivity.
Qed.

Lemma lstrip_head (s : str) :
  match lstrip s with [] => True | c :: _ => is_space c = false end.
Proof.
  induction s as [|c s IH]; simpl; [exact I|].
  destruct (is_space c) eqn:E; [exact IH | exact E].
Qed.

Lemma lstrip_fixed (s : str) :
  match s with [] => True | c :: _ => is_space c = false end -> lstrip s = s.
Proof. destruct s as [|c s]; simpl; [reflexivity | intros ->; reflexivity]. Qed.

Lemma strip_trimmed (s : str) : Spec.trimmed (strip s).
Proof.
  unfold Spec.trimmed, strip. rewrite rev_involutive.
  set (a := lstrip s). set (b := lstrip (rev a)).
  split.
  - (* the head of [rev b] is the head of [a] *)
    destruct (lstrip_suffix (rev a)) as (p & Hp & Hsp). fold b in Hp.
    assert (Ha : a = rev b ++ rev p).
    { rewrite <- (rev_involutive a), Hp, rev_app_distr. reflexivity. }
    apply lstrip_fixed. pose proof (lstrip_head s) as Hh. fold a in Hh.
    rewrite Ha in Hh. destruct (rev b); [exact I | exact Hh].
  - apply lstrip_fixed. exact (lstrip_head (rev a)).
Qed.

(** Every label of a loaded table is free of white space at both ends. *)
Theorem loaded_labels_are_trimmed `{Library} (file : bytes) (df : DataFrame) :
  App.load_data file = Ok df \/ ScriptsApp.load_data file = Ok df ->
  forall c, In c (columns df) -> Spec.trimmed c.
Proof.
  assert (Htrim : forall cols c, In c (List.map strip cols) -> Spec.trimmed c).
  { intros cols c Hc. apply in_map_iff in Hc. destruct Hc as (l & <- & _).
    apply strip_trimmed. }
  assert (Hpm : Spec.trimmed (lit "ProfitMargin")) by (split; reflexivity).
  intros [Hload | Hload] c Hc.
  - destruct (app_load_data_ok _ _ Hload) as (raw & _ & _ & ->).
    cbn [columns] in Hc. unfold App.loaded_columns in Hc.
    destruct (str_in _ _); [exact (Htrim _ _ Hc)|].
    apply in_app_or in Hc. destruct Hc as [Hc | [<- | []]];
      [exact (Htrim _ _ Hc) | exact Hpm].
  - destruct (scripts_load_data_rows _ _ Hload)
      as (raw & cols & fo & fs & _ & -> & Hcols & _).
    rewrite Hcols in Hc. unfold ScriptsApp.loaded_columns in Hc.
    destruct (_ && _); [|exact (Htrim _ _ Hc)].
    apply in_app_or in Hc. destruct Hc as [Hc | [<- | []]];
      [exact (Htrim _ _ Hc) | exact Hpm].
Qed.

Lemma loaded_labels_are_trimmed_witness :
  Sample.app_load_data Sample.file = Ok Sample.app_loaded
  /\ In (lit "Ship Date") (columns Sample.app_loaded)
  /\ Spec.trimmed (lit "Ship Date").
Proof.
  assert (Hin : In (lit "Ship Date") (columns Sample.app_loaded))
    by (right; left; reflexivity).
  split; [reflexivity | split; [exact Hin|]].
  exact (loaded_labels_are_trimmed (H := Sample.library) Sample.file
           Sample.app_loaded (or_introl eq_refl) _ Hin).
Defined.

(* ================================================================== *)
(** ** The sidebar *)

Lemma In_unique (l : list str) (x : str) : In x (unique l) <-> In x l.
Proof.
  induction l as [|y l IH]; simpl; [tauto|].
  rewrite filter_In, IH, negb_true_iff. split.
  - intros [E | [Hx _]]; auto.
  - intros [E | Hx]; [auto|].
    destruct (str_eqb y x) eqn:Eyx.
    + apply str_eqb_eq in Eyx. auto.
    + auto.
Qed.

Lemma NoDup_unique (l : list str) : NoDup (unique l).
Proof.
  induction l as [|y l IH]; simpl; constructor.
  - rewrite filter_In, negb_true_iff. intros [_ E].
    rewrite (proj2 (str_eqb_eq y y) eq_refl) in E. discriminate.
  - apply NoDup_filter. exact IH.
Qed.

Lemma options_spec (df : DataFrame) (present : bool) (f : Row -> option str) :
  NoDup (if present then unique (dropna (List.map f (rows df))) else [])
  /\ forall x,
       In x (if present then unique (dropna (List.map f (rows df))) else [])
       <-> present = true /\ exists r, In r (rows df) /\ f r = Some x.
Proof.
  destruct present.
  - split; [apply NoDup_unique|].
    intros x. rewrite In_unique, In_dropna, in_map_iff. split.
    + intros (r & H1 & H2). eauto.
    + intros (_ & r & H1 & H2). eauto.
  - split; [constructor|].
    intros x. split; [intros [] | intros [E _]; discriminate].
Qed.

Lemma multiselect_options_NoDup (df : DataFrame) : NoDup (ScriptsApp.regions df).
Proof.
  unfold ScriptsApp.regions.
  exact (proj1 (options_spec df (has_column df "Region") Region)).
Qed.

(** The options of the three multiselect widgets of [src/scripts/app.py]:
    every value present in the column, each once, a missing value never; no
    options at all when the column is not there. *)
Theorem multiselect_options (df : DataFrame) :
  NoDup (ScriptsApp.regions df)
  /\ NoDup (ScriptsApp.categories df)
  /\ NoDup (ScriptsApp.sub_categories df)
  /\ (forall x, In x (ScriptsApp.regions df)
                <-> has_column df "Region" = true
                    /\ exists r, In r (rows df) /\ Region r = Some x)
  /\ (forall x, In x (ScriptsApp.categories df)
                <-> has_column df "Category" = true
                    /\ exists r, In r (rows df) /\ Category r = Some x)
  /\ (forall x, In x (ScriptsApp.sub_categories df)
                <-> has_column df "Sub-Category" = true
                    /\ exists r, In r (rows df) /\ Sub_Category r = Some x).
Proof.
  unfold ScriptsApp.regions, ScriptsApp.categories, ScriptsApp.sub_categories.
  destruct (options_spec df (has_column df "Region") Region) as [N1 I1].
  destruct (options_spec df (has_column df "Category") Category) as [N2 I2].
  destruct (options_spec df (has_column df "Sub-Category") Sub_Category)
    as [N3 I3].
  split; [exact N1 | split; [exact N2 | split; [exact N3|]]].
  split; [exact I1 | split; [exact I2 | exact I3]].
Qed.

(** Sorting strings. *)
Lemma str_ltb_false (a b : str) :
  str_ltb b a = false <-> a = b \/ str_ltb a b = true.
Proof.
  split.
  - intros Hba. destruct (str_eqb a b) eqn:E.
    + left. apply str_eqb_eq. exact E.
    + right. destruct (str_ltb a b) eqn:L; [reflexivity|].
      rewrite (str_ltb_total _ _ E L) in Hba. discriminate.
  - intros [-> | Hab]; [apply str_ltb_irrefl|].
    destruct (str_ltb b a) eqn:L; [|reflexivity].
    rewrite <- (str_ltb_irrefl a). symmetry. exact (str_ltb_trans _ _ _ Hab L).
Qed.

Lemma insert_sorted_perm (x : str) (l : list str) :
  Permutation (insert_sorted x l) (x :: l).
Proof.
  induction l as [|y l IH]; simpl; [reflexivity|].
  destruct (str_ltb y x); [|reflexivity].
  rewrite IH. apply perm_swap.
Qed.

Lemma sorted_perm (l : list str) : Permutation (sorted l) l.
Proof.
  induction l as [|x l IH]; simpl; [reflexivity|].
  rewrite insert_sorted_perm. apply perm_skip, IH.
Qed.

Lemma insert_sorted_ascending (x : str) (l : list str) :
  ~ In x l ->
  StronglySorted (fun a b => str_ltb a b = true) l ->
  StronglySorted (fun a b => str_ltb a b = true) (insert_sorted x l).
Proof.
  induction l as [|y l IH]; simpl; intros Hx Hs.
  - repeat constructor.
  - inversion Hs as [|? ? Hs' Hall]; subst.
    destruct (str_ltb y x) eqn:L.
    + constructor; [apply IH; tauto|].
      apply Forall_forall. intros z Hz.
      apply (Permutation_in _ (insert_sorted_perm x l)) in Hz.
      destruct Hz as [<- | Hz]; [exact L|].
      rewrite Forall_forall in Hall. exact (Hall z Hz).
    + assert (Hxy : str_ltb x y = true).
      { apply str_ltb_false in L. destruct L as [-> | L]; [tauto | exact L]. }
      constructor; [exact Hs|]. constructor; [exact Hxy|].
      eapply Forall_impl; [|exact Hall].
      intros z Hz. exact (str_ltb_trans _ _ _ Hxy Hz).
Qed.

Lemma sorted_ascending (l : list str) :
  NoDup l -> StronglySorted (fun a b => str_ltb a b = true) (sorted l).
Proof.
  induction 1 as [|x l Hx Hnd IH]; simpl; [constructor|].
  apply insert_sorted_ascending; [|exact IH].
  intros Hin. apply Hx. exact (Permutation_in _ (sorted_perm l) Hin).
Qed.

(** The options of the two multiselect widgets of [src/app.py]: the values
    present in the column, each once, in strictly ascending order; they are
    the options [src/scripts/app.py] offers, rearranged.  A table without the
    column fails with a [KeyError]. *)
Theorem sorted_multiselect_options (df : DataFrame) (options : list str) :
  App.regions df = Ok options ->
  StronglySorted (fun a b => str_ltb a b = true) options
  /\ NoDup options
  /\ (forall x, In x options <-> exists r, In r (rows df) /\ Region r = Some x)
  /\ Permutation options (ScriptsApp.regions df).
Proof.
  unfold App.regions, App.require_column, bind.
  destruct (has_column df "Region") eqn:Hcol; [|discriminate].
  intros E. injection E as <-.
  set (u := unique (dropna (List.map Region (rows df)))).
  assert (Hp : Permutation (sorted u) u) by apply sorted_perm.
  assert (Hnd : NoDup u) by apply NoDup_unique.
  repeat split.
  - apply sorted_ascending. exact Hnd.
  - exact (Permutation_NoDup (Permutation_sym Hp) Hnd).
  - intros Hx. apply (Permutation_in _ Hp) in Hx. unfold u in Hx.
    rewrite In_unique, In_dropna, in_map_iff in Hx.
    destruct Hx as (r & H1 & H2). eauto.
  - intros (r & H1 & H2). apply (Permutation_in _ (Permutation_sym Hp)).
    unfold u. rewrite In_unique, In_dropna, in_map_iff. eauto.
  - unfold ScriptsApp.regions. rewrite Hcol. exact Hp.
Qed.

Lemma sorted_multiselect_options_witness :
  App.regions Sample.df = Ok [lit "East"; lit "West"]
  /\ ScriptsApp.regions Sample.df = [lit "West"; lit "East"]
  /\ StronglySorted (fun a b => str_ltb a b = true) [lit "East"; lit "West"].
Proof.
  split; [reflexivity | split; [reflexivity|]].
  exact (proj1 (sorted_multiselect_options Sample.df _ eq_refl)).
Defined.

Lemma filter_categories_rows df sb :
  rows (ScriptsApp.filter_categories df sb)
  = filter (fun r => Spec.keeps_region df sb r && Spec.keeps_category df sb r
                     && Spec.keeps_sub_category df sb r) (rows df).
Proof.
  unfold ScriptsApp.filter_categories, Spec.keeps_region, Spec.keeps_category,
    Spec.keeps_sub_category, has_column, select; simpl.
  destruct (str_in (lit "Region") (columns df)
            && truthy (ScriptsApp.selected_region sb)); simpl;
  destruct (str_in (lit "Category") (columns df)
            && truthy (ScriptsApp.selected_category sb)); simpl;
  destruct (str_in (lit "Sub-Category") (columns df)
            && truthy (ScriptsApp.selected_sub_category sb)); simpl;
  rewrite ?filter_filter; try reflexivity;
  try (symmetry; apply filter_all);
  apply filter_ext; intros r; mask_cases.
Qed.

Lemma isin_options (f : Row -> option str) (df : DataFrame) (r : Row) :
  In r (rows df) ->
  isin (f r) (unique (dropna (List.map f (rows df)))) = true <-> f r <> None.
Proof.
  intros Hr. rewrite isin_member. unfold Spec.member. split.
  - intros (s & -> & _). discriminate.
  - intros Hne. destruct (f r) as [s|] eqn:E; [|congruence].
    exists s. split; [reflexivity|].
    rewrite In_unique, In_dropna, in_map_iff. eauto.
Qed.

(** With every option selected, as the sidebar of [src/scripts/app.py]
    starts, a row is still dropped when its value is missing in a filtered
    column that holds some value; a column without any value filters
    nothing. *)
Theorem default_selection_drops_missing_values (df : DataFrame) (r : Row) :
  In r (rows (ScriptsApp.filter_categories df (ScriptsApp.default_sidebar df)))
  <-> In r (rows df)
      /\ (ScriptsApp.regions df <> [] -> Region r <> None)
      /\ (ScriptsApp.categories df <> [] -> Category r <> None)
      /\ (ScriptsApp.sub_categories df <> [] -> Sub_Category r <> None).
Proof.
  rewrite filter_categories_rows, filter_In, !andb_true_iff.
  assert (Hk : forall (col : string) (f : Row -> option str),
             In r (rows df) ->
             ((if has_column df col
                  && truthy (if has_column df col
                             then unique (dropna (List.map f (rows df))) else [])
               then isin (f r) (if has_column df col
                                then unique (dropna (List.map f (rows df)))
                                else [])
               else true) = true
              <-> ((if has_column df col
                    then unique (dropna (List.map f (rows df))) else []) <> []
                   -> f r <> None))).
  { intros col f Hr. destruct (has_column df col); simpl.
    - destruct (unique (dropna (List.map f (rows df)))) as [|x l] eqn:Eu; simpl.
      + split; [intros _ Hne; congruence | reflexivity].
      + rewrite <- Eu, (isin_options f df r Hr). split; [auto|].
        intros Hne. apply Hne. rewrite Eu. discriminate.
    - split; [intros _ Hne; congruence | reflexivity]. }
  unfold Spec.keeps_region, Spec.keeps_category, Spec.keeps_sub_category,
    ScriptsApp.default_sidebar, ScriptsApp.regions, ScriptsApp.categories,
    ScriptsApp.sub_categories. simpl.
  split.
  - intros (Hr & (H1 & H2) & H3).
    split; [exact Hr|]. split; [|split].
    + apply (Hk "Region"%string Region Hr). exact H1.
    + apply (Hk "Category"%string Category Hr). exact H2.
    + apply (Hk "Sub-Category"%string Sub_Category Hr). exact H3.
  - intros (Hr & H1 & H2 & H3). split; [exact Hr|]. split; [split|].
    + apply (Hk "Region"%string Region Hr). exact H1.
    + apply (Hk "Category"%string Category Hr). exact H2.
    + apply (Hk "Sub-Category"%string Sub_Category Hr). exact H3.
Qed.

(* ================================================================== *)
(** ** The default date range, and filtering again *)

Lemma fold_min_spec (l : list Z) : forall a,
  (fold_left Z.min l a = a \/ In (fold_left Z.min l a) l)
  /\ fold_left Z.min l a <= a
  /\ (forall x, In x l -> fold_left Z.min l a <= x).
Proof.
  induction l as [|y l IH]; intros a; simpl.
  - repeat split; [auto | lia | intros x []].
  - destruct (IH (Z.min a y)) as (Hin & Hle & Hall). repeat split.
    + destruct Hin as [E | Hin]; [|auto].
      rewrite E. destruct (Z.min_spec a y) as [[_ ->] | [_ ->]]; auto.
    + lia.
    + intros x [<- | Hx]; [lia | auto].
Qed.

(** The smallest and the largest order date of a table that has one. *)
Lemma ts_min_max_spec (l : list (option Timestamp)) :
  (exists t, In (Some t) l) ->
  exists lo hi,
    ts_min l = Some lo /\ ts_max l = Some hi
    /\ forall t, In (Some t) l -> lo <= t <= hi.
Proof.
  intros (t0 & Ht0). apply In_dropna in Ht0. unfold ts_min, ts_max.
  destruct (dropna l) as [|a d] eqn:Ed; [destruct Ht0|].
  destruct (fold_min_spec d a) as (_ & Hlo & Hlos).
  destruct (fold_max_spec d a) as (_ & Hhi & Hhis).
  exists (fold_left Z.min d a), (fold_left Z.max d a).
  repeat split.
  - apply In_dropna in H. rewrite Ed in H. destruct H as [<- | H]; auto.
  - apply In_dropna in H. rewrite Ed in H. destruct H as [<- | H]; auto.
Qed.

Lemma filter_categories_incl df sb :
  incl (rows (ScriptsApp.filter_categories df sb)) (rows df).
Proof. rewrite filter_categories_rows. apply filter_incl. Qed.

(** With the date input of [src/scripts/app.py] left at its default, the
    first and the last day of the table, no row is dropped for being too
    early, and a row is dropped for being too late exactly when its order
    date is after midnight of the last day; a row dated at midnight of some
    day always passes.  Every order date of the table falls on a day of the
    range. *)
Theorem default_date_range_bounds (df : DataFrame) (sb : ScriptsApp.Sidebar) :
  has_column df "Order Date" = true ->
  ScriptsApp.date_range sb = ScriptsApp.default_date_range df ->
  (exists r t, In r (rows df) /\ Order_Date r = Some t) ->
  exists first_day last_day,
    ScriptsApp.default_date_range df = [first_day; last_day]
    /\ first_day <= last_day
    /\ (forall r t, In r (rows df) -> Order_Date r = Some t ->
          to_datetime first_day <= t < to_datetime (last_day + 1))
    /\ (forall r, In r (rows (ScriptsApp.filter_categories df sb)) ->
          (In r (rows (ScriptsApp.filtered_df df sb))
           <-> exists t, Order_Date r = Some t /\ t <= to_datetime last_day))
    /\ (forall r d, In r (rows (ScriptsApp.filter_categories df sb)) ->
          Order_Date r = Some (to_datetime d) ->
          In r (rows (ScriptsApp.filtered_df df sb))).
Proof.
  intros Hcol Hrange (r0 & t0 & Hr0 & Ht0).
  destruct (ts_min_max_spec (List.map Order_Date (rows df)))
    as (lo & hi & Hmin & Hmax & Hbounds).
  { exists t0. rewrite <- Ht0. apply in_map. exact Hr0. }
  assert (Hb : forall r t, In r (rows df) -> Order_Date r = Some t -> lo <= t <= hi).
  { intros r t Hr Ht. apply Hbounds. rewrite <- Ht. apply in_map. exact Hr. }
  assert (Hdef : ScriptsApp.default_date_range df
                 = [lo / ns_per_day; hi / ns_per_day]).
  { unfold ScriptsApp.default_date_range. rewrite Hmin, Hmax. reflexivity. }
  pose proof (Hb r0 t0 Hr0 Ht0) as Hlohi.
  assert (Hdays : forall r t, In r (rows df) -> Order_Date r = Some t ->
            to_datetime (lo / ns_per_day) <= t
            < to_datetime (hi / ns_per_day + 1)).
  { intros r t Hr Ht. specialize (Hb r t Hr Ht).
    unfold to_datetime, ns_per_day in *. lia_div. }
  rewrite Hdef in Hrange.
  pose proof (in_date_filtered df sb _ _ Hcol Hrange) as Hiff.
  exists (lo / ns_per_day), (hi / ns_per_day).
  split; [exact Hdef | split; [|split; [exact Hdays | split]]].
  - unfold ns_per_day. lia_div.
  - intros r Hr. rewrite Hiff. unfold Spec.within. split.
    + intros (_ & t & Ht & _ & Hle). eauto.
    + intros (t & Ht & Hle). split; [exact Hr|]. exists t.
      split; [exact Ht|]. split; [|exact Hle].
      apply (Hdays r t (filter_categories_incl df sb r Hr) Ht).
  - intros r d Hr Hd. apply Hiff. split; [exact Hr|].
    exists (to_datetime d). split; [exact Hd|].
    pose proof (Hdays r _ (filter_categories_incl df sb r Hr) Hd) as Hdd.
    unfold to_datetime, ns_per_day in *. lia_div.
Qed.

Lemma default_date_range_bounds_witness :
  has_column Sample.df "Order Date" = true
  /\ ScriptsApp.default_date_range Sample.df = [10; 20]
  /\ exists first_day last_day,
       ScriptsApp.default_date_range Sample.df = [first_day; last_day]
       /\ first_day <= last_day.
Proof.
  split; [reflexivity | split; [reflexivity|]].
  destruct (default_date_range_bounds Sample.df
              (ScriptsApp.default_sidebar Sample.df) eq_refl eq_refl)
    as (first_day & last_day & Hdef & Hle & _).
  { exists Sample.west, (to_datetime 10). split; [left|]; reflexivity. }
  exists first_day, last_day. split; assumption.
Defined.

Lemma frame_eq {R} (a b : Frame R) :
  columns a = columns b -> rows a = rows b -> a = b.
Proof. destruct a, b; simpl; intros -> ->; reflexivity. Qed.

Lemma keeps_columns df df' sb r :
  columns df' = columns df -> Spec.keeps df' sb r = Spec.keeps df sb r.
Proof.
  intros Hc. unfold Spec.keeps, Spec.keeps_region, Spec.keeps_category,
    Spec.keeps_sub_category, Spec.keeps_date, has_column.
  rewrite Hc. reflexivity.
Qed.

Lemma filter_dates_rows df sb :
  rows (ScriptsApp.filter_dates df sb) = filter (Spec.keeps_date df sb) (rows df).
Proof.
  unfold ScriptsApp.filter_dates, Spec.keeps_date.
  destruct (has_column df "Order Date"); simpl.
  - destruct (ScriptsApp.date_range sb) as [|s [|e [|x l]]]; simpl;
      try reflexivity; symmetry; apply filter_all.
  - symmetry. apply filter_all.
Qed.

Lemma filter_dates_columns df sb :
  columns (ScriptsApp.filter_dates df sb) = columns df.
Proof.
  unfold ScriptsApp.filter_dates.
  destruct (_ && _); [destruct (ScriptsApp.date_range sb) as [|s [|e [|x l]]]|];
    reflexivity.
Qed.

(** Filtering a view again with the same sidebar changes nothing, and the
    date filter and the categorical filters of [src/scripts/app.py] can be
    applied in either order. *)
Theorem filtering_is_idempotent (df : DataFrame) (sb : ScriptsApp.Sidebar) :
  ScriptsApp.filtered_df (ScriptsApp.filtered_df df sb) sb
  = ScriptsApp.filtered_df df sb
  /\ ScriptsApp.filter_categories (ScriptsApp.filter_dates df sb) sb
     = ScriptsApp.filtered_df df sb.
Proof.
  split; apply frame_eq.
  - rewrite !filtered_df_columns. reflexivity.
  - rewrite filtered_df_rows.
    rewrite (filter_ext _ _ (fun r => keeps_columns df _ sb r
                                        (filtered_df_columns df sb))).
    rewrite filtered_df_rows, filter_filter.
    apply filter_ext. intros r. destruct (Spec.keeps df sb r); reflexivity.
  - rewrite filter_categories_columns, filter_dates_columns, filtered_df_columns.
    reflexivity.
  - rewrite filter_categories_rows, filter_dates_rows, filtered_df_rows,
      filter_filter.
    apply filter_ext. intros r.
    unfold Spec.keeps, Spec.keeps_region, Spec.keeps_category,
      Spec.keeps_sub_category, has_column.
    rewrite filter_dates_columns.
    destruct (Spec.keeps_date df sb r);
      rewrite ?andb_true_r, ?andb_false_r; reflexivity.
Qed.

(** Where both scripts filter the same way they give the same view: with
    regions and categories selected, nothing selected among the
    sub-categories (or no such column) and no complete date range (or no
    Order Date column), the view of [src/scripts/app.py] is the view of
    [src/app.py]. *)
Theorem scripts_view_is_app_view (df : DataFrame) (sb : ScriptsApp.Sidebar) :
  has_column df "Region" = true ->
  has_column df "Category" = true ->
  ScriptsApp.selected_region sb <> [] ->
  ScriptsApp.selected_category sb <> [] ->
  ScriptsApp.selected_sub_category sb = [] \/ has_column df "Sub-Category" = false ->
  has_column df "Order Date" = false
  \/ List.length (ScriptsApp.date_range sb) <> 2%nat ->
  App.filtered_df df (ScriptsApp.selected_region sb)
    (ScriptsApp.selected_category sb)
  = Ok (ScriptsApp.filtered_df df sb).
Proof.
  intros Hr Hc Hsr Hsc Hsub Hdate.
  unfold App.filtered_df, App.require_column, bind. rewrite Hr, Hc.
  f_equal. apply frame_eq.
  - rewrite filtered_df_columns. reflexivity.
  - simpl. rewrite filtered_df_rows. apply filter_ext. intros r.
    unfold Spec.keeps, Spec.keeps_region, Spec.keeps_category,
      Spec.keeps_sub_category, Spec.keeps_date.
    rewrite Hr, Hc.
    rewrite (proj2 (truthy_nonempty _) Hsr), (proj2 (truthy_nonempty _) Hsc).
    simpl.
    assert (Es : (if has_column df "Sub-Category"
                     && truthy (ScriptsApp.selected_sub_category sb)
                  then isin (Sub_Category r) (ScriptsApp.selected_sub_category sb)
                  else true) = true).
    { destruct Hsub as [-> | ->]; rewrite ?andb_false_r; reflexivity. }
    assert (Ed : (if has_column df "Order Date"
                  then match ScriptsApp.date_range sb with
                       | [start_date; end_date] =>
                           ge_ts (Order_Date r) (to_datetime start_date)
                           && le_ts (Order_Date r) (to_datetime end_date)
                       | _ => true
                       end
                  else true) = true).
    { destruct Hdate as [-> | Hlen]; [reflexivity|].
      destruct (has_column df "Order Date"); [|reflexivity].
      destruct (ScriptsApp.date_range sb) as [|s [|e [|x l]]];
        try reflexivity. simpl in Hlen. congruence. }
    rewrite Es, Ed, !andb_true_r. reflexivity.
Qed.

Lemma scripts_view_is_app_view_witness :
  has_column Sample.df "Region" = true
  /\ App.filtered_df Sample.df [lit "West"] [lit "Furniture"]
     = Ok (ScriptsApp.filtered_df Sample.df
             (ScriptsApp.mkSidebar [lit "West"] [lit "Furniture"] [] [5])).
Proof.
  split; [reflexivity|].
  apply (scripts_view_is_app_view Sample.df
           (ScriptsApp.mkSidebar [lit "West"] [lit "Furniture"] [] [5]));
    try reflexivity; try discriminate.
  - left. reflexivity.
  - right. discriminate.
Defined.

(* ================================================================== *)
(** ** The series behind the charts *)

Lemma sales_ts_ascending df :
  StronglySorted Z.lt (List.map fst (App.sales_ts df)).
Proof.
  apply (StronglySorted_impl (fun a b => Z.ltb a b = true)).
  - intros a b. apply Z.ltb_lt.
  - apply (groupby_sum_sorted Z.eqb Z.ltb Z.eqb_eq Zltb_trans Zltb_total).
Qed.

(** The daily series of both scripts (the input of the forecast in
    [src/app.py], the Sales Over Time chart in [src/scripts/app.py]) is in
    chronological order, one entry per order date of the view; a row without
    an order date is in no entry. *)
Theorem daily_series_is_chronological (filtered_df : DataFrame)
  (s : Series Timestamp) :
  App.sales_ts filtered_df = s \/ ScriptsApp.trend filtered_df = Ok (Some s) ->
  StronglySorted Z.lt (List.map fst s)
  /\ (forall t, In t (List.map fst s)
                <-> exists r, In r (rows filtered_df) /\ Order_Date r = Some t)
  /\ List.length s = List.length (Spec.distinct_dates filtered_df).
Proof.
  intros Hs.
  assert (E : s = App.sales_ts filtered_df).
  { destruct Hs as [<- | Hs]; [reflexivity|].
    unfold ScriptsApp.trend, getitem, bind in Hs.
    destruct (has_column filtered_df "Order Date"); [|discriminate].
    destruct (has_column filtered_df "Sales"); [|discriminate].
    injection Hs as <-. reflexivity. }
  subst s. split; [apply sales_ts_ascending | split; [|apply sales_ts_length]].
  intros t. unfold App.sales_ts.
  rewrite (groupby_sum_keys Z.eqb Z.ltb Z.eqb_eq), in_map_iff.
  split; intros (r & H1 & H2); exists r; tauto.
Qed.

Lemma daily_series_is_chronological_witness :
  ScriptsApp.trend Sample.df
  = Ok (Some [(to_datetime 10, 100%float); (to_datetime 20, 50%float)])
  /\ StronglySorted Z.lt [to_datetime 10; to_datetime 20].
Proof.
  split; [vm_compute; reflexivity|].
  exact (proj1 (daily_series_is_chronological Sample.df
                  [(to_datetime 10, 100%float); (to_datetime 20, 50%float)]
                  (or_introl eq_refl))).
Defined.

(** The Sales by Region bars of both scripts: one bar per region present in
    the view, in ascending order of region; the bars are the options the
    region filter would offer on the view. *)
Theorem region_bars (filtered_df : DataFrame) (bars : Series str) :
  App.region_df filtered_df = Ok bars
  \/ ScriptsApp.region_sales filtered_df = Ok (Some bars) ->
  StronglySorted (fun a b => str_ltb a b = true) (List.map fst bars)
  /\ (forall x, In x (List.map fst bars)
                <-> exists r, In r (rows filtered_df) /\ Region r = Some x)
  /\ Permutation (List.map fst bars) (ScriptsApp.regions filtered_df).
Proof.
  intros Hbars.
  assert (E : bars = groupby_sum str_eqb str_ltb Region Sales (rows filtered_df)
              /\ has_column filtered_df "Region" = true).
  { destruct Hbars as [Hb | Hb].
    - unfold App.region_df, App.require_column, bind in Hb.
      destruct (has_column filtered_df "Region"); [|discriminate].
      destruct (has_column filtered_df "Sales"); [|discriminate].
      injection Hb as <-. auto.
    - unfold ScriptsApp.region_sales, getitem, bind in Hb.
      destruct (has_column filtered_df "Region"); [|discriminate].
      destruct (has_column filtered_df "Sales"); [|discriminate].
      injection Hb as <-. auto. }
  destruct E as [-> Hcol].
  assert (Hkeys : forall x,
             In x (List.map fst (groupby_sum str_eqb str_ltb Region Sales
                                   (rows filtered_df)))
             <-> exists r, In r (rows filtered_df) /\ Region r = Some x).
  { intros x. rewrite (groupby_sum_keys str_eqb str_ltb str_eqb_eq), in_map_iff.
    split; intros (r & H1 & H2); exists r; tauto. }
  split; [|split; [exact Hkeys|]].
  - apply (groupby_sum_sorted str_eqb str_ltb str_eqb_eq str_ltb_trans
             str_ltb_total).
  - apply NoDup_Permutation.
    + apply (groupby_sum_NoDup str_eqb str_ltb str_eqb_eq str_ltb_trans
               str_ltb_irrefl str_ltb_total).
    + apply multiselect_options_NoDup.
    + intros x. rewrite Hkeys. unfold ScriptsApp.regions. rewrite Hcol.
      rewrite In_unique, In_dropna, in_map_iff.
      split; intros (r & H1 & H2); exists r; tauto.
Qed.

Lemma region_bars_witness :
  App.region_df Sample.df = Ok [(lit "East", 50%float); (lit "West", 130%float)]
  /\ Permutation [lit "East"; lit "West"] (ScriptsApp.regions Sample.df).
Proof.
  split; [vm_compute; reflexivity|].
  exact (proj2 (proj2 (region_bars Sample.df
                         [(lit "East", 50%float); (lit "West", 130%float)]
                         (or_introl eq_refl)))).
Defined.

(** The order of (category, sub-category) pairs. *)
Lemma pair_eqb_eq (p q : str * str) : pair_eqb p q = true <-> p = q.
Proof.
  destruct p as [a b], q as [c d]. unfold pair_eqb. simpl.
  rewrite andb_true_iff, !str_eqb_eq. split.
  - intros [-> ->]. reflexivity.
  - intros E. injection E. auto.
Qed.

Lemma str_eqb_refl (a : str) : str_eqb a a = true.
Proof. apply str_eqb_eq. reflexivity. Qed.

Lemma pair_ltb_irrefl (p : str * str) : pair_ltb p p = false.
Proof.
  unfold pair_ltb. rewrite !str_ltb_irrefl, andb_false_r. reflexivity.
Qed.

Lemma pair_ltb_trans (p q r : str * str) :
  pair_ltb p q = true -> pair_ltb q r = true -> pair_ltb p r = true.
Proof.
  destruct p as [a b], q as [c d], r as [e f]. unfold pair_ltb. simpl.
  rewrite !orb_true_iff, !andb_true_iff, !str_eqb_eq.
  intros [H1 | [-> H1]] [H2 | [-> H2]].
  - left. exact (str_ltb_trans _ _ _ H1 H2).
  - left. exact H1.
  - left. exact H2.
  - right. split; [reflexivity | exact (str_ltb_trans _ _ _ H1 H2)].
Qed.

Lemma pair_ltb_total (p q : str * str) :
  pair_eqb p q = false -> pair_ltb p q = false -> pair_ltb q p = true.
Proof.
  destruct p as [a b], q as [c d]. unfold pair_eqb, pair_ltb. simpl.
  intros He Hl. apply orb_false_iff in Hl. destruct Hl as [Hac Hl].
  destruct (str_eqb a c) eqn:Eac.
  - apply str_eqb_eq in Eac. subst c. simpl in He, Hl.
    rewrite str_ltb_irrefl, str_eqb_refl. simpl.
    exact (str_ltb_total _ _ He Hl).
  - rewrite (str_ltb_total _ _ Eac Hac). reflexivity.
Qed.

(** The tiles of the profit treemap of [src/scripts/app.py]: one tile per
    pair of category and sub-category that some row of the view carries, pairs
    ascending by category and then by sub-category; a row that lacks either of
    the two is in no tile. *)
Theorem treemap_tiles (filtered_df : DataFrame) (tiles : Series (str * str)) :
  ScriptsApp.cat_profit filtered_df = Ok (Some tiles) ->
  StronglySorted (fun p q => pair_ltb p q = true) (List.map fst tiles)
  /\ NoDup (List.map fst tiles)
  /\ forall category sub_category,
       In (category, sub_category) (List.map fst tiles)
       <-> exists r, In r (rows filtered_df)
                     /\ Category r = Some category
                     /\ Sub_Category r = Some sub_category.
Proof.
  unfold ScriptsApp.cat_profit, getitem, bind.
  destruct (_ && _); [|discriminate].
  destruct (has_column filtered_df "Profit"); [|discriminate].
  intros E. injection E as <-. split; [|split].
  - apply (groupby_sum_sorted pair_eqb pair_ltb pair_eqb_eq pair_ltb_trans
             pair_ltb_total).
  - apply (groupby_sum_NoDup pair_eqb pair_ltb pair_eqb_eq pair_ltb_trans
             pair_ltb_irrefl pair_ltb_total).
  - intros c sc. rewrite (groupby_sum_keys pair_eqb pair_ltb pair_eqb_eq),
      in_map_iff. unfold key2. split.
    + intros (r & Hk & Hr). exists r. split; [exact Hr|].
      destruct (Category r) as [x|], (Sub_Category r) as [y|];
        try discriminate.
      injection Hk as -> ->. auto.
    + intros (r & Hr & Hc & Hs). exists r. rewrite Hc, Hs. auto.
Qed.

Lemma treemap_tiles_witness :
  ScriptsApp.cat_profit Sample.awkward
  = Ok (Some [((lit "Furniture", []), 0%float);
              ((lit "Furniture", lit "Chairs"), 20%float)])
  /\ NoDup [(lit "Furniture", @nil codepoint); (lit "Furniture", lit "Chairs")].
Proof.
  split; [vm_compute; reflexivity|].
  exact (proj1 (proj2 (treemap_tiles Sample.awkward _ eq_refl))).
Defined.

(** The products of the Top 10 chart of both scripts: at most 10, no product
    twice, every one a product of some row of the view, and every product of
    the view when the view has at most 10 of them. *)
Theorem top_products_names `{Library} (filtered_df : DataFrame)
  (top : Series str) :
  ScriptsApp.top_products filtered_df = Ok (Some top)
  \/ App.top10 filtered_df = Ok top ->
  (List.length top <= 10)%nat
  /\ NoDup (List.map fst top)
  /\ (forall name, In name (List.map fst top) ->
        exists r, In r (rows filtered_df) /\ Product_Name r = Some name)
  /\ ((List.length (Spec.product_groups filtered_df) <= 10)%nat ->
      forall r name, In r (rows filtered_df) -> Product_Name r = Some name ->
                     In name (List.map fst top)).
Proof.
  intros Htop.
  destruct (top_selection filtered_df 10 top (or_introl (conj eq_refl Htop)))
    as (rest & Hperm & _ & Hlen & _).
  pose proof (Permutation_map fst Hperm) as Hnames. rewrite map_app in Hnames.
  split; [rewrite Hlen; apply Nat.le_min_l | split; [|split]].
  - apply (NoDup_app_remove_r _ (List.map fst rest)).
    exact (Permutation_NoDup (Permutation_sym Hnames)
             (product_groups_NoDup filtered_df)).
  - intros name Hn.
    assert (Hg : In name (List.map fst (Spec.product_groups filtered_df))).
    { apply (Permutation_in _ Hnames), in_or_app. left. exact Hn. }
    apply product_groups_names, in_map_iff in Hg.
    destruct Hg as (r & H1 & H2). eauto.
  - intros Hfew r name Hr Hname.
    assert (Hrest : rest = []).
    { pose proof (Permutation_length Hperm) as Hl.
      rewrite length_app, Hlen in Hl.
      destruct rest; [reflexivity | cbn [List.length] in Hl; lia]. }
    subst rest. rewrite app_nil_r in Hnames.
    apply (Permutation_in _ (Permutation_sym Hnames)), product_groups_names.
    rewrite <- Hname. apply in_map. exact Hr.
Qed.

Lemma top_products_names_witness :
  ScriptsApp.top_products (H := Sample.library) Sample.tie
  = Ok (Some [(lit "C", 7%float); (lit "A", 5%float); (lit "B", 5%float)])
  /\ NoDup [lit "C"; lit "A"; lit "B"].
Proof.
  assert (E : ScriptsApp.top_products (H := Sample.library) Sample.tie
              = Ok (Some [(lit "C", 7%float); (lit "A", 5%float);
                          (lit "B", 5%float)]))
    by (vm_compute; reflexivity).
  split; [exact E|].
  exact (proj1 (proj2 (top_products_names (H := Sample.library) Sample.tie _
                         (or_introl E)))).
Defined.

(* ================================================================== *)
(** ** More of the Exporter *)

Lemma utf8_encode_char_scalar (c : codepoint) (bs : list N) :
  utf8_encode_char c = Some bs -> Spec.scalar c = true.
Proof.
  unfold utf8_encode_char, Spec.scalar, is_surrogate.
  destruct (N.ltb_spec c 128); [intros _; decide_tests; reflexivity|].
  destruct (N.ltb_spec c 2048); [intros _; decide_tests; reflexivity|].
  destruct (N.ltb_spec c 65536).
  - destruct ((55296 <=? c)%N && (c <=? 57343)%N); [discriminate|].
    intros _. decide_tests. reflexivity.
  - destruct (N.leb_spec c 1114111); [|discriminate].
    intros _. decide_tests. reflexivity.
Qed.

Lemma utf8_encode_encodable (s : str) (data : bytes) :
  utf8_encode s = Some data -> Spec.encodable s.
Proof.
  unfold utf8_encode, Spec.encodable.
  destruct (utf8_encode_N s) as [bs|] eqn:E; [|discriminate]. intros _.
  revert bs E. induction s as [|c s IH]; simpl; intros bs E; [reflexivity|].
  destruct (utf8_encode_char c) as [b|] eqn:Ec; [|discriminate].
  destruct (utf8_encode_N s) as [r|]; [|discriminate].
  rewrite (utf8_encode_char_scalar _ _ Ec), (IH r eq_refl). reflexivity.
Qed.

Lemma utf8_decode_N_scalar_bounded (n : nat) : forall (l : list N) (s : str),
  (List.length l <= n)%nat ->
  utf8_decode_N l = Some s -> forallb Spec.scalar s = true.
Proof.
  induction n as [|n IH]; intros l s Hn.
  { destruct l; [|simpl in Hn; lia]. simpl. intros E. injection E as <-.
    reflexivity. }
  destruct l as [|b0 r0]; simpl.
  { intros E. injection E as <-. reflexivity. }
  simpl in Hn.
  assert (Hstep : forall c rest,
             (List.length rest <= n)%nat ->
             Spec.scalar c = true ->
             option_map (cons c) (utf8_decode_N rest) = Some s ->
             forallb Spec.scalar s = true).
  { intros c rest Hlt Hc E.
    destruct (utf8_decode_N rest) as [t|] eqn:Et; [|discriminate].
    apply Some_inj in E. subst s. simpl. rewrite Hc. exact (IH rest t Hlt Et). }
  destruct (N.ltb_spec b0 128) as [H0 | H0].
  { apply Hstep; [lia|].
    unfold Spec.scalar, is_surrogate. decide_tests. reflexivity. }
  destruct ((194 <=? b0)%N && (b0 <=? 223)%N) eqn:H2.
  { destruct r0 as [|b1 r1]; [discriminate|].
    destruct (is_continuation b1) eqn:C1; [|discriminate].
    apply Hstep; [simpl in Hn; lia|].
    unfold is_continuation in C1.
    apply andb_true_iff in H2, C1. destruct H2 as [H2a H2b], C1 as [C1a C1b].
    apply N.leb_le in H2a, H2b, C1a, C1b.
    unfold Spec.scalar, is_surrogate. decide_tests. reflexivity. }
  destruct ((224 <=? b0)%N && (b0 <=? 239)%N) eqn:H3.
  { destruct r0 as [|b1 [|b2 r2]]; try discriminate.
    remember ((b0 - 224) * 4096 + (b1 - 128) * 64 + (b2 - 128))%N as c eqn:Ec.
    destruct (is_continuation b1 && is_continuation b2
              && (2048 <=? c)%N && negb (is_surrogate c)) eqn:C; [|discriminate].
    apply Hstep; [simpl in Hn; lia|].
    apply andb_true_iff in C. destruct C as [C Cs].
    apply andb_true_iff in C. destruct C as [C _].
    apply andb_true_iff in C. destruct C as [C1 C2].
    unfold is_continuation in C1, C2.
    apply andb_true_iff in H3, C1, C2.
    destruct H3 as [H3a H3b], C1 as [C1a C1b], C2 as [C2a C2b].
    apply N.leb_le in H3a, H3b, C1a, C1b, C2a, C2b.
    unfold Spec.scalar. rewrite Cs, andb_true_r. apply N.leb_le. lia. }
  destruct ((240 <=? b0)%N && (b0 <=? 244)%N) eqn:H4; [|discriminate].
  destruct r0 as [|b1 [|b2 [|b3 r3]]]; try discriminate.
  remember ((b0 - 240) * 262144 + (b1 - 128) * 4096 + (b2 - 128) * 64
            + (b3 - 128))%N as c eqn:Ec.
  destruct (is_continuation b1 && is_continuation b2 && is_continuation b3
            && (65536 <=? c)%N && (c <=? 1114111)%N) eqn:C; [|discriminate].
  apply Hstep; [simpl in Hn; lia|].
  apply andb_true_iff in C. destruct C as [C Cmax].
  apply andb_true_iff in C. destruct C as [_ Cmin].
  apply N.leb_le in Cmin, Cmax.
  unfold Spec.scalar, is_surrogate. rewrite (proj2 (N.leb_le _ _) Cmax).
  decide_tests. reflexivity.
Qed.

Lemma utf8_decode_N_scalar (l : list N) (s : str) :
  utf8_decode_N l = Some s -> Spec.encodable s.
Proof. exact (utf8_decode_N_scalar_bounded (List.length l) l s (le_n _)). Qed.

(** What the Loader decodes the Exporter can encode: both codecs deliver
    Unicode scalar values only, and encoding as UTF-8 fails exactly on a text
    that holds something else. *)
Theorem decoded_text_is_encodable (encoding : Encoding) (file : bytes) (text : str) :
  decode encoding file = Some text ->
  Spec.encodable text
  /\ (exists data, utf8_encode text = Some data)
  /\ forall other, (exists data, utf8_encode other = Some data)
                   <-> Spec.encodable other.
Proof.
  intros Hdec.
  assert (Henc : Spec.encodable text).
  { destruct encoding; simpl in Hdec.
    - exact (utf8_decode_N_scalar _ _ Hdec).
    - injection Hdec as <-. unfold Spec.encodable, latin1_decode.
      induction file as [|b file IH]; simpl; [reflexivity|].
      rewrite IH, andb_true_r. pose proof (Byte.to_N_bounded b) as Hb.
      unfold Spec.scalar, is_surrogate. decide_tests. reflexivity. }
  split; [exact Henc | split; [exact (utf8_encode_total _ Henc)|]].
  intros other. split.
  - intros [data E]. exact (utf8_encode_encodable _ _ E).
  - apply utf8_encode_total.
Qed.

Lemma decoded_text_is_encodable_witness :
  decode utf_8 Sample.e_acute = Some [233%N]
  /\ Spec.encodable [233%N]
  /\ utf8_encode [233%N] = Some Sample.e_acute.
Proof.
  split; [reflexivity | split; [|reflexivity]].
  exact (proj1 (decoded_text_is_encodable utf_8 Sample.e_acute [233%N] eq_refl)).
Defined.

Lemma line_feeds_app (a b : str) :
  Spec.line_feeds (a ++ b) = (Spec.line_feeds a + Spec.line_feeds b)%nat.
Proof. apply count_occ_app. Qed.

Lemma line_feeds_cons_other (c : codepoint) (a : str) :
  c <> newline -> Spec.line_feeds (c :: a) = Spec.line_feeds a.
Proof. intros Hc. apply count_occ_cons_neq. exact Hc. Qed.

Section LineFeeds.
Variable quote_cr : bool.

Lemma line_feeds_escape (f : str) :
  Spec.line_feeds (escape f) = Spec.line_feeds f.
Proof.
  induction f as [|c f IH]; [reflexivity|].
  simpl escape. destruct (N.eqb_spec c dquote) as [-> | Hc].
  - rewrite !line_feeds_cons_other by discriminate. exact IH.
  - unfold Spec.line_feeds in *. simpl.
    destruct (N.eq_dec c newline); rewrite IH; reflexivity.
Qed.

Lemma line_feeds_write_field (f : str) :
  Spec.line_feeds (write_field quote_cr f) = Spec.line_feeds f.
Proof.
  unfold write_field. destruct (existsb _ f); [|reflexivity].
  unfold quoted. rewrite line_feeds_cons_other by discriminate.
  rewrite line_feeds_app, line_feeds_escape.
  change (Spec.line_feeds [dquote]) with 0%nat. apply Nat.add_0_r.
Qed.

Lemma line_feeds_join_fields (fields : list str) :
  Spec.line_feeds (join_fields quote_cr fields)
  = list_sum (List.map Spec.line_feeds fields).
Proof.
  induction fields as [|f fields IH]; [reflexivity|].
  destruct fields as [|f2 fields].
  - cbn [join_fields List.map list_sum]. rewrite line_feeds_write_field.
    symmetry. apply Nat.add_0_r.
  - change (join_fields quote_cr (f :: f2 :: fields))
      with (write_field quote_cr f ++ comma :: join_fields quote_cr (f2 :: fields)).
    rewrite line_feeds_app, line_feeds_write_field,
      line_feeds_cons_other by discriminate.
    rewrite IH. reflexivity.
Qed.

Lemma line_feeds_writerow (fields : list str) :
  Spec.line_feeds (writerow quote_cr fields)
  = S (list_sum (List.map Spec.line_feeds fields)).
Proof.
  assert (Hgen : Spec.line_feeds (join_fields quote_cr fields ++ [newline])
                 = S (list_sum (List.map Spec.line_feeds fields))).
  { rewrite line_feeds_app, line_feeds_join_fields.
    change (Spec.line_feeds [newline]) with 1%nat. apply Nat.add_1_r. }
  unfold writerow. destruct fields as [|[|c f] [|f2 fields]]; exact Hgen.
Qed.

Lemma line_feeds_writerows (records : list (list str)) :
  Spec.line_feeds (writerows quote_cr records)
  = (List.length records
     + list_sum (List.map Spec.line_feeds (List.concat records)))%nat.
Proof.
  unfold writerows. induction records as [|fields records IH]; [reflexivity|].
  cbn [List.map List.concat List.length].
  rewrite line_feeds_app, line_feeds_writerow, IH.
  rewrite map_app, list_sum_app. lia.
Qed.
End LineFeeds.

(** The exported text has one line feed for the header, one for every row of
    the view, and the line feeds that the labels and the cells hold
    themselves; so it is the header line and one line per row exactly when no
    label and no cell holds a line feed. *)
Theorem export_line_count `{Library} (quote_cr : bool) (filtered_df : DataFrame) :
  Spec.line_feeds (to_csv quote_cr filtered_df)
  = (1 + List.length (rows filtered_df)
     + Spec.embedded_line_feeds filtered_df)%nat.
Proof.
  unfold to_csv. rewrite line_feeds_writerows.
  unfold Spec.embedded_line_feeds, Spec.cells.
  cbn [List.length]. rewrite length_map. reflexivity.
Qed.

Lemma utf8_encode_N_ascii (s : str) :
  forallb (fun c => (c <? 128)%N) s = true -> utf8_encode_N s = Some s.
Proof.
  induction s as [|c s IH]; simpl; [reflexivity|].
  intros Hs. apply andb_true_iff in Hs. destruct Hs as [Hc Hs].
  unfold utf8_encode_char. rewrite Hc, (IH Hs). reflexivity.
Qed.

Lemma latin1_decode_ascii (s : str) :
  forallb (fun c => (c <? 128)%N) s = true ->
  latin1_decode (List.map byte_of_N s) = s.
Proof.
  unfold latin1_decode. induction s as [|c s IH]; simpl; [reflexivity|].
  intros Hs. apply andb_true_iff in Hs. destruct Hs as [Hc Hs].
  apply N.ltb_lt in Hc. rewrite to_N_byte_of_N by lia. rewrite (IH Hs).
  reflexivity.
Qed.

(** A file the dashboard exported is read by [src/scripts/app.py] as UTF-8,
    with no second attempt, and the tokenizer gets the exported text; read by
    [src/app.py], as Latin-1, the tokenizer gets the exported text when the
    text is ASCII. *)
Theorem exported_file_is_read_as_utf8 `{Library} (quote_cr : bool)
  (filtered_df : DataFrame) (data : bytes) :
  ScriptsApp.csv quote_cr filtered_df = Ok data
  \/ App.csv quote_cr filtered_df = Ok data ->
  ScriptsApp.read_file data = ([utf_8], parse_text (to_csv quote_cr filtered_df))
  /\ (forallb (fun c => (c <? 128)%N) (to_csv quote_cr filtered_df) = true ->
      App.read_file data = ([latin_1], parse_text (to_csv quote_cr filtered_df))).
Proof.
  intros Hdata.
  assert (E : utf8_encode (to_csv quote_cr filtered_df) = Some data).
  { unfold ScriptsApp.csv, App.csv in Hdata.
    destruct (utf8_encode (to_csv quote_cr filtered_df));
      destruct Hdata as [D | D]; congruence. }
  split.
  - apply scripts_read_file_utf8. exact (utf8_decode_encode _ _ E).
  - intros Hascii. unfold App.read_file, read_csv, decode. f_equal. f_equal.
    unfold utf8_encode in E. rewrite (utf8_encode_N_ascii _ Hascii) in E.
    simpl in E. apply Some_inj in E. subst data.
    apply latin1_decode_ascii. exact Hascii.
Qed.

Lemma exported_file_is_read_as_utf8_witness :
  exists data,
    Sample.scripts_csv false Sample.awkward = Ok data
    /\ @ScriptsApp.read_file Sample.library data
       = ([utf_8], Sample.parse (@to_csv false Sample.library Sample.awkward)).
Proof.
  destruct (@ScriptsApp.csv Sample.library false Sample.awkward) as [data|e] eqn:E.
  - exists data. split; [exact E|].
    exact (proj1 (exported_file_is_read_as_utf8 (H := Sample.library) false
                    Sample.awkward data (or_introl E))).
  - vm_compute in E. discriminate.
Defined.
